(** * ort_trt: the Stable Diffusion benchmark driver of demo/Diffusion

    A shallow embedding of [demo/Diffusion/ort_trt.py].  The script is glue
    around library calls, so the embedding has two layers:

    - tensors (dtype, shape, row-major data) with the NumPy / PyTorch
      operations the script applies to them, as executable functions;
    - the script's functions ([get_args], [to_np], [to_pt], [run_pipeline],
      [main]) in a small monad that threads an opaque library state, can
      raise, and records every library call in a trace.

    The libraries themselves (tokenizer, ONNX Runtime sessions, random
    generator, schedulers, clock, image writer) are parameters: a record of
    functions over an abstract [World]. *)

From Stdlib Require Import String Ascii DecimalString.
From Stdlib Require Import List ZArith Lia Bool.
Import ListNotations.
Local Open Scope string_scope.
Local Open Scope list_scope.
Local Open Scope Z_scope.

Set Implicit Arguments.

(** ** Element types and the two array libraries *)

Inductive dtype := Int32 | Int64 | Float16 | Float32 | Float64.

Inductive lib := Np | Pt.

Definition dtype_eqb (a b : dtype) : bool :=
  match a, b with
  | Int32, Int32 | Int64, Int64 | Float16, Float16
  | Float32, Float32 | Float64, Float64 => true
  | _, _ => false
  end.

(** Type promotion of a binary torch operation: the category (floating over
    integral) wins, then the wider type. *)
Definition dtype_rank (d : dtype) : nat :=
  match d with
  | Int32 => 0 | Int64 => 1 | Float16 => 2 | Float32 => 3 | Float64 => 4
  end%nat.

Definition promote (a b : dtype) : dtype :=
  if (dtype_rank a <? dtype_rank b)%nat then b else a.

(** Python exceptions the script itself can run into. *)
Inductive exn :=
  | ValueError | RuntimeError | IndexError | AttributeError | LibraryError.

Inductive outcome (A : Type) :=
  | Ok (a : A)
  | Raise (e : exn).
Arguments Raise {A} e.

Definition is_ok {A} (r : outcome A) : bool :=
  match r with Ok _ => true | Raise _ => false end.

(** ** Shapes *)

Definition numel (s : list Z) : Z := fold_right Z.mul 1 s.

Fixpoint shape_eqb (a b : list Z) : bool :=
  match a, b with
  | [], [] => true
  | x :: a', y :: b' => (x =? y) && shape_eqb a' b'
  | _, _ => false
  end.

(** [blocks n k l]: the first [n] consecutive blocks of [k] elements. *)
Fixpoint blocks {A} (n k : nat) (l : list A) : list (list A) :=
  match n with
  | O => []
  | S n' => firstn k l :: blocks n' k (skipn k l)
  end.

(** Left-pad a shape with ones up to rank [r] (broadcasting alignment). *)
Definition pad_shape (r : nat) (s : list Z) : list Z :=
  repeat 1 (r - length s)%nat ++ s.

(** The broadcast of two shapes of equal rank, dimension by dimension. *)
Fixpoint broadcast_shape (a b : list Z) : option (list Z) :=
  match a, b with
  | [], [] => Some []
  | x :: a', y :: b' =>
      match broadcast_shape a' b' with
      | None => None
      | Some s =>
          if x =? y then Some (x :: s)
          else if x =? 1 then Some (y :: s)
          else if y =? 1 then Some (x :: s)
          else None
      end
  | _, _ => None
  end.

(** Row-major data of shape [from] expanded to shape [to] (equal ranks). *)
Fixpoint expand {A} (from to : list Z) (d : list A) : option (list A) :=
  match from, to with
  | [], [] => Some d
  | f :: from', t :: to' =>
      let inner := Z.to_nat (numel from') in
      let step blk acc :=
        match expand from' to' blk, acc with
        | Some e, Some r => Some (e :: r)
        | _, _ => None
        end in
      match fold_right step (Some []) (blocks (Z.to_nat f) inner d) with
      | None => None
      | Some bs =>
          if f =? t then Some (concat bs)
          else if f =? 1 then Some (concat (repeat (concat bs) (Z.to_nat t)))
          else None
      end
  | _, _ => None
  end.

Fixpoint map2 {A B C} (f : A -> B -> C) (l : list A) (m : list B) : list C :=
  match l, m with
  | x :: l', y :: m' => f x y :: map2 f l' m'
  | _, _ => []
  end.

(** ** Strings as Python uses them here *)

Definition str_of_int (z : Z) : string := NilZero.string_of_int (Z.to_int z).

Fixpoint str_replace_char (a b : ascii) (s : string) : string :=
  match s with
  | EmptyString => EmptyString
  | String c s' => String (if Ascii.eqb c a then b else c) (str_replace_char a b s')
  end.

Fixpoint str_repeat (s : string) (n : nat) : string :=
  match n with
  | O => EmptyString
  | S n' => (s ++ str_repeat s n')%string
  end.

Definition newline : string := String (ascii_of_nat 10) EmptyString.

(** [args.prompt] and [args.negative_prompt] hold a [str] or a list. *)
#[warnings="-register-all"]
Inductive prompt_val :=
  | PStr (s : string)
  | PList (l : list prompt_val).

(** Number of sequences the tokenizer is handed. *)
Definition prompt_count (p : prompt_val) : Z :=
  match p with
  | PStr _ => 1
  | PList l => Z.of_nat (length l)
  end.

(** Python's [x * n] on a [str] or a [list]. *)
Definition prompt_mul (p : prompt_val) (n : Z) : prompt_val :=
  match p with
  | PStr s => PStr (str_repeat s (Z.to_nat n))
  | PList l => PList (concat (repeat l (Z.to_nat n)))
  end.

(** [p[i]]: a one-character string of a [str], an element of a list. *)
Definition prompt_index (p : prompt_val) (i : nat) : outcome prompt_val :=
  match p with
  | PStr s => match String.get i s with
              | Some c => Ok (PStr (String c EmptyString))
              | None => Raise IndexError
              end
  | PList l => match nth_error l i with
               | Some q => Ok q
               | None => Raise IndexError
               end
  end.

Section Script.

(** Tensor elements, clock readings and the state of the libraries are
    abstract. *)
Variables (scalar time World : Type).

(** ** Tensors *)

(** A NumPy array or a torch tensor: its library, element type, shape and
    row-major data. *)
Record tensor := mkTensor {
  t_lib : lib;
  t_dtype : dtype;
  t_shape : list Z;
  t_data : list scalar
}.

Definition as_np (t : tensor) : tensor :=
  mkTensor Np (t_dtype t) (t_shape t) (t_data t).

Definition as_pt (t : tensor) : tensor :=
  mkTensor Pt (t_dtype t) (t_shape t) (t_data t).

(** An ONNX Runtime session, identified by what it was created from. *)
Record session := Session {
  s_path : string;
  s_providers : list string
}.

Definition session_eq_dec (a b : session) : {a = b} + {a <> b}.
Proof.
  decide equality; [apply (list_eq_dec string_dec) | apply string_dec].
Defined.

(** ** Scalar arithmetic of the array libraries *)

Record Arith := {
  (** conversion of a value to an element type *)
  cast : dtype -> scalar -> scalar;
  sadd : scalar -> scalar -> scalar;
  ssub : scalar -> scalar -> scalar;
  smul : scalar -> scalar -> scalar;
  zero : scalar;
  (** the float [1. / 0.18215] *)
  inv_vae_scale : scalar
}.

Variable A : Arith.

(** [ndarray.astype(d)], [Tensor.type(d)], [Tensor.to(dtype=d)],
    [Tensor.float()]. *)
Definition astype (t : tensor) (d : dtype) : tensor :=
  mkTensor (t_lib t) d (t_shape t)
    (if dtype_eqb (t_dtype t) d then t_data t else map (cast A d) (t_data t)).

(** [np.zeros(shape, dtype)]; a negative dimension is refused. *)
Definition np_zeros (shape : list Z) (d : dtype) : outcome tensor :=
  if forallb (fun n => 0 <=? n) shape
  then Ok (mkTensor Np d shape (repeat (zero A) (Z.to_nat (numel shape))))
  else Raise ValueError.

(** [np.array([x], dtype=d)] for an array [x]: one more leading axis. *)
Definition np_array1 (x : tensor) (d : dtype) : tensor :=
  mkTensor Np d (1 :: t_shape x) (t_data (astype x d)).

(** [x * t] for a Python float or 0-d tensor [x]: shape and dtype of [t]. *)
Definition tensor_scale (x : scalar) (t : tensor) : tensor :=
  mkTensor (t_lib t) (t_dtype t) (t_shape t) (map (smul A x) (t_data t)).

(** Elementwise binary operation with broadcasting and type promotion. *)
Definition tensor_binop (f : scalar -> scalar -> scalar) (a b : tensor)
  : outcome tensor :=
  let r := Nat.max (length (t_shape a)) (length (t_shape b)) in
  let sa := pad_shape r (t_shape a) in
  let sb := pad_shape r (t_shape b) in
  let d := promote (t_dtype a) (t_dtype b) in
  let conv t := if dtype_eqb (t_dtype t) d then t_data t
                else map (cast A d) (t_data t) in
  match broadcast_shape sa sb with
  | None => Raise RuntimeError
  | Some s =>
      match expand sa s (conv a), expand sb s (conv b) with
      | Some da, Some db => Ok (mkTensor Pt d s (map2 f da db))
      | _, _ => Raise RuntimeError
      end
  end.

Definition tensor_add := tensor_binop (sadd A).
Definition tensor_sub := tensor_binop (ssub A).

(** [torch.cat] along dimension 0 of two tensors. *)
Definition cat2 (a b : tensor) : outcome tensor :=
  match t_shape a, t_shape b with
  | na :: ra, nb :: rb =>
      if shape_eqb ra rb then
        let d := promote (t_dtype a) (t_dtype b) in
        let conv t := if dtype_eqb (t_dtype t) d then t_data t
                      else map (cast A d) (t_data t) in
        Ok (mkTensor Pt d (na + nb :: ra) (conv a ++ conv b))
      else Raise RuntimeError
  | _, _ => Raise RuntimeError
  end.

(** [torch.cat(ts)]: a non-empty list of tensors of rank at least 1 that
    agree on every dimension but the first. *)
Definition torch_cat (ts : list tensor) : outcome tensor :=
  match ts with
  | [] => Raise RuntimeError
  | t0 :: rest =>
      fold_left
        (fun acc t => match acc with Ok a => cat2 a t | Raise e => Raise e end)
        rest
        (match t_shape t0 with [] => Raise RuntimeError | _ => Ok t0 end)
  end.

(** [t.repeat(1, k, 1)]: a tensor of rank at most 3 is read as rank 3 (ones
    in front) and its middle axis is tiled [k] times. *)
Definition torch_repeat_1k1 (t : tensor) (k : Z) : outcome tensor :=
  if k <? 0 then Raise RuntimeError
  else match pad_shape 3 (t_shape t) with
       | [a; b; c] =>
           Ok (mkTensor (t_lib t) (t_dtype t) [a; b * k; c]
                 (concat (map (fun blk => concat (repeat blk (Z.to_nat k)))
                            (blocks (Z.to_nat a) (Z.to_nat (b * c)) (t_data t)))))
       | _ => Raise RuntimeError
       end.

(** [t.view(s0, s1, -1)]: the last dimension is inferred. *)
Definition torch_view3 (t : tensor) (s0 s1 : Z) : outcome tensor :=
  let n := numel (t_shape t) in
  let p := s0 * s1 in
  if (s0 <? 0) || (s1 <? 0) then Raise RuntimeError
  else if p =? 0 then Raise RuntimeError
  else if n mod p =? 0 then
    Ok (mkTensor (t_lib t) (t_dtype t) [s0; s1; n / p] (t_data t))
  else Raise RuntimeError.

(** [u, v = t.chunk(2)]: dimension 0 is cut after [ceil(n / 2)] rows; a
    tensor with a single row gives one chunk only and the unpacking fails. *)
Definition chunk2 (t : tensor) : outcome (tensor * tensor) :=
  match t_shape t with
  | [] => Raise RuntimeError
  | n :: rest =>
      if n =? 1 then Raise ValueError
      else
        let c := (n + 1) / 2 in
        let k := Z.to_nat (c * numel rest) in
        Ok (mkTensor (t_lib t) (t_dtype t) (c :: rest) (firstn k (t_data t)),
            mkTensor (t_lib t) (t_dtype t) (n - c :: rest) (skipn k (t_data t)))
  end.

(** [a, b, c = t.shape]. *)
Definition unpack3 (s : list Z) : outcome (Z * Z * Z) :=
  match s with
  | [a; b; c] => Ok (a, b, c)
  | _ => Raise ValueError
  end.

(** [t.shape[i]] for [i >= 0] and [t.shape[-1]]. *)
Definition shape_at (s : list Z) (i : nat) : outcome Z :=
  match nth_error s i with
  | Some d => Ok d
  | None => Raise IndexError
  end.

Definition shape_last (s : list Z) : outcome Z :=
  match rev s with
  | d :: _ => Ok d
  | [] => Raise IndexError
  end.

(** [outputs[0]]. *)
Definition item0 {X} (l : list X) : outcome X :=
  match l with
  | x :: _ => Ok x
  | [] => Raise IndexError
  end.

(** ** [to_np] and [to_pt] *)

(** The argument type is exactly what the assertions accept: a torch tensor
    or a NumPy array. *)
Definition to_np (tensor0 : tensor) (new_dtype : dtype) : tensor :=
  let tensor1 :=
    match t_lib tensor0 with
    | Pt => as_np tensor0          (* tensor.detach().cpu().numpy() *)
    | Np => tensor0
    end in
  if negb (dtype_eqb (t_dtype tensor1) new_dtype)
  then astype tensor1 new_dtype else tensor1.

Definition to_pt (tensor0 : tensor) (new_dtype : dtype) : tensor :=
  let tensor1 :=
    match t_lib tensor0 with
    | Np => as_pt tensor0          (* torch.from_numpy(tensor) *)
    | Pt => tensor0
    end in
  if negb (dtype_eqb (t_dtype tensor1) new_dtype)
  then astype tensor1 new_dtype else tensor1.

(** ** The scheduler object *)

Inductive sched_kind := LMSD | DPM.

(** Modelled from the spec: [utilities.LMSDiscreteScheduler] and
    [utilities.DPMScheduler] are not among the sources.  The scheduler is
    an opaque dependency whose [timesteps] attribute is fixed by
    [set_timesteps]: a one-dimensional torch tensor, read here as the list of
    the 0-d tensors that iterating it yields.  No other scheduler call
    reassigns it. *)
Record scheduler := {
  sched_kind_of : sched_kind;
  timesteps : list tensor
}.

(** Modelled from the spec: [scheduler.set_timesteps(steps)] is not among
    the sources; it leaves [steps] entries in [timesteps] ("a fixed number of
    denoising steps").  Their element type [d] and values [v] are the
    scheduler's own. *)
Definition set_timesteps (d : dtype) (v : nat -> scalar) (steps : Z)
  : list tensor :=
  map (fun i => mkTensor Pt d [] [v i]) (seq 0 (Z.to_nat steps)).

(** ** Arguments *)

(** What [parser.parse_args()] returns.  [--negative-prompt] has no
    [type]: it is a [str] when given and the list [['']] when not.  The
    tokenizer (the default of [--tokenizer]) is part of the library. *)
Record CliArgs := {
  cli_prompt : string;
  cli_batch_size : Z;
  cli_height : Z;
  cli_width : Z;
  cli_num_warmup_runs : Z;
  cli_denoising_steps : Z;
  cli_seed : Z;
  cli_onnx_dir : string;
  cli_device : string;
  cli_scheduler : string;
  cli_io_binding : bool;
  cli_denoising_prec : string;
  cli_num_images : Z;
  cli_negative_prompt : option string;
  cli_guidance_scale : scalar;
  cli_output_dir : string
}.

(** The [args] namespace once [get_args] has returned, with the attributes
    [main] adds later ([None] while an attribute is not set). *)
Record Args := {
  prompt : prompt_val;
  batch_size : Z;
  height : Z;
  width : Z;
  num_warmup_runs : Z;
  denoising_steps : Z;
  seed : Z;
  onnx_dir : string;
  device : string;
  sched : scheduler;
  io_binding : bool;
  denoising_prec : string;
  num_images : Z;
  negative_prompt : prompt_val;
  guidance_scale : scalar;
  output_dir : string;
  clip_sess : option session;
  unet_sess : option session;
  vae_sess : option session;
  warmup : option bool
}.

Definition set_clip_sess (a : Args) (s : session) : Args :=
  Build_Args (prompt a) (batch_size a) (height a) (width a)
    (num_warmup_runs a) (denoising_steps a) (seed a) (onnx_dir a) (device a)
    (sched a) (io_binding a) (denoising_prec a) (num_images a)
    (negative_prompt a) (guidance_scale a) (output_dir a)
    (Some s) (unet_sess a) (vae_sess a) (warmup a).

Definition set_unet_sess (a : Args) (s : session) : Args :=
  Build_Args (prompt a) (batch_size a) (height a) (width a)
    (num_warmup_runs a) (denoising_steps a) (seed a) (onnx_dir a) (device a)
    (sched a) (io_binding a) (denoising_prec a) (num_images a)
    (negative_prompt a) (guidance_scale a) (output_dir a)
    (clip_sess a) (Some s) (vae_sess a) (warmup a).

Definition set_vae_sess (a : Args) (s : session) : Args :=
  Build_Args (prompt a) (batch_size a) (height a) (width a)
    (num_warmup_runs a) (denoising_steps a) (seed a) (onnx_dir a) (device a)
    (sched a) (io_binding a) (denoising_prec a) (num_images a)
    (negative_prompt a) (guidance_scale a) (output_dir a)
    (clip_sess a) (unet_sess a) (Some s) (warmup a).

Definition set_warmup (a : Args) (b : bool) : Args :=
  Build_Args (prompt a) (batch_size a) (height a) (width a)
    (num_warmup_runs a) (denoising_steps a) (seed a) (onnx_dir a) (device a)
    (sched a) (io_binding a) (denoising_prec a) (num_images a)
    (negative_prompt a) (guidance_scale a) (output_dir a)
    (clip_sess a) (unet_sess a) (vae_sess a) (Some b).

Definition set_batch_size (a : Args) (bs : Z) : Args :=
  Build_Args (prompt a) bs (height a) (width a)
    (num_warmup_runs a) (denoising_steps a) (seed a) (onnx_dir a) (device a)
    (sched a) (io_binding a) (denoising_prec a) (num_images a)
    (negative_prompt a) (guidance_scale a) (output_dir a)
    (clip_sess a) (unet_sess a) (vae_sess a) (warmup a).

Definition set_prompt (a : Args) (p : prompt_val) : Args :=
  Build_Args p (batch_size a) (height a) (width a)
    (num_warmup_runs a) (denoising_steps a) (seed a) (onnx_dir a) (device a)
    (sched a) (io_binding a) (denoising_prec a) (num_images a)
    (negative_prompt a) (guidance_scale a) (output_dir a)
    (clip_sess a) (unet_sess a) (vae_sess a) (warmup a).

Definition set_negative_prompt (a : Args) (p : prompt_val) : Args :=
  Build_Args (prompt a) (batch_size a) (height a) (width a)
    (num_warmup_runs a) (denoising_steps a) (seed a) (onnx_dir a) (device a)
    (sched a) (io_binding a) (denoising_prec a) (num_images a)
    p (guidance_scale a) (output_dir a)
    (clip_sess a) (unet_sess a) (vae_sess a) (warmup a).

(** ** Library calls and the trace *)

(** An argument of [str.format]: a string, or a difference of two clock
    readings scaled to milliseconds or left in seconds. *)
Inductive fmt_arg :=
  | FStr (s : string)
  | FMillis (t_end t_start : time)
  | FSecs (t_end t_start : time).

(** What [print] is given. *)
Inductive printed :=
  | PLit (s : string)
  | PFmt (template : string) (fargs : list fmt_arg)
  | PArgs (a : Args).

(** ['sd-' + prec + ''.join(set(parts)) + '-']: the elements of the set are
    kept as a duplicate-free list, the order in which [join] visits a set
    being Python's. *)
Record image_prefix := {
  ip_head : string;
  ip_set : list string;
  ip_tail : string
}.

(** Library calls that return nothing the script uses. *)
Inductive call :=
  | CNewScheduler (k : sched_kind) (dev : string)
  | CConfigure
  | CGenerator (dev : string) (seed_ : Z)
  | CInferenceMode
  | CAutocast (dev : string)
  | CSync
  | CSaveImage (images : tensor) (dir : string) (prefix : image_prefix).

(** One entry per library call, with its arguments and what came back
    ([None] or [false]: the call raised).  A call of [run_pipeline] from
    [main] is one entry that holds the trace of that run. *)
#[warnings="-register-all"]
Inductive event :=
  | EvPrint (p : printed)
  | EvSetEnv (k v : string)
  | EvCall (c : call) (ok : bool)
  | EvClock (t : time)
  | EvSetTimesteps (steps : Z) (ok : bool)
  | EvLoadSession (s : session) (ok : bool)
  | EvSessRun (s : session) (feeds : list (string * tensor))
      (r : option (list tensor))
  | EvRandn (shape : list Z) (d : dtype) (dev : string) (r : option tensor)
  | EvTokenize (p : prompt_val) (max_length : Z) (truncation : bool)
      (r : option tensor)
  | EvScale (x : tensor) (step_index : nat) (r : option tensor)
  | EvStep (noise_pred latents : tensor) (step_index : nat) (timestep : tensor)
      (r : option tensor)
  | EvProgress (total : nat)
  | EvMeasureBegin (is_gpu : bool)
  | EvMeasureEnd
  | EvRunPipeline (a : Args) (inner : list event) (returned : bool).

(** The libraries.  Every call sees and may change the [World]. *)
Record Library := {
  (** [tokenizer.model_max_length] *)
  model_max_length : Z;
  (** [tokenizer(p, padding="max_length", max_length, truncation,
      return_tensors="np").input_ids] *)
  tokenize : prompt_val -> Z -> bool -> World -> option tensor * World;
  (** [ort.InferenceSession(path, providers)] *)
  load_session : session -> World -> bool * World;
  (** [sess.run(None, feeds)] *)
  session_run : session -> list (string * tensor) -> World
                -> option (list tensor) * World;
  (** [torch.randn(shape, device, dtype, generator)]: the samples *)
  randn : list Z -> dtype -> string -> World -> option (list scalar) * World;
  (** [scheduler.set_timesteps(steps)]: element type and values *)
  timestep_values : Z -> World -> option (dtype * (nat -> scalar)) * World;
  (** [scheduler.init_noise_sigma] *)
  init_noise_sigma : World -> scalar;
  (** [scheduler.scale_model_input(x, step_index)] *)
  scale_model_input : tensor -> nat -> World -> option tensor * World;
  (** [scheduler.step(noise_pred, latents, step_index, timestep)] *)
  scheduler_step : tensor -> tensor -> nat -> tensor -> World
                   -> option tensor * World;
  (** [time.time()] *)
  clock : World -> time * World;
  (** the calls of [call] *)
  do_call : call -> World -> bool * World
}.

Variable L : Library.

(** ** The monad: library state, exceptions, trace *)

Definition M (X : Type) : Type := World -> outcome X * World * list event.

Definition ret {X} (x : X) : M X := fun w => (Ok x, w, []).

Definition bind {X Y} (m : M X) (k : X -> M Y) : M Y :=
  fun w =>
    match m w with
    | (Ok x, w1, t1) =>
        match k x w1 with
        | (r, w2, t2) => (r, w2, t1 ++ t2)
        end
    | (Raise e, w1, t1) => (Raise e, w1, t1)
    end.

Notation "x <- m ;; k" := (bind m (fun x => k))
  (at level 61, m at next level, right associativity).
Notation "' p <- m ;; k" := (bind m (fun x => let p := x in k))
  (at level 61, p pattern, m at next level, right associativity).
Notation "m ;; k" := (bind m (fun _ => k))
  (at level 61, right associativity).

(** A pure step that may raise. *)
Definition lift {X} (r : outcome X) : M X := fun w => (r, w, []).

Definition emit (e : event) : M unit := fun w => (Ok tt, w, [e]).

Definition print (p : printed) : M unit := emit (EvPrint p).

(** Reading an attribute that [main] sets with [setattr]. *)
Definition attr {X} (o : option X) : M X :=
  lift (match o with Some x => Ok x | None => Raise AttributeError end).

Definition of_option {X} (o : option X) : outcome X :=
  match o with Some x => Ok x | None => Raise LibraryError end.

Definition lib_call (c : call) : M unit :=
  fun w =>
    let (ok, w') := do_call L c w in
    ((if ok then Ok tt else Raise LibraryError), w', [EvCall c ok]).

Definition sync : M unit := lib_call CSync.

Definition time_time : M time :=
  fun w => let (t, w') := clock L w in (Ok t, w', [EvClock t]).

Definition tokenizer (p : prompt_val) (max_length : Z) (truncation : bool)
  : M tensor :=
  fun w =>
    let (r, w') := tokenize L p max_length truncation w in
    let r := option_map as_np r in
    (of_option r, w', [EvTokenize p max_length truncation r]).

Definition InferenceSession (path : string) (providers : list string)
  : M session :=
  fun w =>
    let s := Session path providers in
    let (ok, w') := load_session L s w in
    ((if ok then Ok s else Raise LibraryError), w', [EvLoadSession s ok]).

Definition sess_run (s : session) (feeds : list (string * tensor))
  : M (list tensor) :=
  fun w =>
    let (r, w') := session_run L s feeds w in
    let r := option_map (map as_np) r in
    (of_option r, w', [EvSessRun s feeds r]).

(** A negative dimension is refused by torch. *)
Definition torch_randn (shape : list Z) (d : dtype) (dev : string) : M tensor :=
  fun w =>
    if forallb (fun n => 0 <=? n) shape then
      let (r, w') := randn L shape d dev w in
      let r := option_map (mkTensor Pt d shape) r in
      (of_option r, w', [EvRandn shape d dev r])
    else (Raise RuntimeError, w, [EvRandn shape d dev None]).

Definition sched_scale_model_input (x : tensor) (step_index : nat) : M tensor :=
  fun w =>
    let (r, w') := scale_model_input L x step_index w in
    let r := option_map as_pt r in
    (of_option r, w', [EvScale x step_index r]).

Definition sched_step (noise_pred latents : tensor) (step_index : nat)
  (timestep : tensor) : M tensor :=
  fun w =>
    let (r, w') := scheduler_step L noise_pred latents step_index timestep w in
    let r := option_map as_pt r in
    (of_option r, w', [EvStep noise_pred latents step_index timestep r]).

Definition sched_set_timesteps (steps : Z) : M (list tensor) :=
  fun w =>
    let (r, w') := timestep_values L steps w in
    match r with
    | Some (d, v) => (Ok (set_timesteps d v steps), w', [EvSetTimesteps steps true])
    | None => (Raise LibraryError, w', [EvSetTimesteps steps false])
    end.

Definition read_init_noise_sigma : M scalar :=
  fun w => (Ok (init_noise_sigma L w), w, []).

(** [for x in l: s = body(s, x)]. *)
Fixpoint for_each {S X} (body : S -> X -> M S) (l : list X) (s : S) : M S :=
  match l with
  | [] => ret s
  | x :: l' => s' <- body s x ;; for_each body l' s'
  end.

(** [tqdm(l)]: the progress bar is created, the items are those of [l]. *)
Definition tqdm {X} (l : list X) : M (list X) :=
  emit (EvProgress (length l)) ;; ret l.

(** [enumerate(l)]. *)
Definition enumerate {X} (l : list X) : list (nat * X) :=
  combine (seq 0 (length l)) l.

(** [range(n)]. *)
Definition range (n : Z) : list Z := map Z.of_nat (seq 0 (Z.to_nat n)).

(** ** [get_args] *)

(** [cli] is the namespace [parser.parse_args()] returned.  The keyword
    arguments of the scheduler constructors are the constants of
    [sched_opts]. *)
Definition get_args (cli : CliArgs) : M Args :=
  let kind := if String.eqb (cli_scheduler cli) "lmsd" then LMSD else DPM in
  lib_call (CNewScheduler kind (cli_device cli)) ;;
  ts <- sched_set_timesteps (cli_denoising_steps cli) ;;
  lib_call CConfigure ;;
  ret (Build_Args
         (PStr (cli_prompt cli)) (cli_batch_size cli) (cli_height cli)
         (cli_width cli) (cli_num_warmup_runs cli) (cli_denoising_steps cli)
         (cli_seed cli) (cli_onnx_dir cli) (cli_device cli)
         (Build_scheduler kind ts)
         (cli_io_binding cli) (cli_denoising_prec cli) (cli_num_images cli)
         (match cli_negative_prompt cli with
          | Some s => PStr s
          | None => PList [PStr ""]
          end)
         (cli_guidance_scale cli) (cli_output_dir cli)
         None None None None).

(** ** [run_pipeline] *)

(** Prompts, then negative prompts, through the tokenizer and the CLIP
    session; the result is the batch [uncond ++ text] of embeddings. *)
Definition encode_prompts (args : Args) : M tensor :=
  ids <- tokenizer (prompt args) (model_max_length L) false ;;
  let text_input_ids := astype ids Int32 in
  clip <- attr (clip_sess args) ;;
  outs <- sess_run clip [("input_ids", text_input_ids)] ;;
  text_embeddings <- lift (item0 outs) ;;
  let text_embeddings := to_pt text_embeddings Float32 in
  dims <- lift (unpack3 (t_shape text_embeddings)) ;;
  let '(bs_embed, seq_len, _) := dims in
  text_embeddings <- lift (torch_repeat_1k1 text_embeddings (num_images args)) ;;
  text_embeddings <-
    lift (torch_view3 text_embeddings (bs_embed * num_images args) seq_len) ;;
  max_length <- lift (shape_last (t_shape text_input_ids)) ;;
  ids <- tokenizer (negative_prompt args) max_length true ;;
  let uncond_input_ids := astype ids Int32 in
  clip <- attr (clip_sess args) ;;
  outs <- sess_run clip [("input_ids", uncond_input_ids)] ;;
  uncond_embeddings <- lift (item0 outs) ;;
  let uncond_embeddings := to_pt uncond_embeddings Float32 in
  seq_len <- lift (shape_at (t_shape uncond_embeddings) 1) ;;
  uncond_embeddings <-
    lift (torch_repeat_1k1 uncond_embeddings (num_images args)) ;;
  uncond_embeddings <-
    lift (torch_view3 uncond_embeddings
            (batch_size args * num_images args) seq_len) ;;
  text_embeddings <- lift (torch_cat [uncond_embeddings; text_embeddings]) ;;
  ret (if String.eqb (denoising_prec args) "fp16"
       then astype text_embeddings Float16
       else text_embeddings).

(** The feeds of the UNet session in one iteration. *)
Definition unet_feeds (args : Args) (text_embeddings latent_model_input
  timestep : tensor) : list (string * tensor) :=
  let dtype_ := if String.eqb (denoising_prec args) "fp16"
                then Float16 else Float32 in
  let timestep_float :=
    if negb (dtype_eqb (t_dtype timestep) Float32)
    then astype timestep Float32 else timestep in
  [("sample", to_np latent_model_input Float32);
   ("timestep", np_array1 (to_np timestep_float Float32) Float32);
   ("encoder_hidden_states", to_np text_embeddings dtype_)].

(** [noise_pred_uncond + guidance_scale * (noise_pred_text - noise_pred_uncond)]. *)
Definition guidance (guidance_scale_ : scalar)
  (noise_pred_uncond noise_pred_text : tensor) : outcome tensor :=
  match tensor_sub noise_pred_text noise_pred_uncond with
  | Ok d => tensor_add noise_pred_uncond (tensor_scale guidance_scale_ d)
  | Raise e => Raise e
  end.

(** The body of the denoising loop: from the latents before the iteration
    to the latents after it.  [.to(args.device)] moves data and changes
    nothing here. *)
Definition denoise_step (args : Args) (text_embeddings : tensor)
  (latents : tensor) (it : nat * tensor) : M tensor :=
  let '(step_index, timestep) := it in
  latent_model_input <- lift (torch_cat [latents; latents]) ;;
  latent_model_input <- sched_scale_model_input latent_model_input step_index ;;
  let unet_args := unet_feeds args text_embeddings latent_model_input timestep in
  unet <- attr (unet_sess args) ;;
  outs <- sess_run unet unet_args ;;
  noise_pred <- lift (item0 outs) ;;
  let noise_pred := to_pt noise_pred Float16 in
  halves <- lift (chunk2 noise_pred) ;;
  let '(noise_pred_uncond, noise_pred_text) := halves in
  noise_pred <-
    lift (guidance (guidance_scale args) noise_pred_uncond noise_pred_text) ;;
  sched_step noise_pred latents step_index timestep.

Fixpoint map_outcome {X Y} (f : X -> outcome Y) (l : list X)
  : outcome (list Y) :=
  match l with
  | [] => Ok []
  | x :: l' =>
      match f x with
      | Raise e => Raise e
      | Ok y => match map_outcome f l' with
                | Raise e => Raise e
                | Ok ys => Ok (y :: ys)
                end
      end
  end.

Definition image_name_prefix (args : Args) : outcome image_prefix :=
  match map_outcome
          (fun i =>
             match prompt_index (prompt args) (Z.to_nat i) with
             | Ok (PStr s) =>
                 Ok ("-" ++ substring 0 10 (str_replace_char " " "_" s))%string
             | Ok (PList _) => Raise AttributeError
             | Raise e => Raise e
             end)
          (range (batch_size args)) with
  | Ok parts =>
      Ok (Build_image_prefix ("sd-" ++ denoising_prec args)%string
            (nodup string_dec parts) "-")
  | Raise e => Raise e
  end.

(** The latency table and the saved image of a run that is not a warm-up. *)
Definition report (args : Args) (images : tensor)
  (start_time clip_start_time clip_end_time unet_start_time unet_end_time
   vae_start_time vae_end_time end_time : time) : M unit :=
  print (PLit "|------------|--------------|") ;;
  print (PFmt "| {:^10} | {:^12} |" [FStr "Module"; FStr "Latency"]) ;;
  print (PLit "|------------|--------------|") ;;
  print (PFmt "| {:^10} | {:>9.2f} ms |"
           [FStr "CLIP"; FMillis clip_end_time clip_start_time]) ;;
  print (PFmt "| {:^10} | {:>9.2f} ms |"
           [FStr ("UNet x " ++ str_of_int (denoising_steps args))%string;
            FMillis unet_end_time unet_start_time]) ;;
  print (PFmt "| {:^10} | {:>9.2f} ms |"
           [FStr "VAE"; FMillis vae_end_time vae_start_time]) ;;
  print (PLit "|------------|--------------|") ;;
  print (PFmt "| {:^10} | {:>10.2f} s |"
           [FStr "Pipeline"; FSecs end_time start_time]) ;;
  print (PLit "|------------|--------------|") ;;
  prefix <- lift (image_name_prefix args) ;;
  lib_call (CSaveImage images (output_dir args) prefix).

Definition run_pipeline (args : Args) : M unit :=
  let latent_height := height args / 8 in
  let latent_width := width args / 8 in
  lib_call (CGenerator (device args) (seed args)) ;;
  lib_call CInferenceMode ;;
  lib_call (CAutocast (device args)) ;;
  let unet_channels := 4 in
  let latents_shape :=
    [batch_size args * num_images args; unet_channels;
     latent_height; latent_width] in
  let latents_dtype := Float32 in
  latents <- torch_randn latents_shape latents_dtype (device args) ;;
  sigma <- read_init_noise_sigma ;;
  let latents := tensor_scale sigma latents in
  sync ;;
  start_time <- time_time ;;
  sync ;;
  clip_start_time <- time_time ;;
  text_embeddings <- encode_prompts args ;;
  sync ;;
  clip_end_time <- time_time ;;
  sync ;;
  unet_start_time <- time_time ;;
  items <- tqdm (timesteps (sched args)) ;;
  latents <- for_each (denoise_step args text_embeddings)
               (enumerate items) latents ;;
  let latents := tensor_scale (inv_vae_scale A) latents in
  sync ;;
  unet_end_time <- time_time ;;
  sync ;;
  vae_start_time <- time_time ;;
  let vae_input_args := [("latent", to_np latents Float32)] in
  vae <- attr (vae_sess args) ;;
  outs <- sess_run vae vae_input_args ;;
  images <- lift (item0 outs) ;;
  let images := to_pt images Float16 in
  sync ;;
  vae_end_time <- time_time ;;
  sync ;;
  end_time <- time_time ;;
  is_warmup <- attr (warmup args) ;;
  if negb is_warmup then
    report args images start_time clip_start_time clip_end_time
      unet_start_time unet_end_time vae_start_time vae_end_time end_time
  else ret tt.

(** ** [main] *)

Definition providers : list string :=
  ["TensorrtExecutionProvider"; "CUDAExecutionProvider"].

(** A call of [run_pipeline] from [main]: one trace entry holding the run. *)
Definition call_run_pipeline (args : Args) : M unit :=
  fun w =>
    match run_pipeline args w with
    | (r, w', t) => (r, w', [EvRunPipeline args t (is_ok r)])
    end.

(** [onnxruntime.transformers.benchmark_helper.measure_memory(is_gpu, func)]:
    memory is sampled while [func] is called once. *)
Definition measure_memory (is_gpu : bool) (func : M unit) : M unit :=
  emit (EvMeasureBegin is_gpu) ;;
  func ;;
  emit EvMeasureEnd.

(** The three sessions are created and run once on zeros. *)
Definition load_models (args : Args) : M Args :=
  let batch_size_ := 1 in
  print (PLit "Loading CLIP model.") ;;
  clip <- InferenceSession "./onnx/clip_ort_trt.onnx" providers ;;
  input_ids <- lift (np_zeros [batch_size_; 77] Int32) ;;
  sess_run clip [("input_ids", input_ids)] ;;
  let args := set_clip_sess args clip in
  print (PLit "Loading UNet model.") ;;
  unet <- InferenceSession "./onnx/unet_fp16_ort_trt.onnx" providers ;;
  sample <-
    lift (np_zeros [2 * batch_size_; 4; height args / 8; width args / 8]
            Float32) ;;
  timestep <- lift (np_zeros [1] Float32) ;;
  encoder_hidden_states <-
    lift (np_zeros [2 * batch_size_; 77; 768]
            (if String.eqb (denoising_prec args) "fp16"
             then Float16 else Float32)) ;;
  let unet_args :=
    [("sample", sample); ("timestep", timestep);
     ("encoder_hidden_states", encoder_hidden_states)] in
  sess_run unet unet_args ;;
  let args := set_unet_sess args unet in
  print (PLit "Loading VAE model.") ;;
  vae <- InferenceSession "./onnx/vae_ort_trt.onnx" providers ;;
  latent <-
    lift (np_zeros [batch_size_; 4; height args / 8; width args / 8]
            Float32) ;;
  sess_run vae [("latent", latent)] ;;
  ret (set_vae_sess args vae).

Definition warm_up (args : Args) : M unit :=
  print (PLit "Warming up pipeline.") ;;
  runs <- tqdm (range (num_warmup_runs args)) ;;
  for_each (fun _ _ => call_run_pipeline args) runs tt.

(** One round of the measurement loop. *)
Definition measure_batch (init_prompt : prompt_val)
  (init_negative_prompt : prompt_val) (args : Args) (bs : Z) : M Args :=
  let args := set_batch_size args bs in
  print (PLit (newline ++ "Batch size = " ++ str_of_int bs ++ newline)%string) ;;
  let args :=
    set_prompt args
      (PList (map (fun _ => init_prompt) (range (batch_size args)))) in
  let args :=
    set_negative_prompt args (prompt_mul init_negative_prompt (batch_size args)) in
  print (PLit "Measuring latency.") ;;
  call_run_pipeline args ;;
  print (PLit "Measuring memory usage. Ignore any latency metrics or any images saved.") ;;
  measure_memory (String.eqb (device args) "cuda") (call_run_pipeline args) ;;
  print (PLit "Measured memory usage.") ;;
  ret args.

Definition batch_sizes : list Z := [1; 2; 4; 8; 16].

Definition main (cli : CliArgs) : M unit :=
  args <- get_args cli ;;
  print (PArgs args) ;;
  emit (EvSetEnv "ORT_TENSORRT_FP16_ENABLE" "1") ;;
  args <- load_models args ;;
  let args := set_warmup args true in
  warm_up args ;;
  let args := set_warmup args false in
  let init_prompt := prompt args in
  let init_negative_prompt := negative_prompt args in
  for_each (measure_batch init_prompt init_negative_prompt) batch_sizes args ;;
  ret tt.

End Script.

Arguments Build_Library {scalar time World}.
Arguments Build_Arith {scalar}.
Arguments Build_CliArgs {scalar}.
Arguments ret {scalar time World X}.
Arguments lift {scalar time World X}.
Arguments attr {scalar time World X}.
Arguments tqdm {scalar time World X}.
Arguments emit {scalar time World}.
Arguments print {scalar time World}.
Arguments FStr {time}.
Arguments FMillis {time}.
Arguments FSecs {time}.
Arguments PLit {scalar time}.
Arguments PFmt {scalar time}.
Arguments PArgs {scalar time}.
Arguments CNewScheduler {scalar}.
Arguments CConfigure {scalar}.
Arguments CGenerator {scalar}.
Arguments CInferenceMode {scalar}.
Arguments CAutocast {scalar}.
Arguments CSync {scalar}.
Arguments CSaveImage {scalar}.
Arguments EvPrint {scalar time}.
Arguments EvSetEnv {scalar time}.
Arguments EvCall {scalar time}.
Arguments EvClock {scalar time}.
Arguments EvSetTimesteps {scalar time}.
Arguments EvLoadSession {scalar time}.
Arguments EvSessRun {scalar time}.
Arguments EvRandn {scalar time}.
Arguments EvTokenize {scalar time}.
Arguments EvScale {scalar time}.
Arguments EvStep {scalar time}.
Arguments EvProgress {scalar time}.
Arguments EvMeasureBegin {scalar time}.
Arguments EvMeasureEnd {scalar time}.
Arguments EvRunPipeline {scalar time}.

(** * What is observed of a run *)

Set Maximal Implicit Insertion.

Section Observations.

Variables (scalar time World : Type).
Variable A : Arith scalar.
Variable L : Library scalar time World.

Local Abbreviation tensor := (tensor scalar).
Local Abbreviation event := (event scalar time).
Local Abbreviation Args := (Args scalar).
Local Abbreviation M := (M scalar time World).

(** ** Runs *)

Definition outcome_of {X} (r : outcome X * World * list event) : outcome X :=
  fst (fst r).

Definition trace_of {X} (r : outcome X * World * list event) : list event :=
  snd r.

(** [spec m Q]: from every library state, the outcome and the trace of [m]
    satisfy [Q]. *)
Definition spec {X} (m : M X) (Q : outcome X -> list event -> Prop) : Prop :=
  forall w, Q (outcome_of (m w)) (trace_of (m w)).

(** A property of traces that holds of the empty trace and of the
    concatenation of two traces that have it. *)
Record Closed (P : list event -> Prop) : Prop := {
  closed_nil : P [];
  closed_app : forall a b, P a -> P b -> P (a ++ b)
}.

(** [emits P m]: whatever the libraries do, the trace of [m] has [P]. *)
Definition emits (P : list event -> Prop) {X} (m : M X) : Prop :=
  spec m (fun _ t => P t).

Definition prefix_of {T} (a b : list T) : Prop := exists c, b = a ++ c.

(** [seq_spec view m R S]: [view] picks what is looked at in each entry of
    the trace; the view of the trace of [m] is [S] when [m] returns,
    with a result in [R], and a prefix of [S] when it raises. *)
Definition seq_spec {V} (view : event -> list V) {X} (m : M X)
  (R : X -> Prop) (S : list V) : Prop :=
  spec m (fun r t =>
            prefix_of (flat_map view t) S
            /\ match r with
               | Ok x => flat_map view t = S /\ R x
               | Raise _ => True
               end).

(** ** Output and guidance *)

(** [print] and [save_image]: the latency table and the image that
    [run_pipeline] puts out under [if not args.warmup]. *)
Definition is_output (e : event) : bool :=
  match e with
  | EvPrint _ => true
  | EvCall (CSaveImage _ _ _) _ => true
  | _ => false
  end.

Definition quiet (e : event) : Prop := is_output e = false.

(** All that a run shows or writes besides running the models: the lines of
    [print], the image of [save_image], and the progress bar that [tqdm]
    draws around the denoising loop. *)
Definition is_observable (e : event) : bool :=
  match e with
  | EvProgress _ => true
  | _ => is_output e
  end.

(** The progress bars of a trace, by their totals. *)
Definition progress_of (e : event) : list nat :=
  match e with
  | EvProgress total => [total]
  | _ => []
  end.

(** An entry of [scheduler.step] is [blended] when the entry before it is
    the run of the UNet session of [args] and the noise prediction handed to
    [step] is the guidance formula on the two chunks of that run's output
    (converted to a float16 torch tensor by [to_pt]). *)
Definition blended (args : Args) (prev : option event) (e : event) : Prop :=
  match e with
  | EvStep noise_pred _ _ _ _ =>
      match prev with
      | Some (EvSessRun s _ (Some (out :: _))) =>
          unet_sess args = Some s
          /\ exists noise_pred_uncond noise_pred_text d,
               chunk2 (to_pt A out Float16)
               = Ok (noise_pred_uncond, noise_pred_text)
               /\ tensor_sub A noise_pred_text noise_pred_uncond = Ok d
               /\ tensor_add A noise_pred_uncond
                    (tensor_scale A (guidance_scale args) d)
                  = Ok noise_pred
      | _ => False
      end
  | _ => True
  end.

Fixpoint guided (args : Args) (prev : option event) (tr : list event) : Prop :=
  match tr with
  | [] => True
  | e :: tr' => blended args prev e /\ guided args (Some e) tr'
  end.

(** ** Stages of a run *)

Inductive stage :=
  | StTokenize (p : prompt_val)
  | StRun (s : session)
  | StScale
  | StStep
  | StPrint
  | StSave.

Definition stage_of (e : event) : list stage :=
  match e with
  | EvTokenize p _ _ _ => [StTokenize p]
  | EvSessRun s _ _ => [StRun s]
  | EvScale _ _ _ => [StScale]
  | EvStep _ _ _ _ _ => [StStep]
  | EvPrint _ => [StPrint]
  | EvCall (CSaveImage _ _ _) _ => [StSave]
  | _ => []
  end.

Definition stages (t : list event) : list stage := flat_map stage_of t.

Definition encode_stages (args : Args) (clip : session) : list stage :=
  [StTokenize (prompt args); StRun clip;
   StTokenize (negative_prompt args); StRun clip].

Definition denoise_stages (unet : session) (rounds : nat) : list stage :=
  concat (repeat [StScale; StRun unet; StStep] rounds).

Definition report_stages (is_warmup : bool) : list stage :=
  if is_warmup then [] else repeat StPrint 9 ++ [StSave].

Definition pipeline_stages (args : Args) (clip unet vae : session)
  (is_warmup : bool) : list stage :=
  encode_stages args clip
  ++ denoise_stages unet (length (timesteps (sched args)))
  ++ [StRun vae]
  ++ report_stages is_warmup.

Definition is_run_of (s : session) (e : event) : bool :=
  match e with
  | EvSessRun s' _ _ => if session_eq_dec s s' then true else false
  | _ => false
  end.

Definition is_step (e : event) : bool :=
  match e with
  | EvStep _ _ _ _ _ => true
  | _ => false
  end.

(** How often the session [s] is run, and how often [scheduler.step] is
    called, in a trace. *)
Definition runs_of (s : session) (t : list event) : nat :=
  length (filter (is_run_of s) t).

Definition steps_of (t : list event) : nat := length (filter is_step t).

Definition stage_is_run (s : session) (st : stage) : bool :=
  match st with
  | StRun s' => if session_eq_dec s s' then true else false
  | _ => false
  end.

Definition stage_is_step (st : stage) : bool :=
  match st with
  | StStep => true
  | _ => false
  end.

(** ** The arguments and the view of [main] *)

Definition clip_session : session :=
  Session "./onnx/clip_ort_trt.onnx" providers.

Definition unet_session : session :=
  Session "./onnx/unet_fp16_ort_trt.onnx" providers.

Definition vae_session : session :=
  Session "./onnx/vae_ort_trt.onnx" providers.

(** The array [np.zeros(shape, dtype)] returns. *)
Definition zeros_tensor (shape : list Z) (d : dtype) : tensor :=
  mkTensor Np d shape (repeat (zero A) (Z.to_nat (numel shape))).

(** What [get_args] returns for the scheduler timesteps [ts]. *)
Definition base_args (cli : CliArgs scalar) (k : sched_kind)
  (ts : list tensor) : Args :=
  Build_Args
    (PStr (cli_prompt cli)) (cli_batch_size cli) (cli_height cli)
    (cli_width cli) (cli_num_warmup_runs cli) (cli_denoising_steps cli)
    (cli_seed cli) (cli_onnx_dir cli) (cli_device cli)
    (Build_scheduler k ts)
    (cli_io_binding cli) (cli_denoising_prec cli) (cli_num_images cli)
    (match cli_negative_prompt cli with
     | Some s => PStr s
     | None => PList [PStr ""]
     end)
    (cli_guidance_scale cli) (cli_output_dir cli)
    None None None None.

(** [args] with the three sessions attached. *)
Definition loaded (a0 : Args) : Args :=
  set_vae_sess (set_unet_sess (set_clip_sess a0 clip_session) unet_session)
    vae_session.

Definition warm_args (a0 : Args) : Args := set_warmup (loaded a0) true.

(** [args] in the round of the measurement loop for batch size [bs]. *)
Definition measured_args (a0 : Args) (bs : Z) : Args :=
  set_negative_prompt
    (set_prompt (set_batch_size (set_warmup (loaded a0) false) bs)
       (PList (map (fun _ => prompt a0) (range bs))))
    (prompt_mul (negative_prompt a0) bs).

(** What is looked at in the trace of [main]: sessions created, sessions
    run by [main] itself, runs of the pipeline, [measure_memory]. *)
Inductive mevent :=
  | MLoad (s : session)
  | MDummy (s : session) (feeds : list (string * tensor))
  | MRun (a : Args)
  | MBegin (is_gpu : bool)
  | MEnd.

Definition main_view (e : event) : list mevent :=
  match e with
  | EvLoadSession s _ => [MLoad s]
  | EvSessRun s feeds _ => [MDummy s feeds]
  | EvRunPipeline a _ _ => [MRun a]
  | EvMeasureBegin g => [MBegin g]
  | EvMeasureEnd => [MEnd]
  | _ => []
  end.

Definition load_view (a0 : Args) : list mevent :=
  [MLoad clip_session;
   MDummy clip_session [("input_ids", zeros_tensor [1; 77] Int32)];
   MLoad unet_session;
   MDummy unet_session
     [("sample", zeros_tensor [2; 4; height a0 / 8; width a0 / 8] Float32);
      ("timestep", zeros_tensor [1] Float32);
      ("encoder_hidden_states",
       zeros_tensor [2; 77; 768]
         (if String.eqb (denoising_prec a0) "fp16"
          then Float16 else Float32))];
   MLoad vae_session;
   MDummy vae_session
     [("latent", zeros_tensor [1; 4; height a0 / 8; width a0 / 8] Float32)]].

Definition warm_view (a0 : Args) : list mevent :=
  repeat (MRun (warm_args a0)) (Z.to_nat (num_warmup_runs a0)).

Definition measure_view (a0 : Args) (bs : Z) : list mevent :=
  [MRun (measured_args a0 bs);
   MBegin (String.eqb (device a0) "cuda");
   MRun (measured_args a0 bs);
   MEnd].

Definition main_expected (a0 : Args) : list mevent :=
  load_view a0 ++ warm_view a0 ++ flat_map (measure_view a0) batch_sizes.

(** The three attributes a round of the measurement loop assigns. *)
Definition measure_state (a0 s : Args) (bs : Z) : Args :=
  set_negative_prompt
    (set_prompt (set_batch_size s bs)
       (PList (map (fun _ => prompt a0) (range bs))))
    (prompt_mul (negative_prompt a0) bs).

Definition measuring (a0 s : Args) : Prop :=
  forall bs, measure_state a0 s bs = measured_args a0 bs.

(** A run of the pipeline recorded in the trace of [main] is a run of
    [run_pipeline] on the recorded arguments. *)
Definition run_recorded (e : event) : Prop :=
  match e with
  | EvRunPipeline a inner ok =>
      exists w, inner = trace_of (run_pipeline A L a w)
                /\ ok = is_ok (outcome_of (run_pipeline A L a w))
  | _ => True
  end.

Definition load_of (e : event) : list session :=
  match e with
  | EvLoadSession s _ => [s]
  | _ => []
  end.

(** The sessions created in a trace, in order. *)
Definition loads (t : list event) : list session := flat_map load_of t.

Definition mload_of (m : mevent) : list session :=
  match m with
  | MLoad s => [s]
  | _ => []
  end.

Definition is_mrun (m : mevent) : Prop :=
  match m with
  | MRun _ => True
  | _ => False
  end.

Inductive wstep :=
  | WDummy (s : session) (feeds : list (string * tensor))
  | WRun (is_warmup : option bool).

(** Sessions run by [main] itself and runs of the pipeline with the value
    of [args.warmup]. *)
Definition warmup_view (e : event) : list wstep :=
  match e with
  | EvSessRun s feeds _ => [WDummy s feeds]
  | EvRunPipeline a _ _ => [WRun (warmup a)]
  | _ => []
  end.

Definition mwarmup_view (m : mevent) : list wstep :=
  match m with
  | MDummy s feeds => [WDummy s feeds]
  | MRun a => [WRun (warmup a)]
  | _ => []
  end.

Definition warmup_expected (cli : CliArgs scalar) : list wstep :=
  [WDummy clip_session [("input_ids", zeros_tensor [1; 77] Int32)];
   WDummy unet_session
     [("sample",
       zeros_tensor [2; 4; cli_height cli / 8; cli_width cli / 8] Float32);
      ("timestep", zeros_tensor [1] Float32);
      ("encoder_hidden_states",
       zeros_tensor [2; 77; 768]
         (if String.eqb (cli_denoising_prec cli) "fp16"
          then Float16 else Float32))];
   WDummy vae_session
     [("latent",
       zeros_tensor [1; 4; cli_height cli / 8; cli_width cli / 8] Float32)]]
  ++ repeat (WRun (Some true)) (Z.to_nat (cli_num_warmup_runs cli))
  ++ repeat (WRun (Some false)) 10.

Inductive mstep :=
  | WarmRun
  | RunAt (bs : Z)
  | MemBegin
  | MemEnd.

(** Runs of the pipeline, with the batch size when [args.warmup] is
    [False], and the start and end of [measure_memory]. *)
Definition measurement_view (e : event) : list mstep :=
  match e with
  | EvRunPipeline a _ _ =>
      match warmup a with
      | Some false => [RunAt (batch_size a)]
      | _ => [WarmRun]
      end
  | EvMeasureBegin _ => [MemBegin]
  | EvMeasureEnd => [MemEnd]
  | _ => []
  end.

Definition mmeasurement_view (m : mevent) : list mstep :=
  match m with
  | MRun a =>
      match warmup a with
      | Some false => [RunAt (batch_size a)]
      | _ => [WarmRun]
      end
  | MBegin _ => [MemBegin]
  | MEnd => [MemEnd]
  | _ => []
  end.

Definition measurement_expected (cli : CliArgs scalar) : list mstep :=
  repeat WarmRun (Z.to_nat (cli_num_warmup_runs cli))
  ++ flat_map (fun bs => [RunAt bs; MemBegin; RunAt bs; MemEnd])
       [1; 2; 4; 8; 16].

(** ** Feeds of the UNet session *)

(** What the UNet session is to be fed in a run on [a]. *)
Definition unet_feed_ok (a : Args) (feeds : list (string * tensor)) : Prop :=
  exists sample timestep encoder_hidden_states,
    feeds = [("sample", sample); ("timestep", timestep);
             ("encoder_hidden_states", encoder_hidden_states)]
    /\ (t_lib sample = Np /\ t_dtype sample = Float32
        /\ t_shape sample
           = [2 * batch_size a * num_images a; 4; height a / 8; width a / 8])
    /\ (t_lib timestep = Np /\ t_dtype timestep = Float32
        /\ t_shape timestep = [1])
    /\ (t_lib encoder_hidden_states = Np
        /\ t_dtype encoder_hidden_states
           = (if String.eqb (denoising_prec a) "fp16"
              then Float16 else Float32)
        /\ exists rest,
             t_shape encoder_hidden_states
             = 2 * batch_size a * num_images a :: rest).

Definition feeds_ok (a : Args) (e : event) : Prop :=
  match e with
  | EvSessRun s feeds _ => s = unet_session -> unet_feed_ok a feeds
  | _ => True
  end.

(** ** Looking an entry up in a trace *)

(** The first run of the session [s]: its feeds and what came back. *)
Fixpoint find_feeds (s : session) (t : list event)
  : option (list (string * tensor) * option (list tensor)) :=
  match t with
  | [] => None
  | EvSessRun s' feeds r :: t' =>
      if session_eq_dec s s' then Some (feeds, r) else find_feeds s t'
  | _ :: t' => find_feeds s t'
  end.

(** The first recorded run of the pipeline that [p] accepts. *)
Fixpoint find_run (p : Args -> list event -> bool -> bool) (t : list event)
  : option (Args * list event * bool) :=
  match t with
  | [] => None
  | EvRunPipeline a inner ok :: t' =>
      if p a inner ok then Some (a, inner, ok) else find_run p t'
  | _ :: t' => find_run p t'
  end.

(** The trace cut at the first call of [scheduler.step]. *)
Fixpoint split_at_step (t : list event)
  : option (list event * event * list event) :=
  match t with
  | [] => None
  | EvStep n l i ts r :: t' => Some ([], EvStep n l i ts r, t')
  | e :: t' =>
      match split_at_step t' with
      | Some (pre, x, post) => Some (e :: pre, x, post)
      | None => None
      end
  end.

Definition has_unet_run (a : Args) (inner : list event) (ok : bool) : bool :=
  match find_feeds unet_session inner with
  | Some _ => true
  | None => false
  end.

Definition is_measured (a : Args) (inner : list event) (ok : bool) : bool :=
  match warmup a with
  | Some false => true
  | _ => false
  end.

Definition has_returned (a : Args) (inner : list event) (ok : bool) : bool :=
  ok.

Definition found {X} (o : option X) : bool :=
  match o with
  | Some _ => true
  | None => false
  end.

(** ** Saved images *)

(** The one part of an image name prefix that a prompt contributes. *)
Definition prompt_part (p : string) : string :=
  ("-" ++ substring 0 10 (str_replace_char " " "_" p))%string.

(** An entry of [save_image] goes to [args.output_dir] under the prefix that
    [image_name_prefix] computes. *)
Definition saves_as (a : Args) (e : event) : Prop :=
  match e with
  | EvCall (CSaveImage _ dir prefix) _ =>
      dir = output_dir a /\ image_name_prefix a = Ok prefix
  | _ => True
  end.

(** ** How a computation ends *)

(** [ends_in m R E]: whatever the libraries do, [m] returns a value in [R]
    or raises an exception in [E]. *)
Definition ends_in {X} (m : M X) (R : X -> Prop) (E : exn -> Prop) : Prop :=
  spec m (fun r _ => match r with Ok x => R x | Raise e => E e end).

(** [returns_only_if C m]: [m] does not return unless [C] holds. *)
Definition returns_only_if (C : Prop) {X} (m : M X) : Prop :=
  ends_in m (fun _ => C) (fun _ => True).

Definition library_error (e : exn) : Prop := e = LibraryError.

(** ** Random numbers, timing and the console *)

(** The random generator of a run and the draw of the latents. *)
Inductive draw :=
  | DGenerator (dev : string) (seed_ : Z)
  | DRandn (shape : list Z) (d : dtype) (dev : string).

Definition draw_of (e : event) : list draw :=
  match e with
  | EvCall (CGenerator dev s) _ => [DGenerator dev s]
  | EvRandn shape d dev _ => [DRandn shape d dev]
  | _ => []
  end.

(** [torch.cuda.synchronize()] and [time.time()]. *)
Inductive tick := TSync | TClock.

Definition tick_of (e : event) : list tick :=
  match e with
  | EvCall CSync _ => [TSync]
  | EvClock _ => [TClock]
  | _ => []
  end.

Definition clock_of (e : event) : list time :=
  match e with
  | EvClock t => [t]
  | _ => []
  end.

(** The clock readings of a trace, in order. *)
Definition clocks (t : list event) : list time := flat_map clock_of t.

Definition print_of (e : event) : list (printed scalar time) :=
  match e with
  | EvPrint p => [p]
  | _ => []
  end.

(** What a trace prints, in order. *)
Definition prints (t : list event) : list (printed scalar time) :=
  flat_map print_of t.

(** The latency table for eight clock readings, in the order in which a run
    takes them. *)
Definition latency_table (steps : Z) (ts : list time)
  : list (printed scalar time) :=
  match ts with
  | [start_time; clip_start_time; clip_end_time; unet_start_time;
     unet_end_time; vae_start_time; vae_end_time; end_time] =>
      [PLit "|------------|--------------|";
       PFmt "| {:^10} | {:^12} |" [FStr "Module"; FStr "Latency"];
       PLit "|------------|--------------|";
       PFmt "| {:^10} | {:>9.2f} ms |"
         [FStr "CLIP"; FMillis clip_end_time clip_start_time];
       PFmt "| {:^10} | {:>9.2f} ms |"
         [FStr ("UNet x " ++ str_of_int steps)%string;
          FMillis unet_end_time unet_start_time];
       PFmt "| {:^10} | {:>9.2f} ms |"
         [FStr "VAE"; FMillis vae_end_time vae_start_time];
       PLit "|------------|--------------|";
       PFmt "| {:^10} | {:>10.2f} s |"
         [FStr "Pipeline"; FSecs end_time start_time];
       PLit "|------------|--------------|"]
  | _ => []
  end.

(** Neither a clock reading nor a [print]. *)
Definition untimed (e : event) : Prop := clock_of e = [] /\ print_of e = [].

(** ** Calls of the tokenizer *)

Definition tokenize_of (e : event)
  : list (prompt_val * Z * bool * option tensor) :=
  match e with
  | EvTokenize p ml tr r => [(p, ml, tr, r)]
  | _ => []
  end.

(** Both prompts went through the tokenizer: the prompt padded to
    [model_max_length], then the negative prompt padded and truncated to
    the number of columns of the token ids of the prompt. *)
Definition tokenized_both (args : Args)
  (calls : list (prompt_val * Z * bool * option tensor)) : Prop :=
  exists ids r2 ml,
    calls = [(prompt args, model_max_length L, false, Some ids);
             (negative_prompt args, ml, true, r2)]
    /\ shape_last (t_shape ids) = Ok ml.

Definition tokenized (args : Args)
  (calls : list (prompt_val * Z * bool * option tensor)) : Prop :=
  calls = []
  \/ (exists r1, calls = [(prompt args, model_max_length L, false, r1)])
  \/ tokenized_both args calls.

(** ** Setting up in [main] *)

(** The scheduler class that [get_args] picks. *)
Definition scheduler_kind (cli : CliArgs scalar) : sched_kind :=
  if String.eqb (cli_scheduler cli) "lmsd" then LMSD else DPM.

(** The scheduler calls of [get_args], the [print] of the arguments, the
    environment variable, and the sessions created. *)
Inductive setup :=
  | SScheduler (k : sched_kind) (dev : string)
  | SSetTimesteps (steps : Z)
  | SConfigure
  | SPrintArgs (a : Args)
  | SSetEnv (k v : string)
  | SLoad (s : session).

Definition setup_of (e : event) : list setup :=
  match e with
  | EvCall (CNewScheduler k dev) _ => [SScheduler k dev]
  | EvCall CConfigure _ => [SConfigure]
  | EvSetTimesteps steps _ => [SSetTimesteps steps]
  | EvPrint (PArgs a) => [SPrintArgs a]
  | EvSetEnv k v => [SSetEnv k v]
  | EvLoadSession s _ => [SLoad s]
  | _ => []
  end.

Definition setup_expected (cli : CliArgs scalar) (a0 : Args) : list setup :=
  [SScheduler (scheduler_kind cli) (cli_device cli);
   SSetTimesteps (cli_denoising_steps cli);
   SConfigure;
   SPrintArgs a0;
   SSetEnv "ORT_TENSORRT_FP16_ENABLE" "1";
   SLoad clip_session; SLoad unet_session; SLoad vae_session].

Definition is_measure_begin (e : event) : bool :=
  match e with
  | EvMeasureBegin _ => true
  | _ => false
  end.

(** ** The latents through a run *)

(** [chained a te cur i scaled t]: the trace [t] continues a run on [a]
    whose text embeddings are [te], whose latents are [cur], that has
    completed [i] iterations of the denoising loop, and whose last call of
    [scale_model_input], if one is pending, returned [scaled].  Every
    [scale_model_input] is on [torch.cat([latents] * 2)] and the index of the
    iteration; every run of the UNet session is fed [unet_feeds] of the
    scaled input and the timestep of the iteration; every [scheduler.step]
    gets the latents, the index and the timestep of the iteration, and its
    result is the latents from then on; a run of the VAE session is fed the
    latents times [1. / 0.18215] as a float32 array. *)
Fixpoint chained (a : Args) (te cur : tensor) (i : nat)
  (scaled : option tensor) (t : list event) : Prop :=
  match t with
  | [] => True
  | EvScale x idx r :: t' =>
      torch_cat A [cur; cur] = Ok x /\ idx = i /\ chained a te cur i r t'
  | EvSessRun s feeds _ :: t' =>
      (s = unet_session ->
       exists x ts,
         scaled = Some x
         /\ nth_error (timesteps (sched a)) i = Some ts
         /\ feeds = unet_feeds A a te x ts)
      /\ (s = vae_session ->
          feeds = [("latent",
                    to_np A (tensor_scale A (inv_vae_scale A) cur) Float32)])
      /\ chained a te cur i scaled t'
  | EvStep _ lat idx ts r :: t' =>
      lat = cur /\ idx = i
      /\ nth_error (timesteps (sched a)) i = Some ts
      /\ chained a te (match r with Some y => y | None => cur end) (S i)
           None t'
  | _ :: t' => chained a te cur i scaled t'
  end.

(** Latents, iteration and pending scaled input after a trace. *)
Fixpoint after (cur : tensor) (i : nat) (scaled : option tensor)
  (t : list event) : tensor * nat * option tensor :=
  match t with
  | [] => (cur, i, scaled)
  | EvScale _ _ r :: t' => after cur i r t'
  | EvStep _ _ _ _ r :: t' =>
      after (match r with Some y => y | None => cur end) (S i) None t'
  | _ :: t' => after cur i scaled t'
  end.

(** The state of the libraries when [run_pipeline] reads
    [scheduler.init_noise_sigma]: the one that the creation of the generator,
    [torch.inference_mode], [torch.autocast] and [torch.randn] have left, in
    this order, from the state [w] in which the run starts. *)
Definition state_at_noise (a : Args) (w : World) : World :=
  let w1 := snd (do_call L (CGenerator (device a) (seed a)) w) in
  let w2 := snd (do_call L CInferenceMode w1) in
  let w3 := snd (do_call L (CAutocast (device a)) w2) in
  snd (randn L
         [batch_size a * num_images a; 4; height a / 8; width a / 8]
         Float32 (device a) w3).

(** [flows a sigma t]: the latents start as the noise that [torch.randn]
    returned, times [sigma], and the rest of [t] is [chained] from them. *)
Fixpoint flows (a : Args) (sigma : scalar) (t : list event) : Prop :=
  match t with
  | [] => True
  | EvRandn _ _ _ (Some noise) :: t' =>
      exists te, chained a te (tensor_scale A sigma noise) 0 None t'
  | _ :: t' => flows a sigma t'
  end.

(** An entry that is none of the above. *)
Definition neutral (e : event) : Prop :=
  match e with
  | EvScale _ _ _ => False
  | EvStep _ _ _ _ _ => False
  | EvSessRun s _ _ => s <> unet_session /\ s <> vae_session
  | _ => True
  end.

(** ** What the CLIP session is fed *)

(** [adjacent P prev t]: every entry of [t] has [P] with respect to the
    entry just before it ([prev] for the first). *)
Fixpoint adjacent (P : option event -> event -> Prop) (prev : option event)
  (t : list event) : Prop :=
  match t with
  | [] => True
  | e :: t' => P prev e /\ adjacent P (Some e) t'
  end.

(** A run of the CLIP session comes right after a call of the tokenizer
    that returned, and is fed its token ids as int32 under ['input_ids']. *)
Definition clip_fed (prev : option event) (e : event) : Prop :=
  match e with
  | EvSessRun s feeds _ =>
      s = clip_session ->
      match prev with
      | Some (EvTokenize _ _ _ (Some ids)) =>
          feeds = [("input_ids", astype A ids Int32)] /\ t_lib ids = Np
      | _ => False
      end
  | _ => True
  end.

(** ** More lookups in a trace *)

(** The first call of [save_image]. *)
Fixpoint find_save (t : list event)
  : option (tensor * string * image_prefix * bool) :=
  match t with
  | [] => None
  | EvCall (CSaveImage images dir prefix) ok :: _ =>
      Some (images, dir, prefix, ok)
  | _ :: t' => find_save t'
  end.

Definition has_save (a : Args) (inner : list event) (ok : bool) : bool :=
  found (find_save inner).

(** The trace cut at the first run of the session [s]. *)
Fixpoint split_at_run (s : session) (t : list event)
  : option (list event * list (string * tensor) * option (list tensor)
            * list event) :=
  match t with
  | [] => None
  | e :: t' =>
      match e with
      | EvSessRun s' feeds r =>
          if session_eq_dec s s' then Some ([], feeds, r, t')
          else match split_at_run s t' with
               | Some (pre, f, r', post) => Some (e :: pre, f, r', post)
               | None => None
               end
      | _ =>
          match split_at_run s t' with
          | Some (pre, f, r', post) => Some (e :: pre, f, r', post)
          | None => None
          end
      end
  end.

End Observations.

Unset Maximal Implicit Insertion.

Arguments MLoad {scalar}.
Arguments MBegin {scalar}.
Arguments MEnd {scalar}.
Arguments WRun {scalar}.

Arguments SScheduler {scalar}.
Arguments SSetTimesteps {scalar}.
Arguments SConfigure {scalar}.
Arguments SSetEnv {scalar}.
Arguments SLoad {scalar}.

(** ** A small concrete library

    Integers for tensor elements, a counter for the clock.  The tokenizer
    pads every prompt to [max_length]; the CLIP session returns three
    features per token; the UNet and VAE sessions return an array shaped
    like their first input; the scheduler keeps the latents. *)
Module Toy.

Definition arith : Arith Z :=
  Build_Arith (fun _ x => x) Z.add Z.sub Z.mul 0 5.

Definition zeros_like (d : dtype) (shape : list Z) : tensor Z :=
  mkTensor Np d shape (repeat 0 (Z.to_nat (numel shape))).

Definition run (s : session) (feeds : list (string * tensor Z)) (w : nat)
  : option (list (tensor Z)) * nat :=
  match feeds with
  | (name, x) :: _ =>
      if String.eqb name "input_ids"
      then (Some [zeros_like Float32 (t_shape x ++ [3])], w)
      else (Some [mkTensor Np Float32 (t_shape x) (t_data x)], w)
  | [] => (None, w)
  end.

Definition library : Library Z nat nat :=
  Build_Library
    2
    (fun p max_length _ w =>
       (Some (zeros_like Int64 [prompt_count p; max_length]), w))
    (fun _ w => (true, w))
    run
    (fun shape _ _ w => (Some (repeat 1 (Z.to_nat (numel shape))), w))
    (fun _ w => (Some (Int64, fun i => Z.of_nat i), w))
    (fun _ => 2)
    (fun x _ w => (Some x, w))
    (fun _ latents _ _ w => (Some latents, w))
    (fun w => (w, S w))
    (fun _ w => (true, w)).

Definition cli : CliArgs Z :=
  Build_CliArgs "a cat" 1 16 16 1 2 0 "./onnx" "cuda" "lmsd" false "fp16" 1
    None 7 "./output".

(** The arguments [get_args] returns for [cli], and what [main] makes of
    them for the warm-up and for batch size 1. *)
Definition a0 : Args Z :=
  base_args cli LMSD (set_timesteps Int64 (fun i => Z.of_nat i) 2).

Definition warm : Args Z := warm_args a0.

Definition measured : Args Z := measured_args a0 1.

(** A float32 NumPy array and a float16 torch tensor. *)
Definition np32 : tensor Z := mkTensor Np Float32 [2] [1; 2].

Definition pt16 : tensor Z := mkTensor Pt Float16 [2] [1; 2].

(** A command line with a negative [--height]. *)
Definition cli_negative_height : CliArgs Z :=
  Build_CliArgs "a cat" 1 (-16) 16 1 2 0 "./onnx" "cuda" "lmsd" false "fp16"
    1 None 7 "./output".

(** The measured arguments with a batch size that the one prompt does not
    cover. *)
Definition short_of_prompts : Args Z := set_batch_size measured 3.

End Toy.

(** * [run_ort_trt]

    The helper that creates a session for one model and runs it once, with
    or without IO binding.  [main] does not call it.  Its library calls are
    those of ONNX Runtime's [InferenceSession] and [IOBinding]; they are
    oracles over the state of the runtime, as above, and a trace records
    them. *)
Module OrtTrt.

Section RunOrtTrt.

(** Values of a keyword dictionary, what a run returns, and the state of
    the runtime. *)
Variables (value outputs World : Type).

(** [input_args] and [output_args]: dictionaries with string keys. *)
Definition kwargs : Type := list (string * value).

(** [TypeError] is Python's, for [**None]; the rest comes out of the
    runtime. *)
Inductive error := TypeError | RuntimeFailure.

Inductive io_event :=
  | IoSession (s : session) (ok : bool)
  | IoBinding (s : session) (ok : bool)
  | IoBindInput (s : session) (kw : kwargs) (ok : bool)
  | IoBindOutput (s : session) (kw : kwargs) (ok : bool)
  | IoRunWithBinding (s : session) (r : option outputs)
  | IoRun (s : session) (feeds : kwargs) (r : option outputs).

Record Runtime := {
  (** [ort.InferenceSession(path, providers)] *)
  new_session : session -> World -> bool * World;
  (** [sess.io_binding()] *)
  io_binding : session -> World -> bool * World;
  (** [io_binding.bind_input] with the keywords of [kw] *)
  bind_input : session -> kwargs -> World -> bool * World;
  (** [io_binding.bind_output] with the keywords of [kw] *)
  bind_output : session -> kwargs -> World -> bool * World;
  (** [sess.run_with_iobinding(io_binding)] *)
  run_with_iobinding : session -> World -> option outputs * World;
  (** [sess.run(None, feeds)] *)
  run : session -> kwargs -> World -> option outputs * World
}.

Variable R : Runtime.

Definition IO (X : Type) : Type :=
  World -> (X + error) * World * list io_event.

Definition io_ret {X} (x : X) : IO X := fun w => (inl x, w, []).

Definition io_bind {X Y} (m : IO X) (k : X -> IO Y) : IO Y :=
  fun w =>
    match m w with
    | (inl x, w1, t1) =>
        match k x w1 with
        | (r, w2, t2) => (r, w2, t1 ++ t2)
        end
    | (inr e, w1, t1) => (inr e, w1, t1)
    end.

(** A call that returns nothing. *)
Definition io_call (f : World -> bool * World) (e : bool -> io_event)
  : IO unit :=
  fun w =>
    let (ok, w') := f w in
    ((if ok then inl tt else inr RuntimeFailure), w', [e ok]).

(** A call that returns the outputs. *)
Definition io_outputs (f : World -> option outputs * World)
  (e : option outputs -> io_event) : IO outputs :=
  fun w =>
    let (r, w') := f w in
    (match r with Some o => inl o | None => inr RuntimeFailure end,
     w', [e r]).

(** [**d] in a call: [d] has to be a mapping, and [None] is not. *)
Definition unpack (d : option kwargs) : IO kwargs :=
  fun w =>
    (match d with Some kw => inl kw | None => inr TypeError end, w, []).

Definition run_ort_trt (model_path : string) (input_args : kwargs)
  (output_args : option kwargs) (use_io_binding : bool) : IO outputs :=
  let sess :=
    Session model_path
      ["TensorrtExecutionProvider"; "CUDAExecutionProvider"] in
  io_bind (io_call (new_session R sess) (IoSession sess)) (fun _ =>
  if use_io_binding then
    io_bind (io_call (io_binding R sess) (IoBinding sess)) (fun _ =>
    io_bind (io_call (bind_input R sess input_args)
               (IoBindInput sess input_args)) (fun _ =>
    io_bind (unpack output_args) (fun kw =>
    io_bind (io_call (bind_output R sess kw) (IoBindOutput sess kw)) (fun _ =>
    io_outputs (run_with_iobinding R sess) (IoRunWithBinding sess)))))
  else
    io_outputs (run R sess input_args) (IoRun sess input_args)).

Definition result_of {X} (r : (X + error) * World * list io_event)
  : X + error := fst (fst r).

Definition calls_of {X} (r : (X + error) * World * list io_event)
  : list io_event := snd r.

(** Whether the session is run in a trace. *)
Definition is_run (e : io_event) : bool :=
  match e with
  | IoRunWithBinding _ _ => true
  | IoRun _ _ _ => true
  | _ => false
  end.

(** How often the session is run in a trace. *)
Definition runs (t : list io_event) : nat := length (filter is_run t).

End RunOrtTrt.

End OrtTrt.

(** * Properties *)

Lemma dtype_eqb_eq (a b : dtype) : dtype_eqb a b = true <-> a = b.
Proof. destruct a, b; simpl; split; congruence. Qed.

Lemma dtype_eqb_refl (a : dtype) : dtype_eqb a a = true.
Proof. now destruct a. Qed.

Lemma promote_same (a : dtype) : promote a a = a.
Proof. now destruct a. Qed.

Lemma shape_eqb_eq (a b : list Z) : shape_eqb a b = true <-> a = b.
Proof.
  revert b; induction a as [|x a IH]; intros [|y b]; simpl;
    try (split; congruence).
  rewrite andb_true_iff, Z.eqb_eq, IH. split.
  - intros [-> ->]; reflexivity.
  - intros E; injection E; auto.
Qed.

Lemma shape_eqb_refl (a : list Z) : shape_eqb a a = true.
Proof. now apply shape_eqb_eq. Qed.

Section Proofs.

Variables (scalar time World : Type).
Variable A : Arith scalar.
Variable L : Library scalar time World.

Local Abbreviation tensor := (tensor scalar).
Local Abbreviation event := (event scalar time).
Local Abbreviation Args := (Args scalar).
Local Abbreviation M := (M scalar time World).

Local Abbreviation spec := (@spec scalar time World _).
Local Abbreviation emits P := (@emits scalar time World P _).
Local Abbreviation mevent := (mevent scalar).
Local Abbreviation wstep := (wstep scalar).
Local Abbreviation is_output := (@is_output scalar time).
Local Abbreviation quiet := (@quiet scalar time).
Local Abbreviation stage_of := (@stage_of scalar time).
Local Abbreviation stages := (@stages scalar time).
Local Abbreviation is_run_of := (@is_run_of scalar time).
Local Abbreviation is_step := (@is_step scalar time).
Local Abbreviation runs_of := (@runs_of scalar time).
Local Abbreviation steps_of := (@steps_of scalar time).
Local Abbreviation main_view := (@main_view scalar time).
Local Abbreviation load_of := (@load_of scalar time).
Local Abbreviation loads := (@loads scalar time).
Local Abbreviation warmup_view := (@warmup_view scalar time).
Local Abbreviation measurement_view := (@measurement_view scalar time).
Local Abbreviation feeds_ok := (@feeds_ok scalar time).
Local Abbreviation Closed := (@Closed scalar time).
Local Abbreviation mload_of := (@mload_of scalar).
Local Abbreviation is_mrun := (@is_mrun scalar).
Local Abbreviation mwarmup_view := (@mwarmup_view scalar).
Local Abbreviation mmeasurement_view := (@mmeasurement_view scalar).
Local Abbreviation unet_feed_ok := (@unet_feed_ok scalar).
Local Abbreviation encode_stages := (@encode_stages scalar).
Local Abbreviation pipeline_stages := (@pipeline_stages scalar).
Local Abbreviation base_args := (@base_args scalar).
Local Abbreviation loaded := (@loaded scalar).
Local Abbreviation warm_args := (@warm_args scalar).
Local Abbreviation measured_args := (@measured_args scalar).
Local Abbreviation warm_view := (@warm_view scalar).
Local Abbreviation measure_view := (@measure_view scalar).
Local Abbreviation measure_state := (@measure_state scalar).
Local Abbreviation measuring := (@measuring scalar).
Local Abbreviation measurement_expected := (@measurement_expected scalar).
Local Abbreviation blended := (@blended scalar time A).
Local Abbreviation guided := (@guided scalar time A).
Local Abbreviation zeros_tensor := (@zeros_tensor scalar A).
Local Abbreviation load_view := (@load_view scalar A).
Local Abbreviation main_expected := (@main_expected scalar A).
Local Abbreviation warmup_expected := (@warmup_expected scalar A).
Local Abbreviation run_recorded := (@run_recorded scalar time World A L).

(** ** Reasoning about runs *)

Lemma spec_conseq {X} (m : M X) (Q Q' : outcome X -> list event -> Prop) :
  spec m Q' -> (forall r t, Q' r t -> Q r t) -> spec m Q.
Proof. intros H HQ w. apply HQ, H. Qed.

Lemma spec_bind {X Y} (m : M X) (k : X -> M Y) Q :
  spec m (fun r t1 =>
            match r with
            | Ok x => spec (k x) (fun r2 t2 => Q r2 (t1 ++ t2))
            | Raise e => Q (Raise e) t1
            end) ->
  spec (bind m k) Q.
Proof.
  intros H w. unfold bind, outcome_of, trace_of.
  specialize (H w). unfold outcome_of, trace_of in H.
  destruct (m w) as [[r w1] t1]; destruct r as [x|e]; simpl in *.
  - specialize (H w1). unfold outcome_of, trace_of in H.
    destruct (k x w1) as [[r2 w2] t2]. exact H.
  - exact H.
Qed.

Lemma spec_ret {X} (x : X) (Q : outcome X -> list event -> Prop) :
  Q (Ok x) [] -> spec (ret x) Q.
Proof. intros H w. exact H. Qed.

Lemma spec_lift {X} (r : outcome X) (Q : outcome X -> list event -> Prop) :
  Q r [] -> spec (lift r) Q.
Proof. intros H w. exact H. Qed.

Lemma spec_attr {X} (o : option X) (Q : outcome X -> list event -> Prop) :
  Q (match o with Some x => Ok x | None => Raise AttributeError end) [] ->
  spec (attr o) Q.
Proof. intros H w. exact H. Qed.

Lemma spec_emit (e : event) Q :
  Q (Ok tt) [e] -> spec (emit e) Q.
Proof. intros H w. exact H. Qed.

Lemma spec_print (p : printed scalar time) Q :
  Q (Ok tt) [EvPrint p] -> spec (print p) Q.
Proof. intros H w. exact H. Qed.

Lemma spec_lib_call (c : call scalar) Q :
  (forall ok : bool,
     Q (if ok then Ok tt else Raise LibraryError) [EvCall c ok]) ->
  spec (lib_call L c) Q.
Proof.
  intros H w. unfold lib_call, outcome_of, trace_of.
  destruct (do_call L c w) as [ok w']. apply H.
Qed.

Lemma spec_sync Q :
  (forall ok : bool,
     Q (if ok then Ok tt else Raise LibraryError) [EvCall CSync ok]) ->
  spec (sync L) Q.
Proof. apply spec_lib_call. Qed.

Lemma spec_time_time Q :
  (forall t, Q (Ok t) [EvClock t]) -> spec (time_time L) Q.
Proof.
  intros H w. unfold time_time, outcome_of, trace_of.
  destruct (clock L w) as [t w']. apply H.
Qed.

Lemma spec_read_init_noise_sigma Q :
  (forall x, Q (Ok x) []) -> spec (read_init_noise_sigma L) Q.
Proof. intros H w. apply H. Qed.

Lemma spec_tokenizer p ml tr Q :
  (forall w r w', tokenize L p ml tr w = (r, w') ->
     Q (of_option (option_map (@as_np scalar) r))
       [EvTokenize p ml tr (option_map (@as_np scalar) r)]) ->
  spec (tokenizer L p ml tr) Q.
Proof.
  intros H w. unfold tokenizer, outcome_of, trace_of.
  destruct (tokenize L p ml tr w) as [r w'] eqn:E. simpl. eapply H, E.
Qed.

Lemma spec_InferenceSession path prov Q :
  (forall ok : bool,
     Q (if ok then Ok (Session path prov) else Raise LibraryError)
                [EvLoadSession (Session path prov) ok]) ->
  spec (InferenceSession L path prov) Q.
Proof.
  intros H w. unfold InferenceSession, outcome_of, trace_of.
  destruct (load_session L (Session path prov) w) as [ok w']. apply H.
Qed.

Lemma spec_sess_run s feeds Q :
  (forall w r w', session_run L s feeds w = (r, w') ->
     Q (of_option (option_map (map (@as_np scalar)) r))
       [EvSessRun s feeds (option_map (map (@as_np scalar)) r)]) ->
  spec (sess_run L s feeds) Q.
Proof.
  intros H w. unfold sess_run, outcome_of, trace_of.
  destruct (session_run L s feeds w) as [r w'] eqn:E. simpl. eapply H, E.
Qed.

Lemma spec_torch_randn shape d dev Q :
  (forall r, Q (of_option (option_map (mkTensor Pt d shape) r))
               [EvRandn shape d dev (option_map (mkTensor Pt d shape) r)]) ->
  Q (Raise RuntimeError) [EvRandn shape d dev None] ->
  spec (torch_randn L shape d dev) Q.
Proof.
  intros H H0 w. unfold torch_randn, outcome_of, trace_of.
  destruct (forallb _ shape); [|exact H0].
  destruct (randn L shape d dev w) as [r w']. apply H.
Qed.

Lemma spec_scale x i Q :
  (forall w r w', scale_model_input L x i w = (r, w') ->
     Q (of_option (option_map (@as_pt scalar) r))
       [EvScale x i (option_map (@as_pt scalar) r)]) ->
  spec (sched_scale_model_input L x i) Q.
Proof.
  intros H w. unfold sched_scale_model_input, outcome_of, trace_of.
  destruct (scale_model_input L x i w) as [r w'] eqn:E. simpl. eapply H, E.
Qed.

Lemma spec_step n l i ts Q :
  (forall w r w', scheduler_step L n l i ts w = (r, w') ->
     Q (of_option (option_map (@as_pt scalar) r))
       [EvStep n l i ts (option_map (@as_pt scalar) r)]) ->
  spec (sched_step L n l i ts) Q.
Proof.
  intros H w. unfold sched_step, outcome_of, trace_of.
  destruct (scheduler_step L n l i ts w) as [r w'] eqn:E. simpl. eapply H, E.
Qed.

Lemma spec_set_timesteps steps Q :
  (forall d v, Q (Ok (set_timesteps d v steps)) [EvSetTimesteps steps true]) ->
  Q (Raise LibraryError) [EvSetTimesteps steps false] ->
  spec (sched_set_timesteps L steps) Q.
Proof.
  intros H H0 w. unfold sched_set_timesteps, outcome_of, trace_of.
  destruct (timestep_values L steps w) as [[[d v]|] w']; [apply H | exact H0].
Qed.

Lemma spec_tqdm {X} (l : list X) Q :
  Q (Ok l) [EvProgress (length l)] -> spec (tqdm l) Q.
Proof. intros H w. exact H. Qed.

Lemma spec_call_run_pipeline args Q :
  (forall w, Q (outcome_of (run_pipeline A L args w))
               [EvRunPipeline args (trace_of (run_pipeline A L args w))
                  (is_ok (outcome_of (run_pipeline A L args w)))]) ->
  spec (call_run_pipeline A L args) Q.
Proof.
  intros H w. unfold call_run_pipeline, outcome_of, trace_of.
  specialize (H w). unfold outcome_of, trace_of in H.
  destruct (run_pipeline A L args w) as [[r w'] t]. exact H.
Qed.

(** One step of symbolic execution: the head of a [bind] is a library call
    or a pure step; its result is split into the case that returns and the
    case that raises. *)
Ltac spec_prim :=
  lazymatch goal with
  | |- spec (ret _) _ => apply spec_ret
  | |- spec (lift _) _ => apply spec_lift
  | |- spec (attr _) _ => apply spec_attr
  | |- spec (print _) _ => apply spec_print
  | |- spec (emit _) _ => apply spec_emit
  | |- spec (sync _) _ => apply spec_sync; intros [|]
  | |- spec (lib_call _ _) _ => apply spec_lib_call; intros [|]
  | |- spec (time_time _) _ => apply spec_time_time; intros ?
  | |- spec (read_init_noise_sigma _) _ =>
      apply spec_read_init_noise_sigma; intros ?
  | |- spec (tokenizer _ _ _ _) _ => apply spec_tokenizer; intros ? [?|] ? ?
  | |- spec (InferenceSession _ _ _) _ =>
      apply spec_InferenceSession; intros [|]
  | |- spec (sess_run _ _ _) _ => apply spec_sess_run; intros ? [?|] ? ?
  | |- spec (torch_randn _ _ _ _) _ =>
      apply spec_torch_randn; [intros [?|] | ]
  | |- spec (sched_scale_model_input _ _ _) _ =>
      apply spec_scale; intros ? [?|] ? ?
  | |- spec (sched_step _ _ _ _ _) _ => apply spec_step; intros ? [?|] ? ?
  | |- spec (sched_set_timesteps _ _) _ =>
      apply spec_set_timesteps; [intros ? ? | ]
  | |- spec (tqdm _) _ => apply spec_tqdm
  end.

Ltac spec_simpl := cbv beta iota zeta delta [of_option option_map].

Ltac spec_step :=
  spec_simpl;
  lazymatch goal with
  | |- spec (bind _ _) _ => apply spec_bind; spec_prim
  | |- spec (let '(_, _) := ?p in _) _ => destruct p
  | |- match ?r with Ok _ => _ | Raise _ => _ end => destruct r eqn:?
  | |- spec _ _ => spec_prim
  end;
  spec_simpl.

(** ** Properties of traces that compose *)

Lemma Forall_Closed (phi : event -> Prop) : Closed (Forall phi).
Proof.
  split; [constructor | intros a b Ha Hb; apply Forall_app; auto].
Qed.

Section Emits.

Variable P : list event -> Prop.
Hypothesis HP : Closed P.

Lemma emits_bind_val {X Y} (m : M X) (k : X -> M Y) (R : X -> Prop) :
  spec m (fun r t => P t /\ match r with Ok x => R x | Raise _ => True end) ->
  (forall x, R x -> emits P (k x)) ->
  emits P (bind m k).
Proof.
  intros Hm Hk. apply spec_bind. eapply spec_conseq; [exact Hm|].
  intros [x|e] t [Ht HR]; [|exact Ht].
  eapply spec_conseq; [apply Hk, HR|].
  intros r2 t2 Ht2. apply (closed_app HP); assumption.
Qed.

Lemma emits_bind {X Y} (m : M X) (k : X -> M Y) :
  emits P m -> (forall x, emits P (k x)) -> emits P (bind m k).
Proof.
  intros Hm Hk. apply emits_bind_val with (R := fun _ => True); [|auto].
  eapply spec_conseq; [exact Hm|]. intros [x|e] t Ht; auto.
Qed.

Lemma emits_bind_attr {X Y} (o : option X) (k : X -> M Y) :
  (forall x, o = Some x -> emits P (k x)) -> emits P (bind (attr o) k).
Proof.
  intros Hk. apply emits_bind_val with (R := fun x => o = Some x); [|exact Hk].
  apply spec_attr. split; [apply (closed_nil HP) | destruct o; auto].
Qed.

Lemma emits_ret {X} (x : X) : emits P (ret x).
Proof. apply spec_ret, (closed_nil HP). Qed.

Lemma emits_lift {X} (r : outcome X) : emits P (lift r).
Proof. apply spec_lift, (closed_nil HP). Qed.

Lemma emits_attr {X} (o : option X) : emits P (attr o).
Proof. apply spec_attr, (closed_nil HP). Qed.

Lemma emits_sigma : emits P (read_init_noise_sigma L).
Proof. apply spec_read_init_noise_sigma. intros _. apply (closed_nil HP). Qed.

Lemma emits_emit e : P [e] -> emits P (emit e).
Proof. intros H. apply spec_emit. auto. Qed.

Lemma emits_print p : P [EvPrint p] -> emits P (print p).
Proof. intros H. apply spec_print. auto. Qed.

Lemma emits_lib_call c :
  (forall ok, P [EvCall c ok]) -> emits P (lib_call L c).
Proof. intros H. apply spec_lib_call. auto. Qed.

Lemma emits_sync : (forall ok, P [EvCall CSync ok]) -> emits P (sync L).
Proof. apply emits_lib_call. Qed.

Lemma emits_time : (forall t, P [EvClock t]) -> emits P (time_time L).
Proof. intros H. apply spec_time_time. auto. Qed.

Lemma emits_tokenizer p ml tr :
  (forall r, P [EvTokenize p ml tr r]) -> emits P (tokenizer L p ml tr).
Proof. intros H. apply spec_tokenizer. auto. Qed.

Lemma emits_InferenceSession path prov :
  (forall ok, P [EvLoadSession (Session path prov) ok]) ->
  emits P (InferenceSession L path prov).
Proof. intros H. apply spec_InferenceSession. auto. Qed.

Lemma emits_sess_run s feeds :
  (forall r, P [EvSessRun s feeds r]) -> emits P (sess_run L s feeds).
Proof. intros H. apply spec_sess_run. auto. Qed.

Lemma emits_randn shape d dev :
  (forall r, P [EvRandn shape d dev r]) -> emits P (torch_randn L shape d dev).
Proof. intros H. apply spec_torch_randn; auto. Qed.

Lemma emits_scale x i :
  (forall r, P [EvScale x i r]) -> emits P (sched_scale_model_input L x i).
Proof. intros H. apply spec_scale. auto. Qed.

Lemma emits_sched_step n l i ts :
  (forall r, P [EvStep n l i ts r]) -> emits P (sched_step L n l i ts).
Proof. intros H. apply spec_step. auto. Qed.

Lemma emits_set_timesteps steps :
  (forall ok, P [EvSetTimesteps steps ok]) ->
  emits P (sched_set_timesteps L steps).
Proof. intros H. apply spec_set_timesteps; auto. Qed.

Lemma emits_tqdm {X} (l : list X) :
  P [EvProgress (length l)] -> emits P (tqdm l).
Proof. intros H. apply spec_tqdm. auto. Qed.

Lemma emits_for_each {S X} (body : S -> X -> M S) (l : list X) :
  (forall s x, emits P (body s x)) -> forall s, emits P (for_each body l s).
Proof.
  intros Hb. induction l as [|x l IH]; intros s; simpl.
  - apply emits_ret.
  - apply emits_bind; [apply Hb | exact IH].
Qed.

End Emits.

(** One step through a definition of the script for a composable property;
    what is left is the property of single entries. *)
Ltac emits_prim HP :=
  first
    [ apply (emits_ret HP) | apply (emits_lift HP) | apply (emits_attr HP)
    | apply (emits_sigma HP)
    | apply emits_emit | apply emits_print | apply emits_lib_call
    | apply emits_sync | apply emits_time | apply emits_tokenizer
    | apply emits_InferenceSession | apply emits_sess_run | apply emits_randn
    | apply emits_scale | apply emits_sched_step | apply emits_set_timesteps
    | apply emits_tqdm ].

Ltac split_pairs :=
  repeat match goal with
         | x : (_ * _)%type |- _ => destruct x
         end.

Ltac single := intros; repeat constructor; simpl; auto.

Ltac emits_go HP :=
  repeat first
    [ apply (emits_bind HP); [ emits_prim HP; single | intros ?; split_pairs ]
    | emits_prim HP; single ].

(** The same through nested [bind]s, with [tac] for the calls that are not
    library calls. *)
Ltac emits_run HP tac :=
  lazymatch goal with
  | |- emits _ (bind _ _) =>
      apply (emits_bind HP); [ emits_run HP tac | intros ?; emits_run HP tac ]
  | |- _ => first [ tac | emits_prim HP; single ]
  end.

(** ** Output of a run *)

Lemma encode_prompts_quiet args :
  emits (Forall quiet) (encode_prompts A L args).
Proof. unfold encode_prompts, quiet. emits_go (Forall_Closed quiet). Qed.

Lemma denoise_step_quiet args te lat it :
  emits (Forall quiet) (denoise_step A L args te lat it).
Proof.
  unfold denoise_step, quiet. destruct it as [i ts].
  emits_go (Forall_Closed quiet).
Qed.

Lemma run_pipeline_quiet args :
  warmup args <> Some false -> emits (Forall quiet) (run_pipeline A L args).
Proof.
  intros Hw. unfold run_pipeline.
  repeat first
    [ apply (emits_bind_attr (Forall_Closed quiet)); intros ? ?
    | apply (emits_bind (Forall_Closed quiet));
      [ first [ apply encode_prompts_quiet
              | apply (emits_for_each (Forall_Closed quiet)); intros;
                apply denoise_step_quiet
              | emits_prim (Forall_Closed quiet); single; reflexivity ]
      | intros ? ] ].
  match goal with
  | H : warmup args = Some ?b |- _ =>
      destruct b; simpl; [apply (emits_ret (Forall_Closed quiet)) | congruence]
  end.
Qed.

(** ** [to_np] and [to_pt] *)

Lemma astype_dtype (t : tensor) d : t_dtype (astype A t d) = d.
Proof. reflexivity. Qed.

Lemma astype_shape (t : tensor) d : t_shape (astype A t d) = t_shape t.
Proof. reflexivity. Qed.

Lemma to_np_dtype (t : tensor) d : t_dtype (to_np A t d) = d.
Proof.
  unfold to_np. destruct (t_lib t); simpl;
    destruct (dtype_eqb (t_dtype t) d) eqn:E; simpl;
    try reflexivity; now apply dtype_eqb_eq.
Qed.

Lemma to_np_lib (t : tensor) d : t_lib (to_np A t d) = Np.
Proof.
  unfold to_np. destruct (t_lib t) eqn:El; simpl;
    destruct (dtype_eqb (t_dtype t) d); simpl; auto.
Qed.

Lemma to_np_shape (t : tensor) d : t_shape (to_np A t d) = t_shape t.
Proof.
  unfold to_np. destruct (t_lib t); simpl;
    destruct (dtype_eqb (t_dtype t) d); reflexivity.
Qed.

Lemma to_np_id (t : tensor) d :
  t_lib t = Np -> t_dtype t = d -> to_np A t d = t.
Proof.
  intros Hl Hd. unfold to_np. rewrite Hl, Hd, dtype_eqb_refl. reflexivity.
Qed.

Lemma to_pt_dtype (t : tensor) d : t_dtype (to_pt A t d) = d.
Proof.
  unfold to_pt. destruct (t_lib t); simpl;
    destruct (dtype_eqb (t_dtype t) d) eqn:E; simpl;
    try reflexivity; now apply dtype_eqb_eq.
Qed.

Lemma to_pt_lib (t : tensor) d : t_lib (to_pt A t d) = Pt.
Proof.
  unfold to_pt. destruct (t_lib t) eqn:El; simpl;
    destruct (dtype_eqb (t_dtype t) d); simpl; auto.
Qed.

Lemma to_pt_shape (t : tensor) d : t_shape (to_pt A t d) = t_shape t.
Proof.
  unfold to_pt. destruct (t_lib t); simpl;
    destruct (dtype_eqb (t_dtype t) d); reflexivity.
Qed.

Lemma to_pt_id (t : tensor) d :
  t_lib t = Pt -> t_dtype t = d -> to_pt A t d = t.
Proof.
  intros Hl Hd. unfold to_pt. rewrite Hl, Hd, dtype_eqb_refl. reflexivity.
Qed.

(** C9. For a torch tensor or NumPy array [t] and an element type [d],
    [to_np t d] is a NumPy array of element type [d]; a NumPy array that
    already has element type [d] is returned as it is, so [to_np] is
    idempotent at a fixed [d].  Symmetrically [to_pt t d] is a torch tensor of
    element type [d], a torch tensor of element type [d] is returned as it
    is, and [to_pt] is idempotent at a fixed [d]. *)
Theorem to_np_to_pt_dtype (t : tensor) (d : dtype) :
  (t_lib (to_np A t d) = Np /\ t_dtype (to_np A t d) = d
   /\ (t_lib t = Np -> t_dtype t = d -> to_np A t d = t)
   /\ to_np A (to_np A t d) d = to_np A t d)
  /\ (t_lib (to_pt A t d) = Pt /\ t_dtype (to_pt A t d) = d
      /\ (t_lib t = Pt -> t_dtype t = d -> to_pt A t d = t)
      /\ to_pt A (to_pt A t d) d = to_pt A t d).
Proof.
  split; repeat split.
  - apply to_np_lib.
  - apply to_np_dtype.
  - apply to_np_id.
  - apply to_np_id; [apply to_np_lib | apply to_np_dtype].
  - apply to_pt_lib.
  - apply to_pt_dtype.
  - apply to_pt_id.
  - apply to_pt_id; [apply to_pt_lib | apply to_pt_dtype].
Qed.

(** ** Classifier-free guidance *)

(** What [chunk2] returns: the leading rows and the remaining rows. *)
Lemma chunk2_halves (x u t : tensor) :
  chunk2 x = Ok (u, t) ->
  exists n rest,
    t_shape x = n :: rest
    /\ t_shape u = (n + 1) / 2 :: rest
    /\ t_shape t = n - (n + 1) / 2 :: rest
    /\ t_data u ++ t_data t = t_data x.
Proof.
  unfold chunk2. destruct (t_shape x) as [|n rest]; [discriminate|].
  destruct (n =? 1); [discriminate|]. intros E. injection E as <- <-.
  exists n, rest. simpl. repeat split. apply firstn_skipn.
Qed.

Lemma blended_weaken args p e : blended args None e -> blended args p e.
Proof. destruct e; simpl; auto. intros []. Qed.

Lemma guided_weaken args p t : guided args None t -> guided args p t.
Proof.
  destruct t as [|e t]; simpl; auto.
  intros [H1 H2]. split; [apply blended_weaken|]; assumption.
Qed.

Lemma guided_app args p a b :
  guided args p a -> guided args None b -> guided args p (a ++ b).
Proof.
  revert p. induction a as [|e a IH]; intros p Ha Hb; simpl in *.
  - apply guided_weaken, Hb.
  - destruct Ha as [H1 H2]. split; [exact H1 | apply IH; assumption].
Qed.

Lemma guided_Closed args : Closed (guided args None).
Proof. split; [exact I | intros a b; apply guided_app]. Qed.

Lemma guided_inv args p pre e post :
  guided args p (pre ++ e :: post) ->
  blended args (match rev pre with x :: _ => Some x | [] => p end) e.
Proof.
  revert p. induction pre as [|x pre IH]; intros p H; simpl in *.
  - apply H.
  - destruct H as [_ H]. apply IH in H.
    destruct (rev pre) as [|y l] eqn:E; simpl; exact H.
Qed.

Lemma encode_prompts_guided args :
  emits (guided args None) (encode_prompts A L args).
Proof. unfold encode_prompts. emits_go (guided_Closed args). Qed.

Lemma denoise_step_guided args te lat it :
  emits (guided args None) (denoise_step A L args te lat it).
Proof.
  unfold denoise_step, emits. destruct it as [i ts].
  repeat spec_step; simpl; auto.
  all: match goal with
       | H : item0 (map _ ?l) = Ok _ |- _ =>
           destruct l as [|out outs]; simpl in H |- *;
           [discriminate | injection H as <-]
       end.
  all: match goal with
       | H : _ = Ok ?s |- context [unet_sess ?a = Some ?s] =>
           destruct (unet_sess a); [injection H as -> | discriminate]
       end.
  all: match goal with
       | H : guidance _ _ _ _ = Ok _ |- _ =>
           unfold guidance in H;
           destruct (tensor_sub A _ _) as [d|] eqn:Hsub; [|discriminate]
       end.
  all: repeat split; eauto 10.
Qed.

Lemma run_pipeline_guided args :
  emits (guided args None) (run_pipeline A L args).
Proof.
  unfold run_pipeline.
  repeat first
    [ apply (emits_bind (guided_Closed args));
      [ first [ apply encode_prompts_guided
              | apply (emits_for_each (guided_Closed args)); intros;
                apply denoise_step_guided
              | emits_prim (guided_Closed args); single ]
      | intros ? ] ].
  match goal with
  | |- emits _ (if ?b then _ else _) => destruct b
  end; [|apply (emits_ret (guided_Closed args))].
  unfold report. emits_go (guided_Closed args).
Qed.

(** C1. Whenever [scheduler.step] is called in a run of [run_pipeline], the
    call just before it is the run of the UNet session, and the noise
    prediction passed to [step] is
    [noise_pred_uncond + guidance_scale * (noise_pred_text - noise_pred_uncond)]
    where [noise_pred_uncond] and [noise_pred_text] are the two chunks along
    the batch dimension ([chunk(2)]: the leading [ceil(n / 2)] rows and the
    rows after them, the two halves when [n] is even) of the session's first
    output, which [to_pt] hands over as a float16 torch tensor. *)
Theorem guidance_blend_fed_to_step (args : Args) (w : World) :
  forall pre noise_pred latents step_index timestep r post,
    trace_of (run_pipeline A L args w)
    = pre ++ EvStep noise_pred latents step_index timestep r :: post ->
    exists pre' s feeds out outs noise_pred_uncond noise_pred_text d n rest,
      pre = pre' ++ [EvSessRun s feeds (Some (out :: outs))]
      /\ unet_sess args = Some s
      /\ chunk2 (to_pt A out Float16) = Ok (noise_pred_uncond, noise_pred_text)
      /\ t_shape out = n :: rest
      /\ t_shape noise_pred_uncond = (n + 1) / 2 :: rest
      /\ t_shape noise_pred_text = n - (n + 1) / 2 :: rest
      /\ t_data noise_pred_uncond ++ t_data noise_pred_text
         = t_data (to_pt A out Float16)
      /\ tensor_sub A noise_pred_text noise_pred_uncond = Ok d
      /\ tensor_add A noise_pred_uncond
           (tensor_scale A (guidance_scale args) d)
         = Ok noise_pred.
Proof.
  intros pre noise_pred latents step_index timestep r post E.
  pose proof (run_pipeline_guided args w) as G. simpl in G.
  rewrite E in G. apply guided_inv in G. simpl in G.
  destruct (rev pre) as [|x l] eqn:Er; [contradiction|].
  destruct x; try contradiction.
  destruct r0 as [[|out outs]|]; try contradiction.
  destruct G as [Hs (u & t & d & Hc & Hsub & Hadd)].
  destruct (chunk2_halves _ Hc) as (n & rest & H1 & H2 & H3 & H4).
  rewrite to_pt_shape in H1.
  exists (rev l), s, feeds, out, outs, u, t, d, n, rest.
  repeat split; auto.
  rewrite <- (rev_involutive pre), Er. reflexivity.
Qed.

(** ** Traces seen through a projection *)

Lemma prefix_of_nil {T} (b : list T) : prefix_of [] b.
Proof. exists b. reflexivity. Qed.

Lemma prefix_of_refl {T} (a : list T) : prefix_of a a.
Proof. exists []. now rewrite app_nil_r. Qed.

Lemma prefix_of_app_r {T} (a b c : list T) :
  prefix_of a b -> prefix_of a (b ++ c).
Proof. intros [d ->]. exists (d ++ c). now rewrite app_assoc. Qed.

Lemma prefix_of_app_l {T} (x a b : list T) :
  prefix_of a b -> prefix_of (x ++ a) (x ++ b).
Proof. intros [d ->]. exists d. now rewrite app_assoc. Qed.

Section Seq.

(** [view] picks what a claim looks at in each entry of the trace. *)
Variable V : Type.
Variable view : event -> list V.

Local Abbreviation seq_spec := (@seq_spec scalar time World V view _).

Lemma seq_bind {X Y} (m : M X) (k : X -> M Y) R R' S1 S2 :
  seq_spec m R S1 ->
  (forall x, R x -> seq_spec (k x) R' S2) ->
  seq_spec (bind m k) R' (S1 ++ S2).
Proof.
  intros Hm Hk. apply spec_bind. eapply spec_conseq; [exact Hm|].
  intros [x|e] t [Hp HR]; simpl.
  - destruct HR as [Heq Rx]. eapply spec_conseq; [apply (Hk x Rx)|].
    intros r2 t2 [Hp2 H2]. simpl. rewrite flat_map_app, Heq. split.
    + apply prefix_of_app_l, Hp2.
    + destruct r2; [|exact I]. destruct H2 as [E2 HR2].
      split; [now rewrite E2 | exact HR2].
  - split; [apply prefix_of_app_r, Hp | exact I].
Qed.

Lemma seq_weaken {X} (m : M X) (R R' : X -> Prop) S S' :
  seq_spec m R S -> S = S' -> (forall x, R x -> R' x) -> seq_spec m R' S'.
Proof.
  intros H <- HR. eapply spec_conseq; [exact H|].
  intros [x|e] t [Hp Hr]; split; auto. destruct Hr; auto.
Qed.

Lemma seq_ret {X} (x : X) : seq_spec (ret x) (fun y => y = x) [].
Proof. apply spec_ret. split; [apply prefix_of_nil | auto]. Qed.

Lemma seq_ret_any {X} (x : X) (R : X -> Prop) : R x -> seq_spec (ret x) R [].
Proof. intros H. apply spec_ret. split; [apply prefix_of_nil | auto]. Qed.

Lemma seq_ret_true {X} (x : X) : seq_spec (ret x) (fun _ => True) [].
Proof. apply seq_ret_any. exact I. Qed.

Lemma seq_lift {X} (r : outcome X) : seq_spec (lift r) (fun x => r = Ok x) [].
Proof.
  apply spec_lift. split; [apply prefix_of_nil | destruct r; auto].
Qed.

Lemma seq_attr {X} (o : option X) : seq_spec (attr o) (fun x => o = Some x) [].
Proof.
  apply spec_attr. split; [apply prefix_of_nil | destruct o; auto].
Qed.

Lemma seq_sigma : seq_spec (read_init_noise_sigma L) (fun _ => True) [].
Proof.
  apply spec_read_init_noise_sigma. intros x.
  split; [apply prefix_of_nil | auto].
Qed.

(** A call that adds one entry, with the same view whether it returns or
    raises. *)
Lemma seq_one {X} (r : outcome X) (e : event) (R : X -> Prop) S :
  view e = S -> (forall x, r = Ok x -> R x) ->
  prefix_of (flat_map view [e]) S
  /\ match r with
     | Ok x => flat_map view [e] = S /\ R x
     | Raise _ => True
     end.
Proof.
  intros <- HR. simpl. rewrite app_nil_r.
  split; [apply prefix_of_refl | destruct r; auto].
Qed.

Arguments seq_one {X} r e R {S}.

Lemma seq_emit e S : view e = S -> seq_spec (emit e) (fun _ => True) S.
Proof.
  intros H. apply spec_emit.
  apply (seq_one (Ok tt) e (fun _ => True)); auto.
Qed.

Lemma seq_print p S :
  view (EvPrint p) = S -> seq_spec (print p) (fun _ => True) S.
Proof. apply seq_emit. Qed.

Lemma seq_lib_call c S :
  (forall ok, view (EvCall c ok) = S) ->
  seq_spec (lib_call L c) (fun _ => True) S.
Proof.
  intros H. apply spec_lib_call. intros ok.
  apply (seq_one (if ok then Ok tt else Raise LibraryError) (EvCall c ok)
           (fun _ => True)); auto.
Qed.

Lemma seq_sync S :
  (forall ok, view (EvCall CSync ok) = S) ->
  seq_spec (sync L) (fun _ => True) S.
Proof. apply seq_lib_call. Qed.

Lemma seq_time S :
  (forall t, view (EvClock t) = S) -> seq_spec (time_time L) (fun _ => True) S.
Proof.
  intros H. apply spec_time_time. intros t.
  apply (seq_one (Ok t) (EvClock t) (fun _ => True)); auto.
Qed.

Lemma seq_tokenizer p ml tr S :
  (forall r, view (EvTokenize p ml tr r) = S) ->
  seq_spec (tokenizer L p ml tr) (fun _ => True) S.
Proof.
  intros H. apply spec_tokenizer. intros w r w' _.
  apply (seq_one (of_option (option_map (@as_np scalar) r)) _
           (fun _ => True)); auto.
Qed.

Lemma seq_InferenceSession path prov S :
  (forall ok, view (EvLoadSession (Session path prov) ok) = S) ->
  seq_spec (InferenceSession L path prov) (fun s => s = Session path prov) S.
Proof.
  intros H. apply spec_InferenceSession. intros ok.
  apply (seq_one (if ok then Ok (Session path prov) else Raise LibraryError)
           _ (fun s => s = Session path prov)); auto.
  destruct ok; congruence.
Qed.

Lemma seq_sess_run s feeds S :
  (forall r, view (EvSessRun s feeds r) = S) ->
  seq_spec (sess_run L s feeds) (fun _ => True) S.
Proof.
  intros H. apply spec_sess_run. intros w r w' _.
  apply (seq_one (of_option (option_map (map (@as_np scalar)) r)) _
           (fun _ => True)); auto.
Qed.

Lemma seq_randn shape d dev S :
  (forall r, view (EvRandn shape d dev r) = S) ->
  seq_spec (torch_randn L shape d dev) (fun _ => True) S.
Proof.
  intros H. apply spec_torch_randn; [intros r|].
  - apply (seq_one (of_option (option_map (mkTensor Pt d shape) r)) _
             (fun _ => True)); auto.
  - apply (seq_one (@Raise tensor RuntimeError) _ (fun _ => True)); auto.
Qed.

Lemma seq_scale x i S :
  (forall r, view (EvScale x i r) = S) ->
  seq_spec (sched_scale_model_input L x i) (fun _ => True) S.
Proof.
  intros H. apply spec_scale. intros w r w' _.
  apply (seq_one (of_option (option_map (@as_pt scalar) r)) _
           (fun _ => True)); auto.
Qed.

Lemma seq_sched_step n l i ts S :
  (forall r, view (EvStep n l i ts r) = S) ->
  seq_spec (sched_step L n l i ts) (fun _ => True) S.
Proof.
  intros H. apply spec_step. intros w r w' _.
  apply (seq_one (of_option (option_map (@as_pt scalar) r)) _
           (fun _ => True)); auto.
Qed.

Lemma seq_set_timesteps steps S :
  (forall ok, view (EvSetTimesteps steps ok) = S) ->
  seq_spec (sched_set_timesteps L steps)
    (fun ts => exists d v, ts = set_timesteps d v steps) S.
Proof.
  intros H. apply spec_set_timesteps; [intros d v|].
  - apply (seq_one (Ok (set_timesteps d v steps)) _
             (fun ts => exists d v, ts = set_timesteps d v steps)); auto.
    intros x E. injection E as <-. eauto.
  - apply (seq_one (@Raise (list tensor) LibraryError) _
             (fun ts => exists d v, ts = set_timesteps d v steps)); auto.
    discriminate.
Qed.

Lemma seq_tqdm {X} (l : list X) S :
  view (EvProgress (length l)) = S -> seq_spec (tqdm l) (fun x => x = l) S.
Proof.
  intros H. apply spec_tqdm.
  apply (seq_one (Ok l) _ (fun x => x = l)); auto. congruence.
Qed.

Lemma seq_call_run_pipeline args S :
  (forall inner ok, view (EvRunPipeline args inner ok) = S) ->
  seq_spec (call_run_pipeline A L args) (fun _ => True) S.
Proof.
  intros H. apply spec_call_run_pipeline. intros w.
  apply (seq_one (outcome_of (run_pipeline A L args w)) _ (fun _ => True));
    auto.
Qed.

(** A loop whose body shows [B] on every round and keeps [I]. *)
Lemma seq_for_each {St X} (body : St -> X -> M St) (I : St -> Prop)
  (B : X -> list V) (l : list X) :
  (forall s x, I s -> seq_spec (body s x) I (B x)) ->
  forall s, I s -> seq_spec (for_each body l s) I (flat_map B l).
Proof.
  intros Hb. induction l as [|x l IH]; intros s Hs; simpl.
  - eapply seq_weaken; [apply seq_ret | reflexivity | now intros ? ->].
  - eapply seq_bind; [apply Hb, Hs | intros s' Hs'; apply IH, Hs'].
Qed.

End Seq.

Ltac seq_view := intros; simpl; reflexivity.

Ltac seq_prim :=
  lazymatch goal with
  | |- seq_spec _ (attr _) _ _ => eapply seq_attr
  | |- seq_spec _ (ret _) _ _ => first [eapply seq_ret | eapply seq_ret_true]
  | |- seq_spec _ (lift _) _ _ => eapply seq_lift
  | |- seq_spec _ (read_init_noise_sigma _) _ _ => eapply seq_sigma
  | |- seq_spec _ (emit _) _ _ => eapply seq_emit; seq_view
  | |- seq_spec _ (print _) _ _ => eapply seq_print; seq_view
  | |- seq_spec _ (lib_call _ _) _ _ => eapply seq_lib_call; seq_view
  | |- seq_spec _ (sync _) _ _ => eapply seq_sync; seq_view
  | |- seq_spec _ (time_time _) _ _ => eapply seq_time; seq_view
  | |- seq_spec _ (tokenizer _ _ _ _) _ _ => eapply seq_tokenizer; seq_view
  | |- seq_spec _ (InferenceSession _ _ _) _ _ =>
      eapply seq_InferenceSession; seq_view
  | |- seq_spec _ (sess_run _ _ _) _ _ => eapply seq_sess_run; seq_view
  | |- seq_spec _ (torch_randn _ _ _ _) _ _ => eapply seq_randn; seq_view
  | |- seq_spec _ (sched_scale_model_input _ _ _) _ _ =>
      eapply seq_scale; seq_view
  | |- seq_spec _ (sched_step _ _ _ _ _) _ _ =>
      eapply seq_sched_step; seq_view
  | |- seq_spec _ (sched_set_timesteps _ _) _ _ =>
      eapply seq_set_timesteps; seq_view
  | |- seq_spec _ (tqdm _) _ _ => eapply seq_tqdm; seq_view
  | |- seq_spec _ (call_run_pipeline _ _ _) _ _ =>
      eapply seq_call_run_pipeline; seq_view
  end.

(** Walk through a chain of [bind]s; a fact [o = Some x] or [x = v] about a
    bound value is used to replace it. *)
Ltac seq_intro :=
  let x := fresh "x" in
  let Hx := fresh "Hx" in
  intros x Hx; cbv beta in Hx;
  try match type of Hx with
      | ?o = Some _ =>
          match goal with
          | H : o = Some _ |- _ => rewrite H in Hx; injection Hx as <-
          end
      | x = _ => subst x
      end;
  split_pairs.

Ltac seq_go :=
  repeat lazymatch goal with
         | |- seq_spec _ (bind _ _) _ _ =>
             eapply seq_bind; [ seq_prim | seq_intro ]
         | |- seq_spec _ _ _ _ => seq_prim
         end.

(** The same through nested [bind]s. *)
Ltac seq_run :=
  lazymatch goal with
  | |- seq_spec _ (bind _ _) _ _ =>
      eapply seq_bind; [ seq_run | seq_intro; seq_run ]
  | |- seq_spec _ _ _ _ => seq_prim
  end.

(** ** The stages of a run *)

Lemma encode_prompts_stages args clip :
  clip_sess args = Some clip ->
  seq_spec stage_of (encode_prompts A L args) (fun _ => True)
    (encode_stages args clip).
Proof.
  intros Hc. unfold encode_prompts.
  eapply seq_weaken; [seq_go | reflexivity | auto].
Qed.

Lemma denoise_step_stages args unet te lat it :
  unet_sess args = Some unet ->
  seq_spec stage_of (denoise_step A L args te lat it) (fun _ => True)
    [StScale; StRun unet; StStep].
Proof.
  intros Hu. unfold denoise_step. destruct it as [i ts].
  eapply seq_weaken; [seq_go | reflexivity | auto].
Qed.

Lemma enumerate_length {X} (l : list X) : length (enumerate l) = length l.
Proof.
  unfold enumerate. rewrite length_combine, length_seq. apply Nat.min_id.
Qed.

Lemma flat_map_const {X Y} (b : list Y) (l : list X) :
  flat_map (fun _ => b) l = concat (repeat b (length l)).
Proof. induction l as [|x l IH]; simpl; [|rewrite IH]; reflexivity. Qed.

Lemma denoise_loop_stages args unet te items lat :
  unet_sess args = Some unet ->
  seq_spec stage_of
    (for_each (denoise_step A L args te) (enumerate items) lat)
    (fun _ => True) (denoise_stages unet (length items)).
Proof.
  intros Hu. eapply seq_weaken.
  - apply (@seq_for_each _ stage_of _ _ _ (fun _ => True)
             (fun _ => [StScale; StRun unet; StStep])); [|exact I].
    intros s x _. apply denoise_step_stages, Hu.
  - rewrite flat_map_const, enumerate_length. reflexivity.
  - auto.
Qed.

Lemma report_stages_spec args images t1 t2 t3 t4 t5 t6 t7 t8 is_warmup :
  seq_spec stage_of
    (if negb is_warmup
     then report L args images t1 t2 t3 t4 t5 t6 t7 t8
     else ret tt)
    (fun _ => True) (report_stages is_warmup).
Proof.
  destruct is_warmup; simpl.
  - apply seq_ret_true.
  - unfold report. eapply seq_weaken; [seq_go | reflexivity | auto].
Qed.

Lemma run_pipeline_stages args clip unet vae is_warmup :
  clip_sess args = Some clip ->
  unet_sess args = Some unet ->
  vae_sess args = Some vae ->
  warmup args = Some is_warmup ->
  seq_spec stage_of (run_pipeline A L args) (fun _ => True)
    (pipeline_stages args clip unet vae is_warmup).
Proof.
  intros Hc Hu Hv Hw. unfold run_pipeline.
  eapply seq_weaken;
    [ repeat lazymatch goal with
             | |- seq_spec _ (bind (encode_prompts _ _ _) _) _ _ =>
                 eapply seq_bind;
                 [ apply (encode_prompts_stages _ Hc) | seq_intro ]
             | |- seq_spec _ (bind (for_each _ _ _) _) _ _ =>
                 eapply seq_bind;
                 [ apply (denoise_loop_stages _ _ _ _ Hu) | seq_intro ]
             | |- seq_spec _ (bind _ _) _ _ =>
                 eapply seq_bind; [ seq_prim | seq_intro ]
             | |- seq_spec _ (if _ then _ else _) _ _ =>
                 apply report_stages_spec
             end
    | reflexivity | auto ].
Qed.

(** C5. A run of [run_pipeline] goes through its stages in one order:
    tokenizer and CLIP session on the prompt, tokenizer and CLIP session on
    the negative prompt, then per timestep [scale_model_input], UNet session,
    [scheduler.step], then the VAE session, and, unless the run is a warm-up,
    nine [print]s of the latency table followed by [save_image].  A run that
    returns shows exactly this sequence; a run that raises shows a prefix of
    it. *)
Theorem pipeline_stage_order (args : Args) (w : World)
  (clip unet vae : session) (is_warmup : bool) :
  clip_sess args = Some clip ->
  unet_sess args = Some unet ->
  vae_sess args = Some vae ->
  warmup args = Some is_warmup ->
  prefix_of (stages (trace_of (run_pipeline A L args w)))
    (pipeline_stages args clip unet vae is_warmup)
  /\ (is_ok (outcome_of (run_pipeline A L args w)) = true ->
      stages (trace_of (run_pipeline A L args w))
      = pipeline_stages args clip unet vae is_warmup).
Proof.
  intros Hc Hu Hv Hw.
  destruct (@run_pipeline_stages args clip unet vae is_warmup Hc Hu Hv Hw w)
    as [Hp Hr].
  split; [exact Hp|].
  destruct (outcome_of (run_pipeline A L args w)); [|discriminate].
  intros _. apply Hr.
Qed.

(** ** The shape of [main] *)

Lemma np_zeros_ok shape d x :
  np_zeros A shape d = Ok x -> x = zeros_tensor shape d.
Proof.
  unfold np_zeros. destruct (forallb _ shape); [|discriminate].
  intros E. injection E as <-. reflexivity.
Qed.

Lemma get_args_view cli :
  seq_spec main_view (get_args L cli)
    (fun a => exists k d v,
       a = base_args cli k (set_timesteps d v (cli_denoising_steps cli))) [].
Proof.
  unfold get_args.
  eapply (@seq_bind _ main_view _ _ _ _ (fun _ => True) _ [] []);
    [seq_prim | intros _ _].
  eapply (@seq_bind _ main_view _ _ _ _
            (fun ts => exists d v,
                 ts = set_timesteps d v (cli_denoising_steps cli)) _ [] []);
    [seq_prim | intros ts (d & v & ->)].
  eapply (@seq_bind _ main_view _ _ _ _ (fun _ => True) _ [] []);
    [seq_prim | intros _ _].
  apply seq_ret_any. unfold base_args. eauto.
Qed.

Lemma load_models_view a0 :
  seq_spec main_view (load_models A L a0) (fun a => a = loaded a0) (load_view a0).
Proof.
  unfold load_models.
  eapply seq_weaken.
  - repeat lazymatch goal with
           | |- seq_spec _ (bind (lift (np_zeros _ _ _)) _) _ _ =>
               eapply seq_bind;
               [ seq_prim
               | let x := fresh "z" in
                 let H := fresh "Hz" in
                 intros x H; apply np_zeros_ok in H; subst x ]
           | |- seq_spec _ (bind _ _) _ _ =>
               eapply seq_bind; [ seq_prim | seq_intro ]
           | |- seq_spec _ _ _ _ => seq_prim
           end.
  - reflexivity.
  - intros a ->. reflexivity.
Qed.

Lemma range_length n : length (range n) = Z.to_nat n.
Proof. unfold range. now rewrite length_map, length_seq. Qed.

Lemma concat_repeat_single {X} (x : X) n : concat (repeat [x] n) = repeat x n.
Proof. induction n as [|n IH]; simpl; [|rewrite IH]; reflexivity. Qed.

Lemma warm_up_view a :
  seq_spec main_view (warm_up A L a) (fun _ => True)
    (repeat (MRun a) (Z.to_nat (num_warmup_runs a))).
Proof.
  unfold warm_up.
  eapply seq_weaken.
  - eapply seq_bind; [seq_prim | seq_intro].
    eapply seq_bind; [seq_prim | seq_intro].
    apply (@seq_for_each _ main_view _ _ _ (fun _ => True)
             (fun _ => [MRun a])); [|exact I].
    intros s0 r0 _. seq_prim.
  - simpl. rewrite flat_map_const, range_length, concat_repeat_single.
    reflexivity.
  - auto.
Qed.

Lemma measure_batch_view a0 s bs :
  measuring a0 s ->
  seq_spec main_view
    (measure_batch A L (prompt a0) (negative_prompt a0) s bs)
    (measuring a0) (measure_view a0 bs).
Proof.
  intros Hs. unfold measure_batch, measure_memory.
  change (set_negative_prompt _ _) with (measure_state a0 s bs).
  rewrite (Hs bs).
  eapply seq_weaken.
  - seq_run.
  - reflexivity.
  - intros a ->. intros bs'. reflexivity.
Qed.

Lemma main_body_view a0 :
  seq_spec main_view
    (bind (print (PArgs a0))
       (fun _ =>
          bind (emit (EvSetEnv "ORT_TENSORRT_FP16_ENABLE" "1"))
            (fun _ =>
               bind (load_models A L a0)
                 (fun args =>
                    bind (warm_up A L (set_warmup args true))
                      (fun _ =>
                         bind (for_each
                                 (measure_batch A L
                                    (prompt (set_warmup args false))
                                    (negative_prompt (set_warmup args false)))
                                 batch_sizes (set_warmup args false))
                           (fun _ => ret tt))))))
    (fun _ => True) (main_expected a0).
Proof.
  eapply seq_weaken.
  - eapply seq_bind; [seq_prim | seq_intro].
    eapply seq_bind; [seq_prim | seq_intro].
    eapply seq_bind; [apply load_models_view | intros args ->].
    eapply seq_bind; [apply warm_up_view | seq_intro].
    eapply seq_bind; [|intros; apply seq_ret_true].
    apply (@seq_for_each _ main_view _ _ _ (measuring a0) (measure_view a0)).
    + intros s0 bs0 Hs. apply (measure_batch_view bs0 Hs).
    + intros bs. reflexivity.
  - unfold main_expected. simpl. reflexivity.
  - auto.
Qed.

(** The view of every run of [main]: for the arguments [a0] that
    [get_args] returned, a prefix of [main_expected a0], and all of it when
    [main] returns. *)
Lemma main_view_spec cli w :
  exists k d v,
    let a0 := base_args cli k (set_timesteps d v (cli_denoising_steps cli)) in
    prefix_of (flat_map main_view (trace_of (main A L cli w)))
      (main_expected a0)
    /\ (is_ok (outcome_of (main A L cli w)) = true ->
        flat_map main_view (trace_of (main A L cli w)) = main_expected a0).
Proof.
  revert w. change (spec (main A L cli) (fun r t =>
    exists k d v,
      let a0 := base_args cli k (set_timesteps d v (cli_denoising_steps cli)) in
      prefix_of (flat_map main_view t) (main_expected a0)
      /\ (is_ok r = true -> flat_map main_view t = main_expected a0))).
  unfold main. apply spec_bind.
  eapply spec_conseq; [apply get_args_view|].
  intros [a|e] t [Hp Hr].
  - destruct Hr as [Ht (k & d & v & ->)].
    eapply spec_conseq; [apply main_body_view|].
    intros r2 t2 [Hp2 Hr2]. exists k, d, v. cbv zeta.
    rewrite flat_map_app, Ht. simpl. split; [exact Hp2|].
    destruct r2; [intros _; apply Hr2 | discriminate].
  - exists LMSD, Int32, (fun _ => zero A). cbv zeta.
    destruct Hp as [c Hc]. symmetry in Hc. apply app_eq_nil in Hc.
    destruct Hc as [-> _]. split; [apply prefix_of_nil | discriminate].
Qed.

(** ** Consequences for the runs that [main] starts *)

Lemma prefix_of_flat_map {X Y} (g : X -> list Y) (a b : list X) :
  prefix_of a b -> prefix_of (flat_map g a) (flat_map g b).
Proof. intros [c ->]. exists (flat_map g c). apply flat_map_app. Qed.

Lemma flat_map_flat_map {X Y Z'} (f : X -> list Y) (g : Y -> list Z')
  (l : list X) :
  flat_map g (flat_map f l) = flat_map (fun x => flat_map g (f x)) l.
Proof.
  induction l as [|x l IH]; simpl; [reflexivity|].
  now rewrite flat_map_app, IH.
Qed.

Lemma flat_map_repeat_nil {X Y} (g : X -> list Y) (x : X) n :
  g x = [] -> flat_map g (repeat x n) = [].
Proof. intros H. induction n as [|n IH]; simpl; [|rewrite H, IH]; auto. Qed.

Lemma flat_map_repeat_single {X Y} (g : X -> list Y) (x : X) (y : Y) n :
  g x = [y] -> flat_map g (repeat x n) = repeat y n.
Proof. intros H. induction n as [|n IH]; simpl; [|rewrite H, IH]; auto. Qed.

Lemma In_prefix_of {X} (x : X) (a b : list X) :
  prefix_of a b -> In x a -> In x b.
Proof. intros [c ->] H. apply in_or_app. now left. Qed.

(** Where an element with [P] sits in [d ++ r] when nothing in [d] has [P]. *)
Lemma split_after {X} (P : X -> Prop) (d r l1 l2 : list X) (x : X) :
  Forall (fun y => ~ P y) d -> P x ->
  l1 ++ x :: l2 = d ++ r ->
  exists l1', l1 = d ++ l1' /\ r = l1' ++ x :: l2.
Proof.
  revert l1. induction d as [|y d IH]; intros l1 Hd Hx E; simpl in *.
  - exists l1. auto.
  - inversion Hd as [|? ? Hy Hd']; subst.
    destruct l1 as [|z l1]; simpl in E.
    + injection E as -> _. contradiction.
    + injection E as -> E. destruct (IH l1 Hd' Hx E) as (l1' & -> & ->).
      exists l1'. auto.
Qed.

Lemma emits_call_run_pipeline P args :
  (forall w, P [EvRunPipeline args (trace_of (run_pipeline A L args w))
                  (is_ok (outcome_of (run_pipeline A L args w)))]) ->
  emits P (call_run_pipeline A L args).
Proof. intros H. apply spec_call_run_pipeline. exact H. Qed.

Lemma main_runs_recorded cli : emits (Forall run_recorded) (main A L cli).
Proof.
  pose proof (Forall_Closed run_recorded) as HC.
  assert (Hrun : forall a, emits (Forall run_recorded)
                             (call_run_pipeline A L a)).
  { intros a. apply emits_call_run_pipeline. intros w.
    repeat constructor. simpl. eauto. }
  unfold main.
  apply (emits_bind HC); [unfold get_args; emits_go HC | intros a0].
  apply (emits_bind HC); [emits_prim HC; single | intros _].
  apply (emits_bind HC); [emits_prim HC; single | intros _].
  apply (emits_bind HC); [unfold load_models; emits_go HC | intros a1].
  apply (emits_bind HC).
  { unfold warm_up.
    apply (emits_bind HC); [emits_prim HC; single | intros _].
    apply (emits_bind HC); [emits_prim HC; single | intros runs].
    apply (emits_for_each HC). intros _ _. apply Hrun. }
  intros _.
  apply (emits_bind HC); [|intros; apply (emits_ret HC)].
  apply (emits_for_each HC). intros s bs. unfold measure_batch, measure_memory.
  emits_run HC ltac:(apply Hrun).
Qed.

Lemma runs_of_main_expected a0 a :
  In (MRun a) (main_expected a0) ->
  a = warm_args a0 \/ exists bs, In bs batch_sizes /\ a = measured_args a0 bs.
Proof.
  unfold main_expected. rewrite !in_app_iff. intros [H|[H|H]].
  - simpl in H. repeat destruct H as [H|H]; try discriminate; contradiction.
  - apply repeat_spec in H. injection H as ->. now left.
  - right. apply in_flat_map in H. destruct H as (bs & Hbs & H).
    exists bs. split; [exact Hbs|].
    simpl in H. repeat destruct H as [H|H]; try discriminate;
      try contradiction; injection H as ->; reflexivity.
Qed.

(** Every run of the pipeline in the trace of [main] is a recorded run of
    [run_pipeline], on the warm-up arguments or on the arguments of a round
    of the measurement loop. *)
Lemma runs_of_main cli w a inner ok :
  In (EvRunPipeline a inner ok) (trace_of (main A L cli w)) ->
  (exists w', inner = trace_of (run_pipeline A L a w')
              /\ ok = is_ok (outcome_of (run_pipeline A L a w')))
  /\ exists k d v,
       let a0 := base_args cli k
                   (set_timesteps d v (cli_denoising_steps cli)) in
       a = warm_args a0
       \/ exists bs, In bs batch_sizes /\ a = measured_args a0 bs.
Proof.
  intros Hin. split.
  - pose proof (main_runs_recorded cli w) as HF. simpl in HF.
    rewrite Forall_forall in HF. apply (HF _ Hin).
  - destruct (main_view_spec cli w) as (k & d & v & Hp & _).
    exists k, d, v. cbv zeta in *. apply runs_of_main_expected.
    eapply In_prefix_of; [exact Hp|].
    apply in_flat_map. eexists. split; [exact Hin|]. simpl. auto.
Qed.

(** ** Counting the runs of the UNet session *)

Lemma runs_of_stages s t :
  runs_of s t = length (filter (stage_is_run s) (stages t)).
Proof.
  unfold runs_of, stages. induction t as [|e t IH]; simpl; [reflexivity|].
  rewrite filter_app, length_app, <- IH.
  destruct e; simpl; try reflexivity.
  - destruct c; reflexivity.
  - destruct (session_eq_dec s s0); reflexivity.
Qed.

Lemma steps_of_stages t :
  steps_of t = length (filter stage_is_step (stages t)).
Proof.
  unfold steps_of, stages. induction t as [|e t IH]; simpl; [reflexivity|].
  rewrite filter_app, length_app, <- IH.
  destruct e; simpl; try reflexivity.
  destruct c; reflexivity.
Qed.

Lemma filter_repeat_false {X} (f : X -> bool) (x : X) n :
  f x = false -> filter f (repeat x n) = [].
Proof. intros H. induction n as [|n IH]; simpl; [|rewrite H]; auto. Qed.

Lemma count_denoise_stages (f : stage -> bool) unet n :
  f StScale = false -> f (StRun unet) = true -> f StStep = false ->
  length (filter f (denoise_stages unet n)) = n.
Proof.
  intros H1 H2 H3. unfold denoise_stages.
  induction n as [|n IH]; simpl; [reflexivity|].
  rewrite H1, H2, H3. simpl. now rewrite IH.
Qed.

Lemma count_steps_denoise_stages unet n :
  length (filter stage_is_step (denoise_stages unet n)) = n.
Proof.
  unfold denoise_stages. induction n as [|n IH]; simpl; [reflexivity|].
  now rewrite IH.
Qed.

Lemma unet_runs_of_pipeline_stages args clip unet vae is_warmup :
  clip <> unet -> vae <> unet ->
  length (filter (stage_is_run unet)
            (pipeline_stages args clip unet vae is_warmup))
  = length (timesteps (sched args)).
Proof.
  intros Hc Hv. unfold pipeline_stages, encode_stages, report_stages.
  rewrite !filter_app, !length_app.
  rewrite count_denoise_stages; simpl.
  - destruct (session_eq_dec unet clip) as [E|_]; [congruence|].
    destruct (session_eq_dec unet vae) as [E|_]; [congruence|].
    destruct is_warmup; simpl; lia.
  - reflexivity.
  - destruct (session_eq_dec unet unet); congruence.
  - reflexivity.
Qed.

Lemma steps_of_pipeline_stages args clip unet vae is_warmup :
  length (filter stage_is_step
            (pipeline_stages args clip unet vae is_warmup))
  = length (timesteps (sched args)).
Proof.
  unfold pipeline_stages, encode_stages, report_stages.
  rewrite !filter_app, !length_app, count_steps_denoise_stages.
  destruct is_warmup; simpl; lia.
Qed.

Lemma set_timesteps_length d (v : nat -> scalar) steps :
  length (set_timesteps d v steps) = Z.to_nat steps.
Proof. unfold set_timesteps. now rewrite length_map, length_seq. Qed.

(** C2. In every run of the pipeline that [main] starts and that returns,
    [scheduler.step] is called once per entry of [scheduler.timesteps] and
    the UNet session is run as often; [set_timesteps], called by [get_args],
    left [denoising_steps] entries there, so the UNet session is run
    [denoising_steps] times ([range]-like: none for a negative number). *)
Theorem unet_runs_once_per_step (cli : CliArgs scalar) (w : World)
  (a : Args) (inner : list event) :
  In (EvRunPipeline a inner true) (trace_of (main A L cli w)) ->
  unet_sess a = Some unet_session
  /\ denoising_steps a = cli_denoising_steps cli
  /\ length (timesteps (sched a)) = Z.to_nat (denoising_steps a)
  /\ steps_of inner = length (timesteps (sched a))
  /\ runs_of unet_session inner = Z.to_nat (denoising_steps a).
Proof.
  intros Hin.
  destruct (runs_of_main _ _ _ _ _ Hin)
    as [(w' & -> & Hok) (k & d & v & Ha)].
  cbv zeta in Ha.
  assert (Hs : clip_sess a = Some clip_session
               /\ unet_sess a = Some unet_session
               /\ vae_sess a = Some vae_session
               /\ denoising_steps a = cli_denoising_steps cli
               /\ sched a = Build_scheduler k
                              (set_timesteps d v (cli_denoising_steps cli))
               /\ exists b, warmup a = Some b).
  { destruct Ha as [->|(bs & _ & ->)]; simpl; repeat split; eauto. }
  destruct Hs as (Hc & Hu & Hv & Hd & Hsch & (b & Hw)).
  assert (Hlen : length (timesteps (sched a)) = Z.to_nat (denoising_steps a)).
  { rewrite Hsch, Hd. simpl. apply set_timesteps_length. }
  destruct (@run_pipeline_stages a _ _ _ _ Hc Hu Hv Hw w') as [_ Hr].
  destruct (outcome_of (run_pipeline A L a w')); [|discriminate].
  destruct Hr as [Hr _]. fold (stages (trace_of (run_pipeline A L a w'))) in Hr.
  repeat split; auto.
  - rewrite steps_of_stages, Hr. apply steps_of_pipeline_stages.
  - rewrite runs_of_stages, Hr, <- Hlen.
    apply unet_runs_of_pipeline_stages; discriminate.
Qed.

(** ** Sessions, warm-up and measurement in [main] *)

Lemma flat_map_via_main_view {Y} (f : event -> list Y) (g : mevent -> list Y)
  (t : list event) :
  (forall e, f e = flat_map g (main_view e)) ->
  flat_map f t = flat_map g (flat_map main_view t).
Proof.
  intros H. rewrite flat_map_flat_map. apply flat_map_ext. exact H.
Qed.

(** Transfer of [main_view_spec] to a coarser view [f] that factors through
    [main_view] by [g]. *)
Lemma main_coarse_view {Y} (f : event -> list Y) (g : mevent -> list Y)
  (expected : CliArgs scalar -> list Y) cli w :
  (forall e, f e = flat_map g (main_view e)) ->
  (forall k ts, flat_map g (main_expected (base_args cli k ts)) = expected cli) ->
  prefix_of (flat_map f (trace_of (main A L cli w))) (expected cli)
  /\ (is_ok (outcome_of (main A L cli w)) = true ->
      flat_map f (trace_of (main A L cli w)) = expected cli).
Proof.
  intros Hf He. destruct (main_view_spec cli w) as (k & d & v & Hp & Hok).
  cbv zeta in *. rewrite (flat_map_via_main_view f g _ Hf). split.
  - rewrite <- (He k (set_timesteps d v (cli_denoising_steps cli))).
    apply prefix_of_flat_map, Hp.
  - intros H. rewrite (Hok H). apply He.
Qed.

(** *** Sessions *)

Lemma mload_of_runs a0 :
  flat_map mload_of (warm_view a0 ++ flat_map (measure_view a0) batch_sizes)
  = [].
Proof.
  rewrite flat_map_app. unfold warm_view.
  rewrite flat_map_repeat_nil by reflexivity. reflexivity.
Qed.


(** *** Warm-up *)

(** C6. In the trace of [main], the session runs of [main] itself and the
    runs of the pipeline come in this order: the CLIP, UNet and VAE sessions
    once each on arrays of zeros shaped for batch size 1, then
    [num_warmup_runs] runs of the pipeline ([range]-like: none for a negative
    number) with [args.warmup] set to [True], then the measured runs, all
    with [args.warmup] set to [False].  A [main] that returns shows all of
    this, a [main] that raises a prefix of it. *)
Theorem warmup_precedes_measurement (cli : CliArgs scalar) (w : World) :
  prefix_of (flat_map warmup_view (trace_of (main A L cli w)))
    (warmup_expected cli)
  /\ (is_ok (outcome_of (main A L cli w)) = true ->
      flat_map warmup_view (trace_of (main A L cli w)) = warmup_expected cli).
Proof.
  apply (@main_coarse_view _ warmup_view mwarmup_view warmup_expected cli w).
  - intros e. destruct e; reflexivity.
  - intros k ts. unfold main_expected, warmup_expected.
    rewrite !flat_map_app. unfold warm_view.
    rewrite flat_map_repeat_single with (y := WRun (Some true))
      by reflexivity.
    reflexivity.
Qed.

(** *** Measurement *)

(** C4. After the warm-up runs, [main] goes through the batch sizes 1, 2,
    4, 8, 16 in this order, and for each of them runs the pipeline once (the
    latency run, with [args.warmup] set to [False]) and then once more
    inside [measure_memory].  A [main] that returns shows all of this, a
    [main] that raises a prefix of it. *)
Theorem measurement_order (cli : CliArgs scalar) (w : World) :
  prefix_of (flat_map measurement_view (trace_of (main A L cli w)))
    (measurement_expected cli)
  /\ (is_ok (outcome_of (main A L cli w)) = true ->
      flat_map measurement_view (trace_of (main A L cli w))
      = measurement_expected cli).
Proof.
  apply (@main_coarse_view _ measurement_view mmeasurement_view
           measurement_expected cli w).
  - intros e. destruct e; simpl; try reflexivity.
    destruct (warmup a) as [[|]|]; reflexivity.
  - intros k ts. unfold main_expected, measurement_expected.
    rewrite !flat_map_app. unfold warm_view.
    rewrite flat_map_repeat_single with (y := WarmRun) by reflexivity.
    reflexivity.
Qed.

(** *** Prompts of the measured runs *)

Lemma map_const_repeat {X Y} (y : Y) (l : list X) :
  map (fun _ => y) l = repeat y (length l).
Proof. induction l as [|x l IH]; simpl; [|rewrite IH]; reflexivity. Qed.

(** C10. In every run of the pipeline that [main] starts with
    [args.warmup] set to [False], [args.batch_size] is one of 1, 2, 4, 8, 16,
    [args.prompt] is the list of [batch_size] copies of the [--prompt]
    string, and [args.negative_prompt] is the original negative prompt
    multiplied by [batch_size]: for the default [['']], the list of
    [batch_size] empty strings.  So the tokenizer is handed [batch_size]
    prompts. *)
Theorem measured_prompts (cli : CliArgs scalar) (w : World)
  (a : Args) (inner : list event) (ok : bool) :
  In (EvRunPipeline a inner ok) (trace_of (main A L cli w)) ->
  warmup a = Some false ->
  In (batch_size a) [1; 2; 4; 8; 16]
  /\ prompt a = PList (repeat (PStr (cli_prompt cli)) (Z.to_nat (batch_size a)))
  /\ negative_prompt a
     = prompt_mul (match cli_negative_prompt cli with
                   | Some s => PStr s
                   | None => PList [PStr ""]
                   end) (batch_size a)
  /\ prompt_count (prompt a) = batch_size a
  /\ (cli_negative_prompt cli = None ->
      negative_prompt a = PList (repeat (PStr "") (Z.to_nat (batch_size a)))
      /\ prompt_count (negative_prompt a) = batch_size a).
Proof.
  intros Hin Hw.
  destruct (runs_of_main _ _ _ _ _ Hin) as [_ (k & d & v & Ha)].
  cbv zeta in Ha. destruct Ha as [->|(bs & Hbs & ->)]; [discriminate|].
  assert (Hp : prompt (measured_args
                         (base_args cli k
                            (set_timesteps d v (cli_denoising_steps cli))) bs)
               = PList (repeat (PStr (cli_prompt cli)) (Z.to_nat bs))).
  { simpl. rewrite map_const_repeat, range_length. reflexivity. }
  split; [exact Hbs|]. split; [exact Hp|]. split; [reflexivity|].
  split.
  - rewrite Hp. simpl. rewrite repeat_length.
    change (batch_size _) with bs.
    simpl in Hbs. lia.
  - intros Hn. simpl. rewrite Hn. simpl.
    simpl in Hbs.
    repeat destruct Hbs as [<-|Hbs]; try contradiction;
      split; reflexivity.
Qed.

(** ** Shapes and element types of the UNet feeds *)

Lemma unpack3_ok (s : list Z) a b c : unpack3 s = Ok (a, b, c) -> s = [a; b; c].
Proof.
  destruct s as [|x [|y [|z [|? ?]]]]; simpl; try discriminate.
  intros E. injection E as -> -> ->. reflexivity.
Qed.

Lemma torch_repeat_1k1_shape (t x : tensor) k a b c :
  torch_repeat_1k1 t k = Ok x -> t_shape t = [a; b; c] ->
  t_shape x = [a; b * k; c] /\ 0 <= k.
Proof.
  unfold torch_repeat_1k1. intros E Hs. rewrite Hs in E. simpl in E.
  destruct (k <? 0) eqn:Hk; [discriminate|].
  injection E as <-. split; [reflexivity | lia].
Qed.

Lemma torch_view3_shape (t x : tensor) s0 s1 :
  torch_view3 t s0 s1 = Ok x ->
  t_shape x = [s0; s1; numel (t_shape t) / (s0 * s1)]
  /\ s0 * s1 <> 0
  /\ numel (t_shape t) mod (s0 * s1) = 0.
Proof.
  unfold torch_view3.
  destruct ((s0 <? 0) || (s1 <? 0)); [discriminate|].
  destruct (s0 * s1 =? 0) eqn:Hp; [discriminate|].
  destruct (numel (t_shape t) mod (s0 * s1) =? 0) eqn:Hm; [|discriminate].
  intros E. injection E as <-. repeat split; lia.
Qed.

Lemma torch_cat_pair_shape (a b x : tensor) :
  torch_cat A [a; b] = Ok x ->
  exists na nb r,
    t_shape a = na :: r /\ t_shape b = nb :: r /\ t_shape x = na + nb :: r.
Proof.
  unfold torch_cat. simpl.
  destruct (t_shape a) as [|na ra] eqn:Ea; [discriminate|].
  unfold cat2. rewrite Ea.
  destruct (t_shape b) as [|nb rb]; [discriminate|].
  destruct (shape_eqb ra rb) eqn:E; [|discriminate].
  apply shape_eqb_eq in E. subst rb.
  intros H. injection H as <-. exists na, nb, ra. auto.
Qed.

Lemma item0_map_as_np (outs : list tensor) x :
  item0 (map (@as_np scalar) outs) = Ok x ->
  exists o rest, outs = o :: rest /\ x = as_np o.
Proof.
  destruct outs as [|o rest]; simpl; [discriminate|].
  intros E. injection E as <-. eauto.
Qed.

(** The cancellation behind the batch bookkeeping: if viewing the
    unconditional embeddings [nn x (l2*ni) x hidden] with [bs*ni] rows of
    length [l2] leaves as many features per token as the text embeddings
    have, then [nn = bs]. *)
Lemma rows_from_features np nn bs ni l1 l2 hidden :
  0 < hidden ->
  np * ni * l1 <> 0 ->
  bs * ni * l2 <> 0 ->
  numel [nn; l2 * ni; hidden] mod (bs * ni * l2) = 0 ->
  numel [nn; l2 * ni; hidden] / (bs * ni * l2)
  = numel [np; l1 * ni; hidden] / (np * ni * l1) ->
  nn = bs.
Proof.
  intros Hh Hp1 Hp2 Hm He. unfold numel in *. simpl in *.
  replace (np * (l1 * ni * (hidden * 1))) with (hidden * (np * ni * l1)) in He
    by ring.
  rewrite Z.div_mul in He by exact Hp1.
  apply Z.div_exact in Hm; [|exact Hp2]. rewrite He in Hm.
  assert (E : (nn - bs) * (ni * l2 * hidden) = 0) by lia.
  apply Z.mul_eq_0 in E. destruct E as [E|E]; [lia|].
  exfalso. apply Z.mul_eq_0 in E. destruct E as [E|E]; [|lia].
  apply Hp2. rewrite <- Z.mul_assoc, E. ring.
Qed.

Lemma clip_is_not_unet : clip_session <> unet_session.
Proof. discriminate. Qed.

Lemma vae_is_not_unet : vae_session <> unet_session.
Proof. discriminate. Qed.

Section Feeds.

(** What is assumed of the libraries: the tokenizer returns one row of
    token ids per prompt; the CLIP session maps [n] rows of [l] ids to
    [n x l x hidden] embeddings; the scheduler keeps the shape of the tensor
    it scales and of the latents it steps. *)
Variable hidden : Z.
Hypothesis hidden_pos : 0 < hidden.
Hypothesis tokenizer_shape :
  forall p ml tr w t w',
    tokenize L p ml tr w = (Some t, w') ->
    exists l, t_shape t = [prompt_count p; l].
Hypothesis clip_shape :
  forall ids w outs w' n l,
    session_run L clip_session [("input_ids", ids)] w = (Some outs, w') ->
    t_shape ids = [n; l] ->
    exists o rest, outs = o :: rest /\ t_shape o = [n; l; hidden].
Hypothesis scale_shape :
  forall x i w y w',
    scale_model_input L x i w = (Some y, w') -> t_shape y = t_shape x.
Hypothesis step_shape :
  forall n l i ts w y w',
    scheduler_step L n l i ts w = (Some y, w') -> t_shape y = t_shape l.

Ltac feeds_trivial :=
  repeat (apply Forall_cons || apply Forall_nil);
  simpl; try exact I;
  try (intros Hs; exfalso; revert Hs;
       first [ apply clip_is_not_unet | apply vae_is_not_unet ]).

Lemma encode_prompts_feeds a :
  clip_sess a = Some clip_session ->
  (prompt_count (prompt a) = batch_size a
   \/ prompt_count (prompt a) = prompt_count (negative_prompt a)) ->
  spec (encode_prompts A L a)
    (fun r t =>
       Forall (feeds_ok a) t
       /\ match r with
          | Ok te => exists rest,
                       t_shape te = 2 * batch_size a * num_images a :: rest
          | Raise _ => True
          end).
Proof.
  intros Hc Hcount. unfold encode_prompts. rewrite Hc.
  repeat spec_step; cbn [app]; (split; [feeds_trivial|]); try exact I.
  (* the run that returns: follow the shapes *)
  match goal with
  | H : tokenize L (prompt a) _ _ _ = _ |- _ =>
      destruct (tokenizer_shape _ _ _ _ H) as [l1 Hids1]
  end.
  match goal with
  | H : tokenize L (negative_prompt a) _ _ _ = _ |- _ =>
      destruct (tokenizer_shape _ _ _ _ H) as [l2 Hids2]
  end.
  repeat match goal with
         | H : session_run L clip_session [(_, astype A (as_np ?t) Int32)] _
               = _, Ht : t_shape ?t = [?n; ?l] |- _ =>
             let o := fresh "o" in
             let rest := fresh "rest" in
             let Ho := fresh "Ho" in
             destruct (clip_shape _ _ H Ht) as (o & rest & -> & Ho);
             clear H
         end.
  repeat match goal with
         | H : item0 (map _ (_ :: _)) = Ok _ |- _ =>
             simpl in H; injection H as <-
         end.
  repeat match goal with
         | H : context [t_shape (to_pt A _ _)] |- _ =>
             rewrite to_pt_shape in H; cbn [as_np t_shape] in H
         end.
  repeat match goal with
         | H : torch_repeat_1k1 _ _ = Ok _ |- _ =>
             eapply torch_repeat_1k1_shape in H;
             [|rewrite to_pt_shape; cbn [as_np t_shape]; eassumption]
         end.
  match goal with
  | H : unpack3 (t_shape ?o) = Ok _, Ho : t_shape ?o = _ |- _ =>
      rewrite Ho in H; simpl in H; injection H as <- <- <-
  end.
  match goal with
  | H : shape_at (t_shape ?o) 1 = Ok _, Ho : t_shape ?o = _ |- _ =>
      rewrite Ho in H; simpl in H; injection H as <-
  end.
  repeat match goal with
         | H : torch_view3 ?x _ _ = Ok _, Hx : t_shape ?x = _ /\ _ |- _ =>
             apply torch_view3_shape in H; destruct Hx as [Hx _];
             rewrite Hx in H
         end.
  match goal with
  | H : torch_cat A [?u; ?v] = Ok _,
    Hu : t_shape ?u = _ /\ _ /\ _, Hv : t_shape ?v = _ /\ _ /\ _ |- _ =>
      apply torch_cat_pair_shape in H;
      destruct H as (na & nb & r & Eu & Ev & Ex);
      destruct Hu as (Su & Pu & Mu); destruct Hv as (Sv & Pv & Mv);
      rewrite Su in Eu; rewrite Sv in Ev;
      injection Ev as <- <-; injection Eu as <- E2 E3
  end.
  assert (Hshape : forall x : tensor,
            t_shape (if String.eqb (denoising_prec a) "fp16"
                     then astype A x Float16 else x) = t_shape x)
    by (intros x; destruct (String.eqb (denoising_prec a) "fp16");
        reflexivity).
  rewrite Hshape, Ex. eexists. f_equal.
  assert (Hn : prompt_count (prompt a) = batch_size a).
  { destruct Hcount as [Hn|Hn]; [exact Hn|]. rewrite Hn. subst l2.
    exact (@rows_from_features _ _ _ _ _ _ _ hidden_pos Pv Pu Mu E3). }
  rewrite Hn. ring.
Qed.

Lemma unet_feeds_ok a te lmi ts :
  t_shape lmi
  = [2 * batch_size a * num_images a; 4; height a / 8; width a / 8] ->
  (exists rest, t_shape te = 2 * batch_size a * num_images a :: rest) ->
  t_shape ts = [] ->
  unet_feed_ok a (unet_feeds A a te lmi ts).
Proof.
  intros Hl [rest Hte] Hts. unfold unet_feeds, unet_feed_ok.
  eexists _, _, _. split; [reflexivity|].
  split; [|split].
  - rewrite to_np_lib, to_np_dtype, to_np_shape. auto.
  - unfold np_array1. cbn [t_lib t_dtype t_shape].
    rewrite to_np_shape.
    destruct (negb (dtype_eqb (t_dtype ts) Float32));
      cbn [astype t_shape]; rewrite Hts; auto.
  - rewrite to_np_lib, to_np_dtype, to_np_shape. eauto.
Qed.

Lemma denoise_step_feeds a te lat it :
  unet_sess a = Some unet_session ->
  (exists rest, t_shape te = 2 * batch_size a * num_images a :: rest) ->
  t_shape (snd it) = [] ->
  t_shape lat = [batch_size a * num_images a; 4; height a / 8; width a / 8] ->
  spec (denoise_step A L a te lat it)
    (fun r t =>
       Forall (feeds_ok a) t
       /\ match r with
          | Ok lat' =>
              t_shape lat'
              = [batch_size a * num_images a; 4; height a / 8; width a / 8]
          | Raise _ => True
          end).
Proof.
  intros Hu Hte Hts Hlat. unfold denoise_step. destruct it as [i ts].
  simpl in Hts. rewrite Hu.
  repeat spec_step; cbn [app]; (split; [|try exact I]).
  all: repeat (apply Forall_cons || apply Forall_nil); try exact I.
  all: try match goal with
           | H : scheduler_step L _ _ _ _ _ = (Some _, _) |- t_shape _ = _ =>
               apply step_shape in H; cbn [as_pt t_shape]; rewrite H;
               exact Hlat
           end.
  all: intros _; apply unet_feeds_ok; [|exact Hte|exact Hts].
  all: match goal with
       | Hs : scale_model_input L _ _ _ = (Some _, _),
         Hc : torch_cat A [?x; ?x] = Ok _ |- _ =>
           apply scale_shape in Hs; cbn [as_pt t_shape]; rewrite Hs;
           apply torch_cat_pair_shape in Hc;
           destruct Hc as (na & nb & r & E1 & E2 & ->);
           rewrite Hlat in E1, E2;
           injection E1 as <- <-; injection E2 as <-
       end.
  all: f_equal; ring.
Qed.

Lemma spec_for_each_inv {St X} (P : list event -> Prop) (HP : Closed P)
  (body : St -> X -> M St) (Inv : St -> Prop) (Qx : X -> Prop) (l : list X) :
  (forall s x, Inv s -> Qx x ->
     spec (body s x)
       (fun r t => P t /\ match r with Ok s' => Inv s' | Raise _ => True end)) ->
  Forall Qx l ->
  forall s, Inv s ->
    spec (for_each body l s)
      (fun r t => P t /\ match r with Ok s' => Inv s' | Raise _ => True end).
Proof.
  intros Hb Hl. induction Hl as [|x l Hx Hl IH]; intros s Hs; simpl.
  - apply spec_ret. split; [apply (closed_nil HP) | exact Hs].
  - apply spec_bind. eapply spec_conseq; [apply Hb; assumption|].
    intros [s'|e] t [Ht Hr]; [|split; [exact Ht | exact Logic.I]].
    eapply spec_conseq; [apply IH; exact Hr|].
    intros r2 t2 [Ht2 Hr2]. split; [apply (closed_app HP); assumption|].
    exact Hr2.
Qed.

Lemma enumerate_snd {X} (Q : X -> Prop) (l : list X) :
  Forall Q l -> Forall (fun it => Q (snd it)) (enumerate l).
Proof.
  intros H. apply Forall_forall. intros [i x] Hin. simpl.
  unfold enumerate in Hin. apply in_combine_r in Hin.
  rewrite Forall_forall in H. auto.
Qed.

Ltac feeds_single :=
  intros; apply Forall_cons; [|apply Forall_nil];
  cbn [feeds_ok]; try exact I;
  try (intros Hs; exfalso; revert Hs;
       first [ apply clip_is_not_unet | apply vae_is_not_unet ]).

Lemma run_pipeline_feeds a :
  clip_sess a = Some clip_session ->
  unet_sess a = Some unet_session ->
  vae_sess a = Some vae_session ->
  Forall (fun ts => t_shape ts = []) (timesteps (sched a)) ->
  (prompt_count (prompt a) = batch_size a
   \/ prompt_count (prompt a) = prompt_count (negative_prompt a)) ->
  emits (Forall (feeds_ok a)) (run_pipeline A L a).
Proof.
  intros Hc Hu Hv Hts Hcount.
  pose proof (Forall_Closed (feeds_ok a)) as HC.
  unfold run_pipeline. rewrite Hv.
  do 3 (apply (emits_bind HC); [emits_prim HC; feeds_single | intros ?]).
  apply emits_bind_val
    with (R := fun x : tensor =>
                 t_shape x = [batch_size a * num_images a; 4;
                              height a / 8; width a / 8]);
    [exact HC | | intros latents Hlat].
  { apply spec_torch_randn; [intros [d|]|]; cbn [of_option option_map];
      (split; [feeds_single | auto]). }
  apply (emits_bind HC); [emits_prim HC | intros sigma].
  do 4 (apply (emits_bind HC); [emits_prim HC; feeds_single | intros ?]).
  apply emits_bind_val
    with (R := fun te : tensor =>
                 exists rest,
                   t_shape te = 2 * batch_size a * num_images a :: rest);
    [exact HC | apply (@encode_prompts_feeds a Hc Hcount) | intros te Hte].
  do 4 (apply (emits_bind HC); [emits_prim HC; feeds_single | intros ?]).
  apply emits_bind_val with (R := fun x => x = timesteps (sched a));
    [exact HC | | intros items ->].
  { apply spec_tqdm. split; [feeds_single | reflexivity]. }
  apply (emits_bind HC).
  { eapply spec_conseq.
    - apply (spec_for_each_inv HC)
        with (Inv := fun lat : tensor =>
                     t_shape lat = [batch_size a * num_images a; 4;
                                    height a / 8; width a / 8])
             (Qx := fun it : nat * tensor => t_shape (snd it) = []).
      + intros lat0 it0 Hs0 Hx0. apply denoise_step_feeds; assumption.
      + apply (@enumerate_snd _ (fun ts : tensor => t_shape ts = []) _ Hts).
      + exact Hlat.
    - intros r t [Ht _]. exact Ht. }
  intros latents'.
  do 4 (apply (emits_bind HC); [emits_prim HC; feeds_single | intros ?]).
  apply (emits_bind_attr HC). intros vae Hvae. injection Hvae as <-.
  apply (emits_bind HC); [emits_prim HC; feeds_single | intros outs].
  apply (emits_bind HC); [emits_prim HC | intros images].
  do 4 (apply (emits_bind HC); [emits_prim HC; feeds_single | intros ?]).
  apply (emits_bind HC); [emits_prim HC | intros is_warmup].
  destruct is_warmup; simpl; [apply (emits_ret HC)|].
  unfold report.
  repeat first
    [ apply (emits_bind HC); [ emits_prim HC; feeds_single | intros ? ]
    | emits_prim HC; feeds_single ].
Qed.

Lemma set_timesteps_scalars d (v : nat -> scalar) steps :
  Forall (fun ts : tensor => t_shape ts = []) (set_timesteps d v steps).
Proof.
  unfold set_timesteps. apply Forall_forall. intros ts Hin.
  apply in_map_iff in Hin. destruct Hin as (i & <- & _). reflexivity.
Qed.

(** C7. Given what is assumed of the libraries above, in every run of the
    pipeline that [main] starts, each time the UNet session is run its feeds
    are NumPy arrays ['sample'] of float32 and shape
    [(2 * batch_size * num_images, 4, height // 8, width // 8)],
    ['timestep'] of float32 and shape [(1,)], and
    ['encoder_hidden_states'] of float16 when [denoising_prec] is ['fp16']
    and of float32 otherwise, with [2 * batch_size * num_images] rows. *)
Theorem unet_feeds_shapes (cli : CliArgs scalar) (w : World)
  (a : Args) (inner : list event) (ok : bool)
  (feeds : list (string * tensor)) (r : option (list tensor)) :
  In (EvRunPipeline a inner ok) (trace_of (main A L cli w)) ->
  In (EvSessRun unet_session feeds r) inner ->
  unet_feed_ok a feeds.
Proof.
  intros Hin Hrun.
  destruct (runs_of_main _ _ _ _ _ Hin)
    as [(w' & -> & _) (k & d & v & Ha)].
  cbv zeta in Ha.
  assert (Hf : emits (Forall (feeds_ok a)) (run_pipeline A L a)).
  { destruct Ha as [->|(bs & Hbs & ->)].
    - apply run_pipeline_feeds; try reflexivity.
      + apply set_timesteps_scalars.
      + right. simpl. destruct (cli_negative_prompt cli); reflexivity.
    - apply run_pipeline_feeds; try reflexivity.
      + apply set_timesteps_scalars.
      + left. simpl. rewrite length_map, range_length.
        simpl in Hbs. repeat destruct Hbs as [<-|Hbs]; try contradiction;
          reflexivity. }
  specialize (Hf w'). simpl in Hf. rewrite Forall_forall in Hf.
  apply (Hf _ Hrun). reflexivity.
Qed.

End Feeds.

(** ** Looking an entry up in a trace *)

Lemma find_feeds_In s (t : list event) feeds r :
  find_feeds s t = Some (feeds, r) -> In (EvSessRun s feeds r) t.
Proof.
  induction t as [|e t IH]; simpl; [discriminate|].
  destruct e; try (intros H; right; apply IH, H).
  destruct (session_eq_dec s s0) as [<-|_].
  - intros H. injection H as <- <-. now left.
  - intros H. right. apply IH, H.
Qed.

Lemma find_run_In p (t : list event) a inner ok :
  find_run p t = Some (a, inner, ok) ->
  In (EvRunPipeline a inner ok) t /\ p a inner ok = true.
Proof.
  induction t as [|e t IH]; simpl; [discriminate|].
  destruct e as [| | | | | | | | | | | | | |a' inner' ok'];
    try (intros H; destruct (IH H) as [H1 H2]; split; [right|]; assumption).
  destruct (p a' inner' ok') eqn:Hp.
  - intros H. injection H as <- <- <-. split; [now left | exact Hp].
  - intros H. destruct (IH H) as [H1 H2]. split; [right|]; assumption.
Qed.

Lemma split_at_step_eq (t : list event) pre x post :
  split_at_step t = Some (pre, x, post) ->
  t = pre ++ x :: post /\ is_step x = true.
Proof.
  revert pre. induction t as [|e t IH]; intros pre; simpl; [discriminate|].
  destruct e;
    try (destruct (split_at_step t) as [[[pre' x'] post']|]; [|discriminate];
         intros H; injection H as <- <- <-;
         destruct (IH pre' eq_refl) as [-> Hx]; split; [reflexivity | exact Hx]).
  intros H. injection H as <- <- <-. split; reflexivity.
Qed.

(** * More of the script *)

(** ** Conversions between the two array libraries *)


(** [to_np] and [to_pt] never change the shape of a tensor or the number
    of its elements; the elements themselves are kept when the element type
    already is [d] and are cast one by one when it is not. *)
Lemma conversions_keep_shape (t : tensor) (d : dtype) :
  (t_shape (to_np A t d) = t_shape t
   /\ length (t_data (to_np A t d)) = length (t_data t)
   /\ t_data (to_np A t d)
      = if dtype_eqb (t_dtype t) d then t_data t
        else map (cast A d) (t_data t))
  /\ (t_shape (to_pt A t d) = t_shape t
      /\ length (t_data (to_pt A t d)) = length (t_data t)
      /\ t_data (to_pt A t d)
         = if dtype_eqb (t_dtype t) d then t_data t
           else map (cast A d) (t_data t)).
Proof.
  destruct t as [[|] d0 sh dat]; unfold to_np, to_pt, as_np, as_pt, astype;
    cbn [t_lib t_dtype t_shape t_data];
    destruct (dtype_eqb d0 d) eqn:E; cbn [negb t_lib t_dtype t_shape t_data];
    rewrite ?E, ?length_map; repeat split; reflexivity.
Qed.

(** ** The name of the saved images *)

Local Abbreviation saves_as := (@saves_as scalar time).

Lemma map_outcome_ok {X Y} (f : X -> outcome Y) (g : X -> Y) (l : list X) :
  (forall x, In x l -> f x = Ok (g x)) -> map_outcome f l = Ok (map g l).
Proof.
  induction l as [|x l IH]; intros H; simpl; [reflexivity|].
  rewrite (H x (or_introl eq_refl)), IH; [reflexivity|].
  intros y Hy. apply H. now right.
Qed.

Lemma map_outcome_raise {X Y} (f : X -> outcome Y) (g : X -> Y)
  (l1 : list X) (x : X) (l2 : list X) (e : exn) :
  (forall y, In y l1 -> f y = Ok (g y)) -> f x = Raise e ->
  map_outcome f (l1 ++ x :: l2) = Raise e.
Proof.
  induction l1 as [|y l1 IH]; intros H Hx; simpl.
  - rewrite Hx. reflexivity.
  - rewrite (H y (or_introl eq_refl)), IH; [reflexivity| |exact Hx].
    intros z Hz. apply H. now right.
Qed.

Lemma nodup_repeat (x : string) (n : nat) :
  nodup string_dec (repeat x (S n)) = [x].
Proof.
  induction n as [|n IH]; [reflexivity|].
  change (repeat x (S (S n))) with (x :: repeat x (S n)).
  cbn [nodup]. destruct (in_dec string_dec x (repeat x (S n))) as [_|Hn].
  - exact IH.
  - exfalso. apply Hn. now left.
Qed.

Lemma In_range (i n : Z) :
  In i (range n) -> exists k, i = Z.of_nat k /\ (k < Z.to_nat n)%nat.
Proof.
  unfold range. intros H. apply in_map_iff in H. destruct H as (k & <- & Hk).
  apply in_seq in Hk. exists k. split; [reflexivity | lia].
Qed.

(** When [args.prompt] is a list of [n] copies of one prompt and
    [args.batch_size] is [n], the set holds one part only. *)
Lemma image_name_prefix_uniform (args : Args) (p : string) (n : nat) :
  prompt args = PList (repeat (PStr p) n) ->
  batch_size args = Z.of_nat n ->
  image_name_prefix args
  = Ok (Build_image_prefix ("sd-" ++ denoising_prec args)
          (match n with O => [] | S _ => [prompt_part p] end) "-").
Proof.
  intros Hp Hb. unfold image_name_prefix. rewrite Hp, Hb.
  rewrite (@map_outcome_ok _ _ _ (fun _ => prompt_part p)).
  - rewrite map_const_repeat, range_length, Nat2Z.id.
    destruct n as [|n]; [reflexivity|]. rewrite nodup_repeat. reflexivity.
  - intros i Hi. apply In_range in Hi. destruct Hi as (k & -> & Hk).
    rewrite Nat2Z.id in Hk |- *. cbn [prompt_index].
    rewrite (nth_error_repeat (PStr p) Hk). reflexivity.
Qed.

Lemma encode_prompts_saves_as args a :
  emits (Forall (saves_as a)) (encode_prompts A L args).
Proof. unfold encode_prompts. emits_go (Forall_Closed (saves_as a)). Qed.

Lemma denoise_step_saves_as args a te lat it :
  emits (Forall (saves_as a)) (denoise_step A L args te lat it).
Proof.
  unfold denoise_step. destruct it as [i ts].
  emits_go (Forall_Closed (saves_as a)).
Qed.

Lemma run_pipeline_saves_as args :
  emits (Forall (saves_as args)) (run_pipeline A L args).
Proof.
  pose proof (Forall_Closed (saves_as args)) as HC.
  unfold run_pipeline.
  repeat first
    [ apply (emits_bind HC);
      [ first [ apply encode_prompts_saves_as
              | apply (emits_for_each HC); intros;
                apply denoise_step_saves_as
              | emits_prim HC; single ]
      | intros ? ] ].
  match goal with
  | |- emits _ (if ?b then _ else _) => destruct b
  end; [|apply (emits_ret HC)].
  unfold report.
  do 9 (apply (emits_bind HC); [emits_prim HC; single | intros _]).
  apply emits_bind_val
    with (R := fun prefix => image_name_prefix args = Ok prefix);
    [exact HC | | ].
  - apply spec_lift. split; [constructor|].
    destruct (image_name_prefix args); [reflexivity | exact Logic.I].
  - intros prefix Hprefix. apply emits_lib_call. intros ok.
    repeat constructor; assumption.
Qed.

(** X2. In every run of the pipeline that [main] starts, an image is saved
    only by a measured run ([args.warmup] is [False]), into [--output-dir],
    and under one name prefix for the whole batch:
    ['sd-' + denoising_prec + '-' + prompt.replace(' ', '_')[:10] + '-'];
    the [set] of the per-prompt parts has a single element, the prompts of
    a measured run being copies of [--prompt]. *)
Theorem saved_image_names (cli : CliArgs scalar) (w : World)
  (a : Args) (inner : list event) (ok : bool)
  (images : tensor) (dir : string) (prefix : image_prefix) (saved : bool) :
  In (EvRunPipeline a inner ok) (trace_of (main A L cli w)) ->
  In (EvCall (CSaveImage images dir prefix) saved) inner ->
  warmup a = Some false
  /\ dir = cli_output_dir cli
  /\ prefix
     = Build_image_prefix ("sd-" ++ cli_denoising_prec cli)
         [prompt_part (cli_prompt cli)] "-".
Proof.
  intros Hin Hsave.
  destruct (runs_of_main _ _ _ _ _ Hin)
    as [(w' & -> & _) (k & d & v & Ha)].
  cbv zeta in Ha.
  pose proof (run_pipeline_saves_as a w') as Hs. simpl in Hs.
  rewrite Forall_forall in Hs. specialize (Hs _ Hsave). simpl in Hs.
  destruct Hs as [-> Hprefix].
  destruct Ha as [->|(bs & Hbs & ->)].
  - exfalso.
    assert (Hq : warmup (warm_args
                   (base_args cli k
                      (set_timesteps d v (cli_denoising_steps cli))))
                 <> Some false) by discriminate.
    pose proof (@run_pipeline_quiet _ Hq w') as HF. simpl in HF.
    rewrite Forall_forall in HF. specialize (HF _ Hsave). discriminate HF.
  - split; [reflexivity|]. split; [reflexivity|].
    assert (Hn : exists n, bs = Z.of_nat (S n)).
    { simpl in Hbs.
      repeat destruct Hbs as [<-|Hbs]; try contradiction;
        [exists 0%nat | exists 1%nat | exists 3%nat | exists 7%nat
        | exists 15%nat]; reflexivity. }
    destruct Hn as [n ->].
    rewrite (@image_name_prefix_uniform _ (cli_prompt cli) (S n))
      in Hprefix.
    + injection Hprefix as <-. reflexivity.
    + change (PList (map (fun _ => PStr (cli_prompt cli))
                       (range (Z.of_nat (S n))))
              = PList (repeat (PStr (cli_prompt cli)) (S n))).
      rewrite map_const_repeat, range_length, Nat2Z.id. reflexivity.
    + reflexivity.
Qed.

(** X3. [image_name_prefix] indexes [args.prompt] with every [i] below
    [args.batch_size]: when the prompt list holds fewer strings than that,
    the index runs past its end and [IndexError] is raised. *)
Theorem image_name_prefix_index_error (args : Args) (ps : list string) :
  prompt args = PList (map PStr ps) ->
  Z.of_nat (length ps) < batch_size args ->
  image_name_prefix args = Raise IndexError.
Proof.
  intros Hp Hlt. unfold image_name_prefix. rewrite Hp.
  set (n := length ps).
  assert (Hr : range (batch_size args)
               = map Z.of_nat (seq 0 n)
                 ++ Z.of_nat n :: map Z.of_nat
                      (seq (S n) (Z.to_nat (batch_size args) - S n))).
  { unfold range.
    replace (Z.to_nat (batch_size args))
      with (n + S (Z.to_nat (batch_size args) - S n))%nat by lia.
    rewrite seq_app, map_app. cbn [seq map Nat.add].
    replace (n + S (Z.to_nat (batch_size args) - S n) - S n)%nat
      with (Z.to_nat (batch_size args) - S n)%nat by lia.
    reflexivity. }
  rewrite Hr.
  rewrite (@map_outcome_raise _ _ _
             (fun i => prompt_part (nth (Z.to_nat i) ps EmptyString))
             _ _ _ IndexError); [reflexivity| |].
  - intros i Hi. apply in_map_iff in Hi. destruct Hi as (k & <- & Hk).
    apply in_seq in Hk. rewrite Nat2Z.id. cbn [prompt_index].
    rewrite nth_error_map.
    rewrite (nth_error_nth' ps EmptyString) by (fold n; lia).
    reflexivity.
  - rewrite Nat2Z.id. cbn [prompt_index].
    rewrite nth_error_map.
    replace (nth_error ps n) with (@None string); [reflexivity|].
    symmetry. apply nth_error_None. unfold n. lia.
Qed.

(** ** How a computation ends *)

Local Abbreviation ends_in := (@ends_in scalar time World _).
Local Abbreviation returns_only_if C := (@returns_only_if scalar time World C _).

Lemma ends_bind {X Y} (m : M X) (k : X -> M Y) (R : X -> Prop)
  (R' : Y -> Prop) (E : exn -> Prop) :
  ends_in m R E -> (forall x, R x -> ends_in (k x) R' E) ->
  ends_in (bind m k) R' E.
Proof.
  intros Hm Hk. apply spec_bind. eapply spec_conseq; [exact Hm|].
  intros [x|e] t H; [|exact H].
  eapply spec_conseq; [apply (Hk x H)|]. auto.
Qed.

Lemma ends_weaken {X} (m : M X) (R R' : X -> Prop) (E E' : exn -> Prop) :
  ends_in m R E -> (forall x, R x -> R' x) -> (forall e, E e -> E' e) ->
  ends_in m R' E'.
Proof.
  intros H HR HE. eapply spec_conseq; [exact H|].
  intros [x|e] t; auto.
Qed.

Lemma ends_exn {X} (m : M X) (R : X -> Prop) (E E' : exn -> Prop) :
  ends_in m R E -> (forall e, E e -> E' e) -> ends_in m R E'.
Proof. intros H HE. eapply ends_weaken; [exact H | auto | exact HE]. Qed.

Lemma ends_any {X} (m : M X) : ends_in m (fun _ => True) (fun _ => True).
Proof. intros w. simpl. destruct (outcome_of (m w)); exact Logic.I. Qed.

Lemma ends_ret {X} (x : X) : ends_in (ret x) (fun y => y = x) (fun _ => False).
Proof. apply spec_ret. reflexivity. Qed.

Lemma ends_lift {X} (r : outcome X) :
  ends_in (lift r) (fun x => r = Ok x) (fun e => r = Raise e).
Proof. apply spec_lift. destruct r; reflexivity. Qed.

Lemma ends_attr {X} (o : option X) :
  ends_in (attr o) (fun x => o = Some x)
    (fun e => o = None /\ e = AttributeError).
Proof. apply spec_attr. destruct o; auto. Qed.

Lemma ends_emit e : ends_in (emit e) (fun _ => True) (fun _ => False).
Proof. apply spec_emit. exact Logic.I. Qed.

Lemma ends_print p : ends_in (print p) (fun _ => True) (fun _ => False).
Proof. apply spec_print. exact Logic.I. Qed.

Lemma ends_time : ends_in (time_time L) (fun _ => True) (fun _ => False).
Proof. apply spec_time_time. intros _. exact Logic.I. Qed.

Lemma ends_sigma :
  ends_in (read_init_noise_sigma L) (fun _ => True) (fun _ => False).
Proof. apply spec_read_init_noise_sigma. intros _. exact Logic.I. Qed.

Lemma ends_tqdm {X} (l : list X) :
  ends_in (tqdm l) (fun x => x = l) (fun _ => False).
Proof. apply spec_tqdm. reflexivity. Qed.

Lemma ends_lib_call c :
  ends_in (lib_call L c) (fun _ => True) library_error.
Proof. apply spec_lib_call. intros [|]; [exact Logic.I | reflexivity]. Qed.

Lemma ends_sync : ends_in (sync L) (fun _ => True) library_error.
Proof. apply ends_lib_call. Qed.

Lemma ends_tokenizer p ml tr :
  ends_in (tokenizer L p ml tr) (fun _ => True) library_error.
Proof.
  apply spec_tokenizer. intros w [r|] w' _; [exact Logic.I | reflexivity].
Qed.

Lemma ends_InferenceSession path prov :
  ends_in (InferenceSession L path prov) (fun s => s = Session path prov)
    library_error.
Proof. apply spec_InferenceSession. intros [|]; reflexivity. Qed.

Lemma ends_sess_run s feeds :
  ends_in (sess_run L s feeds) (fun _ => True) library_error.
Proof.
  apply spec_sess_run. intros w [r|] w' _; [exact Logic.I | reflexivity].
Qed.

Lemma ends_scale x i :
  ends_in (sched_scale_model_input L x i) (fun _ => True) library_error.
Proof.
  apply spec_scale. intros w [r|] w' _; [exact Logic.I | reflexivity].
Qed.

Lemma ends_sched_step n l i ts :
  ends_in (sched_step L n l i ts) (fun _ => True) library_error.
Proof.
  apply spec_step. intros w [r|] w' _; [exact Logic.I | reflexivity].
Qed.

Lemma ends_set_timesteps steps :
  ends_in (sched_set_timesteps L steps)
    (fun ts => exists d v, ts = set_timesteps d v steps) library_error.
Proof.
  apply spec_set_timesteps; [intros d v; eauto | reflexivity].
Qed.

Lemma negative_dimension (shape : list Z) :
  forallb (fun n => 0 <=? n) shape = false -> Exists (fun n => n < 0) shape.
Proof.
  induction shape as [|n shape IH]; simpl; [discriminate|].
  destruct (0 <=? n) eqn:Hn; simpl; intros H.
  - right. apply IH, H.
  - left. lia.
Qed.

(** [torch.randn] refuses a negative dimension. *)
Lemma ends_randn shape d dev :
  ends_in (torch_randn L shape d dev)
    (fun x => t_shape x = shape /\ Forall (fun n => 0 <= n) shape)
    (fun e => e = LibraryError
              \/ (e = RuntimeError /\ Exists (fun n => n < 0) shape)).
Proof.
  intros w. unfold torch_randn.
  destruct (forallb (fun n => 0 <=? n) shape) eqn:Hs.
  - destruct (randn L shape d dev w) as [[x|] w']; simpl; [|now left].
    split; [reflexivity|]. rewrite forallb_forall in Hs.
    apply Forall_forall. intros n Hn. apply Hs in Hn. lia.
  - simpl. right. split; [reflexivity|]. apply negative_dimension, Hs.
Qed.

Lemma ends_call_run_pipeline args (R : unit -> Prop) (E : exn -> Prop) :
  ends_in (run_pipeline A L args) R E ->
  ends_in (call_run_pipeline A L args) R E.
Proof. intros H. apply spec_call_run_pipeline. exact H. Qed.

(** What the view of a computation says of how it ends. *)
Lemma ends_of_seq {V} (view : event -> list V) {X} (m : M X)
  (R : X -> Prop) (S : list V) :
  @seq_spec scalar time World V view _ m R S ->
  ends_in m R (fun _ => True).
Proof.
  intros H. eapply spec_conseq; [exact H|].
  intros [x|e] t [_ Hr]; [apply Hr | exact Logic.I].
Qed.

Lemma ends_for_each {St X} (body : St -> X -> M St) (Inv : St -> Prop)
  (E : exn -> Prop) (l : list X) :
  (forall s x, Inv s -> In x l -> ends_in (body s x) Inv E) ->
  forall s, Inv s -> ends_in (for_each body l s) Inv E.
Proof.
  induction l as [|x l IH]; intros Hb s Hs; simpl.
  - eapply ends_weaken; [apply ends_ret | intros ? ->; exact Hs | intros ? []].
  - eapply ends_bind; [apply Hb; [exact Hs | now left]|].
    intros s' Hs'. apply IH; [|exact Hs'].
    intros s0 x0 H0 Hin. apply Hb; [exact H0 | now right].
Qed.

(** ** What a computation needs to return *)

Lemma only_if_holds (C : Prop) {X} (m : M X) : C -> returns_only_if C m.
Proof. intros H. eapply ends_weaken; [apply ends_any | auto | auto]. Qed.

Lemma only_if_first (C : Prop) {X Y} (m : M X) (k : X -> M Y) :
  returns_only_if C m -> returns_only_if C (bind m k).
Proof.
  intros H. eapply ends_bind; [exact H|].
  intros x Hc. apply only_if_holds, Hc.
Qed.

Lemma only_if_rest (C : Prop) {X Y} (m : M X) (k : X -> M Y) :
  (forall x, returns_only_if C (k x)) -> returns_only_if C (bind m k).
Proof. intros H. eapply ends_bind; [apply ends_any|]. intros x _. apply H. Qed.

Lemma only_if_rest_val (C : Prop) {X Y} (m : M X) (k : X -> M Y)
  (R : X -> Prop) :
  ends_in m R (fun _ => True) ->
  (forall x, R x -> returns_only_if C (k x)) -> returns_only_if C (bind m k).
Proof. intros Hm H. eapply ends_bind; [exact Hm|]. exact H. Qed.

Lemma only_if_attr (C : Prop) {X Y} (o : option X) (k : X -> M Y) :
  (forall x, o = Some x -> returns_only_if C (k x)) ->
  returns_only_if C (bind (attr o) k).
Proof.
  intros H. eapply ends_bind; [|exact H].
  eapply ends_exn; [apply ends_attr | auto].
Qed.

(** A loop returns only if each of its rounds does. *)
Lemma only_if_for_each (C : Prop) {St X} (body : St -> X -> M St)
  (Inv : St -> Prop) (l : list X) (x : X) :
  In x l ->
  (forall s y, Inv s -> ends_in (body s y) Inv (fun _ => True)) ->
  (forall s, Inv s -> returns_only_if C (body s x)) ->
  forall s, Inv s -> returns_only_if C (for_each body l s).
Proof.
  intros Hin Hinv Hx. induction l as [|y l IH]; [destruct Hin|].
  intros s Hs. simpl. destruct Hin as [->|Hin].
  - apply only_if_first, Hx, Hs.
  - eapply only_if_rest_val; [apply Hinv, Hs|].
    intros s' Hs'. apply IH; assumption.
Qed.

Lemma only_if_call_run_pipeline (C : Prop) args :
  returns_only_if C (run_pipeline A L args) ->
  returns_only_if C (call_run_pipeline A L args).
Proof. apply ends_call_run_pipeline. Qed.

Lemma only_if_elim (C : Prop) {X} (m : M X) (w : World) :
  returns_only_if C m -> is_ok (outcome_of (m w)) = true -> C.
Proof.
  intros H Hok. specialize (H w). simpl in H.
  destruct (outcome_of (m w)); [exact H | discriminate].
Qed.

(** Walks down a chain of [bind]s to the first step that [tac] settles. *)
Ltac only_if_find tac :=
  lazymatch goal with
  | |- returns_only_if _ (bind (attr _) _) =>
      first [ apply only_if_first; tac
            | apply only_if_attr; intros ? ?; only_if_find tac ]
  | |- returns_only_if _ (bind _ _) =>
      first [ apply only_if_first; tac
            | apply only_if_rest; intros ?; only_if_find tac ]
  | |- returns_only_if _ (let '(_, _) := ?p in _) =>
      destruct p; only_if_find tac
  | |- _ => tac
  end.

Ltac ends_prim :=
  lazymatch goal with
  | |- ends_in (ret _) _ _ => apply ends_ret
  | |- ends_in (lift _) _ _ => apply ends_lift
  | |- ends_in (attr _) _ _ => apply ends_attr
  | |- ends_in (emit _) _ _ => apply ends_emit
  | |- ends_in (print _) _ _ => apply ends_print
  | |- ends_in (time_time _) _ _ => apply ends_time
  | |- ends_in (read_init_noise_sigma _) _ _ => apply ends_sigma
  | |- ends_in (tqdm _) _ _ => apply ends_tqdm
  | |- ends_in (sync _) _ _ => apply ends_sync
  | |- ends_in (lib_call _ _) _ _ => apply ends_lib_call
  | |- ends_in (tokenizer _ _ _ _) _ _ => apply ends_tokenizer
  | |- ends_in (InferenceSession _ _ _) _ _ => apply ends_InferenceSession
  | |- ends_in (sess_run _ _ _) _ _ => apply ends_sess_run
  | |- ends_in (torch_randn _ _ _ _) _ _ => apply ends_randn
  | |- ends_in (sched_scale_model_input _ _ _) _ _ => apply ends_scale
  | |- ends_in (sched_step _ _ _ _ _) _ _ => apply ends_sched_step
  | |- ends_in (sched_set_timesteps _ _) _ _ => apply ends_set_timesteps
  end.

Ltac ends_side :=
  intros; unfold library_error in *;
  intuition (subst; auto; try discriminate; try contradiction).

Ltac ends_step :=
  eapply ends_bind; [ eapply ends_exn; [ ends_prim | ends_side ] | intros ? ? ].

(** ** Attributes that [main] has to set *)

Lemma only_if_weaken (C C' : Prop) {X} (m : M X) :
  (C -> C') -> returns_only_if C m -> returns_only_if C' m.
Proof. intros H Hm. eapply ends_weaken; [exact Hm | auto | auto]. Qed.

Lemma only_if_attr_set {X} (o : option X) :
  returns_only_if (o <> None) (attr o).
Proof. apply spec_attr. destruct o; [discriminate | exact Logic.I]. Qed.

Lemma run_pipeline_needs_clip args :
  returns_only_if (clip_sess args <> None) (run_pipeline A L args).
Proof.
  unfold run_pipeline.
  only_if_find ltac:(unfold encode_prompts;
                     only_if_find ltac:(apply only_if_attr_set)).
Qed.

Lemma run_pipeline_needs_vae args :
  returns_only_if (vae_sess args <> None) (run_pipeline A L args).
Proof. unfold run_pipeline. only_if_find ltac:(apply only_if_attr_set). Qed.

Lemma run_pipeline_needs_warmup args :
  returns_only_if (warmup args <> None) (run_pipeline A L args).
Proof. unfold run_pipeline. only_if_find ltac:(apply only_if_attr_set). Qed.

Ltac only_if_upto_tqdm :=
  lazymatch goal with
  | |- returns_only_if _ (bind (tqdm _) _) =>
      eapply only_if_rest_val;
      [ eapply ends_exn; [ apply ends_tqdm | auto ] | intros ? -> ]
  | |- returns_only_if _ (bind _ _) =>
      apply only_if_rest; intros ?; only_if_upto_tqdm
  end.

Lemma run_pipeline_needs_unet args :
  returns_only_if (timesteps (sched args) <> [] -> unet_sess args <> None)
    (run_pipeline A L args).
Proof.
  unfold run_pipeline. only_if_upto_tqdm.
  destruct (timesteps (sched args)) as [|t0 ts].
  - apply only_if_holds. intros H. contradiction.
  - apply only_if_first. unfold enumerate. cbn [length seq combine for_each].
    apply only_if_first. unfold denoise_step.
    apply (@only_if_weaken (unet_sess args <> None)); [auto|].
    only_if_find ltac:(apply only_if_attr_set).
Qed.

Lemma run_pipeline_without_clip_ends args :
  clip_sess args = None ->
  ends_in (run_pipeline A L args) (fun _ => False)
    (fun e => e = AttributeError \/ e = LibraryError \/ e = RuntimeError).
Proof.
  intros Hc. unfold run_pipeline.
  repeat lazymatch goal with
         | |- ends_in (bind (encode_prompts _ _ _) _) _ _ =>
             apply ends_bind with (R := fun _ => False); [ | intros ? [] ]
         | |- ends_in (bind _ _) _ _ => ends_step
         end.
  unfold encode_prompts. rewrite Hc.
  ends_step.
  apply ends_bind with (R := fun _ => False); [ | intros ? [] ].
  eapply ends_weaken; [apply ends_attr | intros ? Hx; discriminate Hx|].
  ends_side.
Qed.

Lemma run_pipeline_without_clip_stages args :
  clip_sess args = None ->
  @seq_spec scalar time World _ stage_of _ (run_pipeline A L args)
    (fun _ => False) [StTokenize (prompt args)].
Proof.
  intros Hc. unfold run_pipeline.
  eapply seq_weaken with (R := fun _ => False);
    [ repeat lazymatch goal with
             | |- seq_spec _ (bind (encode_prompts _ _ _) _) _ _ =>
                 eapply seq_bind with (R := fun _ => False) (S2 := []);
                 [ | intros ? [] ]
             | |- seq_spec _ (bind _ _) _ _ =>
                 eapply seq_bind; [ seq_prim | seq_intro ]
             end;
      unfold encode_prompts; rewrite Hc;
      (eapply seq_bind; [ seq_prim | seq_intro ]);
      (eapply seq_bind with (R := fun _ => False) (S2 := []);
       [ | intros ? [] ]);
      (eapply seq_weaken; [ apply seq_attr | reflexivity | ]);
      intros ? Hy; discriminate Hy
    | reflexivity | auto ].
Qed.

(** X4. [run_pipeline] reads [args.clip_sess], [args.unet_sess],
    [args.vae_sess] and [args.warmup], which are attributes set after
    parsing: a run returns only if they are set (the UNet session only if
    there is a timestep).  Without [args.clip_sess] the run raises right after the
    first call of the tokenizer, before any session is run; what it raises
    is [AttributeError], unless [torch.randn] or a library call raised
    before. *)
Theorem run_pipeline_needs_attributes (args : Args) (w : World) :
  (is_ok (outcome_of (run_pipeline A L args w)) = true ->
   clip_sess args <> None /\ vae_sess args <> None /\ warmup args <> None
   /\ (timesteps (sched args) <> [] -> unet_sess args <> None))
  /\ (clip_sess args = None ->
      (exists e,
         outcome_of (run_pipeline A L args w) = Raise e
         /\ (e = AttributeError \/ e = LibraryError \/ e = RuntimeError))
      /\ prefix_of (stages (trace_of (run_pipeline A L args w)))
           [StTokenize (prompt args)]).
Proof.
  split.
  - intros Hok. repeat split.
    + exact (only_if_elim w (run_pipeline_needs_clip args) Hok).
    + exact (only_if_elim w (run_pipeline_needs_vae args) Hok).
    + exact (only_if_elim w (run_pipeline_needs_warmup args) Hok).
    + exact (only_if_elim w (run_pipeline_needs_unet args) Hok).
  - intros Hc. split.
    + pose proof (@run_pipeline_without_clip_ends _ Hc w) as H. simpl in H.
      destruct (outcome_of (run_pipeline A L args w)) as [x|e];
        [contradiction|].
      exists e. auto.
    + exact (proj1 (@run_pipeline_without_clip_stages _ Hc w)).
Qed.

(** ** Parts of a run that a view does not see *)

Lemma encode_prompts_events (phi : event -> Prop) args :
  (forall p ml tr r, phi (EvTokenize p ml tr r)) ->
  (forall s feeds r, phi (EvSessRun s feeds r)) ->
  emits (Forall phi) (encode_prompts A L args).
Proof.
  intros Ht Hr. unfold encode_prompts. emits_go (Forall_Closed phi).
Qed.

Lemma denoise_step_events (phi : event -> Prop) args te lat it :
  (forall x i r, phi (EvScale x i r)) ->
  (forall s feeds r, phi (EvSessRun s feeds r)) ->
  (forall n l i ts r, phi (EvStep n l i ts r)) ->
  emits (Forall phi) (denoise_step A L args te lat it).
Proof.
  intros Hs Hr Ht. unfold denoise_step. destruct it as [i ts].
  emits_go (Forall_Closed phi).
Qed.

Lemma denoise_loop_events (phi : event -> Prop) args te items lat :
  (forall x i r, phi (EvScale x i r)) ->
  (forall s feeds r, phi (EvSessRun s feeds r)) ->
  (forall n l i ts r, phi (EvStep n l i ts r)) ->
  emits (Forall phi) (for_each (denoise_step A L args te) items lat).
Proof.
  intros Hs Hr Ht. apply (emits_for_each (Forall_Closed phi)).
  intros. apply denoise_step_events; assumption.
Qed.

Lemma report_events (phi : event -> Prop) args images t1 t2 t3 t4 t5 t6 t7 t8
  (is_warmup : bool) :
  (forall p, phi (EvPrint p)) ->
  (forall img dir prefix ok, phi (EvCall (CSaveImage img dir prefix) ok)) ->
  emits (Forall phi)
    (if negb is_warmup
     then report L args images t1 t2 t3 t4 t5 t6 t7 t8
     else ret tt).
Proof.
  intros Hp Hs. destruct is_warmup; simpl.
  - apply (emits_ret (Forall_Closed phi)).
  - unfold report. emits_go (Forall_Closed phi).
Qed.

Lemma flat_map_silent {V} (view : event -> list V) (t : list event) :
  Forall (fun e => view e = []) t -> flat_map view t = [].
Proof.
  induction 1 as [|e t He _ IH]; simpl; [reflexivity|].
  now rewrite He, IH.
Qed.

Lemma seq_silent {V} (view : event -> list V) {X} (m : M X) :
  emits (Forall (fun e => view e = [])) m ->
  @seq_spec scalar time World V view _ m (fun _ => True) [].
Proof.
  intros H. eapply spec_conseq; [exact H|].
  intros r t Ht. cbv beta in Ht. rewrite (flat_map_silent _ Ht).
  split; [apply prefix_of_nil|]. destruct r; auto.
Qed.

Lemma seq_spec_elim {V} (view : event -> list V) {X} (m : M X)
  (R : X -> Prop) (S : list V) (w : World) :
  @seq_spec scalar time World V view _ m R S ->
  prefix_of (flat_map view (trace_of (m w))) S
  /\ (is_ok (outcome_of (m w)) = true -> flat_map view (trace_of (m w)) = S).
Proof.
  intros H. destruct (H w) as [Hp Hr]. split; [exact Hp|].
  destruct (outcome_of (m w)); [intros _; apply Hr | discriminate].
Qed.

(** Follows [run_pipeline] with a view that sees nothing of the encoding
    of the prompts, of the denoising loop and of the report. *)
Ltac seq_pipeline :=
  repeat lazymatch goal with
         | |- seq_spec _ (bind (encode_prompts _ _ _) _) _ _ =>
             eapply seq_bind;
             [ apply seq_silent, encode_prompts_events; intros; reflexivity
             | seq_intro ]
         | |- seq_spec _ (bind (for_each _ _ _) _) _ _ =>
             eapply seq_bind;
             [ apply seq_silent, denoise_loop_events; intros; reflexivity
             | seq_intro ]
         | |- seq_spec _ (bind _ _) _ _ =>
             eapply seq_bind; [ seq_prim | seq_intro ]
         | |- seq_spec _ (if _ then _ else _) _ _ =>
             apply seq_silent, report_events; intros; reflexivity
         end.

(** ** What a warm-up run shows *)

Local Abbreviation is_observable := (@is_observable scalar time).
Local Abbreviation progress_of := (@progress_of scalar time).

(** [tqdm] is called once in [run_pipeline], on [scheduler.timesteps]. *)
Lemma run_pipeline_progress args :
  seq_spec progress_of (run_pipeline A L args) (fun _ => True)
    [length (timesteps (sched args))].
Proof.
  unfold run_pipeline.
  eapply seq_weaken; [seq_pipeline | reflexivity | auto].
Qed.


(** ** Random numbers and timing of a run *)

Local Abbreviation draw_of := (@draw_of scalar time).
Local Abbreviation tick_of := (@tick_of scalar time).
Local Abbreviation clock_of := (@clock_of scalar time).
Local Abbreviation clocks := (@clocks scalar time).
Local Abbreviation print_of := (@print_of scalar time).
Local Abbreviation prints := (@prints scalar time).
Local Abbreviation latency_table := (@latency_table scalar time).
Local Abbreviation untimed := (@untimed scalar time).

(** X5. Every run of [run_pipeline] first creates a generator on
    [args.device] seeded with [args.seed], and draws from it once:
    [torch.randn] of shape
    [(batch_size * num_images, 4, height // 8, width // 8)] and type float32
    on [args.device].  Nothing else is drawn in the run. *)
Theorem latents_drawn_once (args : Args) (w : World) :
  prefix_of (flat_map draw_of (trace_of (run_pipeline A L args w)))
    [DGenerator (device args) (seed args);
     DRandn [batch_size args * num_images args; 4;
             height args / 8; width args / 8] Float32 (device args)]
  /\ (is_ok (outcome_of (run_pipeline A L args w)) = true ->
      flat_map draw_of (trace_of (run_pipeline A L args w))
      = [DGenerator (device args) (seed args);
         DRandn [batch_size args * num_images args; 4;
                 height args / 8; width args / 8] Float32 (device args)]).
Proof.
  apply seq_spec_elim with (R := fun _ => True).
  unfold run_pipeline.
  eapply seq_weaken; [seq_pipeline | reflexivity | auto].
Qed.

(** X6. A run of [run_pipeline] that returns has read the clock eight
    times, whatever the number of denoising steps, and each reading comes
    right after a [torch.cuda.synchronize()] of its own; a run that raises
    has gone through a prefix of these sixteen calls. *)
Theorem clock_read_after_synchronize (args : Args) (w : World) :
  prefix_of (flat_map tick_of (trace_of (run_pipeline A L args w)))
    (concat (repeat [TSync; TClock] 8))
  /\ (is_ok (outcome_of (run_pipeline A L args w)) = true ->
      flat_map tick_of (trace_of (run_pipeline A L args w))
      = concat (repeat [TSync; TClock] 8)).
Proof.
  apply seq_spec_elim with (R := fun _ => True).
  unfold run_pipeline.
  eapply seq_weaken; [seq_pipeline | reflexivity | auto].
Qed.

(** ** The latency table *)

Lemma clocks_app (a b : list event) : clocks (a ++ b) = clocks a ++ clocks b.
Proof. apply flat_map_app. Qed.

Lemma prints_app (a b : list event) : prints (a ++ b) = prints a ++ prints b.
Proof. apply flat_map_app. Qed.

Lemma clocks_untimed (t : list event) : Forall untimed t -> clocks t = [].
Proof.
  intros H. apply flat_map_silent. eapply Forall_impl; [|exact H].
  intros e [He _]. exact He.
Qed.

Lemma prints_untimed (t : list event) : Forall untimed t -> prints t = [].
Proof.
  intros H. apply flat_map_silent. eapply Forall_impl; [|exact H].
  intros e [_ He]. exact He.
Qed.

Ltac latency_leaf :=
  rewrite ?clocks_app, ?prints_app;
  repeat match goal with
         | H : Forall untimed ?t |- _ =>
             rewrite ?(clocks_untimed H), ?(prints_untimed H); clear H
         end;
  cbn [clocks prints flat_map clock_of print_of app latency_table is_ok];
  split;
  [ first [ left; reflexivity | right; reflexivity ]
  | intros; first [ discriminate | reflexivity ] ].

Lemma run_pipeline_latency args :
  spec (run_pipeline A L args)
    (fun r t =>
       (prints t = []
        \/ prints t = latency_table (denoising_steps args) (clocks t))
       /\ (is_ok r = true -> warmup args = Some false ->
           prints t = latency_table (denoising_steps args) (clocks t))).
Proof.
  unfold run_pipeline.
  destruct (warmup args) as [[|]|] eqn:Hw.
  all: repeat lazymatch goal with
              | |- spec (bind (encode_prompts _ _ _) _) _ =>
                  apply spec_bind; eapply spec_conseq;
                  [ apply (@encode_prompts_events untimed);
                    intros; split; reflexivity
                  | intros [?|?] ? ? ]
              | |- spec (bind (for_each _ _ _) _) _ =>
                  apply spec_bind; eapply spec_conseq;
                  [ apply (@denoise_loop_events untimed);
                    intros; split; reflexivity
                  | intros [?|?] ? ? ]
              | |- spec (if negb _ then _ else _) _ =>
                  cbn [negb]; unfold report
              | |- spec _ _ => spec_step
              | |- match ?r with Ok _ => _ | Raise _ => _ end => spec_step
              end.
  all: latency_leaf.
Qed.

(** X7. What a run of [run_pipeline] prints is nothing or the latency
    table, and the table is computed from the run's own eight clock
    readings [t1 .. t8], in the order in which they were taken: CLIP is
    [(t3 - t2) * 1000], UNet is [(t5 - t4) * 1000] under the label
    ['UNet x ' + str(denoising_steps)], VAE is [(t7 - t6) * 1000] and
    Pipeline is [t8 - t1].  A run with [args.warmup] set to [False] that
    returns has printed the table. *)
Theorem latency_table_from_clock (args : Args) (w : World) :
  (prints (trace_of (run_pipeline A L args w)) = []
   \/ prints (trace_of (run_pipeline A L args w))
      = latency_table (denoising_steps args)
          (clocks (trace_of (run_pipeline A L args w))))
  /\ (is_ok (outcome_of (run_pipeline A L args w)) = true ->
      warmup args = Some false ->
      prints (trace_of (run_pipeline A L args w))
      = latency_table (denoising_steps args)
          (clocks (trace_of (run_pipeline A L args w)))).
Proof. apply (run_pipeline_latency args w). Qed.

(** ** Calls of the tokenizer *)

Local Abbreviation tokenize_of := (@tokenize_of scalar time).
Local Abbreviation tokenized := (@tokenized scalar time World L).
Local Abbreviation tokenized_both := (@tokenized_both scalar time World L).

Lemma encode_prompts_tokenized args :
  spec (encode_prompts A L args)
    (fun r t =>
       tokenized args (flat_map tokenize_of t)
       /\ (is_ok r = true -> tokenized_both args (flat_map tokenize_of t))).
Proof.
  unfold encode_prompts.
  repeat spec_step.
  all: cbn [flat_map tokenize_of app is_ok].
  all: split; [|try discriminate].
  all: try (left; reflexivity).
  all: try (right; left; eexists; reflexivity).
  all: try (right; right).
  all: try intros _.
  all: eexists _, _, _; split; [reflexivity|]; eassumption.
Qed.

Lemma run_pipeline_tokenized args :
  spec (run_pipeline A L args)
    (fun r t =>
       tokenized args (flat_map tokenize_of t)
       /\ (is_ok r = true -> tokenized_both args (flat_map tokenize_of t))).
Proof.
  unfold run_pipeline.
  repeat lazymatch goal with
         | |- spec (bind (encode_prompts _ _ _) _) _ =>
             apply spec_bind; eapply spec_conseq;
             [ apply encode_prompts_tokenized | intros [?|?] ? [? ?] ]
         | |- spec (bind (for_each _ _ _) _) _ =>
             apply spec_bind; eapply spec_conseq;
             [ apply (@denoise_loop_events (fun e => tokenize_of e = []));
               intros; reflexivity
             | intros [?|?] ? ? ]
         | |- spec (if negb ?b then _ else _) _ =>
             destruct b; cbn [negb]; unfold report
         | |- spec _ _ => spec_step
         | |- match ?r with Ok _ => _ | Raise _ => _ end => spec_step
         end.
  all: rewrite ?flat_map_app.
  all: repeat match goal with
              | H : Forall (fun e => tokenize_of e = []) ?t |- _ =>
                  rewrite (flat_map_silent _ H); clear H
              end.
  all: cbn [flat_map tokenize_of app is_ok]; rewrite ?app_nil_r.
  all: split; [|try discriminate].
  all: try (left; reflexivity).
  all: try assumption.
  all: try (right; right).
  all: try intros _.
  all: match goal with
       | H : is_ok (Ok _) = true -> _ |- _ => apply H; reflexivity
       end.
Qed.

(** X8. A run of [run_pipeline] calls the tokenizer at most twice: first on
    [args.prompt], padded to [tokenizer.model_max_length] and without
    truncation, then on [args.negative_prompt] with truncation, padded to
    the number of columns of the token ids that the first call returned.
    A run that returns has made both calls. *)
Theorem negative_prompt_padded_like_prompt (args : Args) (w : World) :
  tokenized args (flat_map tokenize_of (trace_of (run_pipeline A L args w)))
  /\ (is_ok (outcome_of (run_pipeline A L args w)) = true ->
      tokenized_both args
        (flat_map tokenize_of (trace_of (run_pipeline A L args w)))).
Proof. apply (run_pipeline_tokenized args w). Qed.

(** ** Setting up in [main] *)

Local Abbreviation scheduler_kind := (@scheduler_kind scalar).
Local Abbreviation setup_of := (@setup_of scalar time).
Local Abbreviation setup_expected := (@setup_expected scalar).
Local Abbreviation setup := (setup scalar).

Lemma get_args_setup cli :
  @seq_spec scalar time World _ setup_of _ (get_args L cli)
    (fun a => exists d v,
       a = base_args cli (scheduler_kind cli)
             (set_timesteps d v (cli_denoising_steps cli)))
    [SScheduler (scheduler_kind cli) (cli_device cli);
     SSetTimesteps (cli_denoising_steps cli);
     SConfigure].
Proof.
  unfold get_args. cbv zeta. fold (scheduler_kind cli).
  eapply seq_weaken with
    (R := fun a => exists d v,
            a = base_args cli (scheduler_kind cli)
                  (set_timesteps d v (cli_denoising_steps cli)));
    [ (eapply seq_bind; [seq_prim | intros _ _]);
      (eapply seq_bind; [seq_prim | intros ts (d & v & ->)]);
      (eapply seq_bind; [seq_prim | intros _ _]);
      apply seq_ret_any; unfold base_args; eauto
    | reflexivity | auto ].
Qed.

Lemma load_models_setup a0 :
  @seq_spec scalar time World _ setup_of _ (load_models A L a0)
    (fun _ => True)
    [SLoad clip_session; SLoad unet_session; SLoad vae_session].
Proof.
  unfold load_models.
  eapply seq_weaken; [seq_go | reflexivity | auto].
Qed.

Lemma warm_up_events (phi : event -> Prop) a :
  (forall s, phi (EvPrint (PLit s))) ->
  (forall n, phi (EvProgress n)) ->
  (forall x inner ok, phi (EvRunPipeline x inner ok)) ->
  emits (Forall phi) (warm_up A L a).
Proof.
  intros Hp Hg Hr. pose proof (Forall_Closed phi) as HC. unfold warm_up.
  apply (emits_bind HC); [emits_prim HC; single | intros _].
  apply (emits_bind HC); [emits_prim HC; single | intros runs].
  apply (emits_for_each HC). intros _ _.
  apply emits_call_run_pipeline. intros w. repeat constructor. apply Hr.
Qed.

Lemma measure_loop_events (phi : event -> Prop) p np l a :
  (forall s, phi (EvPrint (PLit s))) ->
  (forall g, phi (EvMeasureBegin g)) ->
  phi EvMeasureEnd ->
  (forall x inner ok, phi (EvRunPipeline x inner ok)) ->
  emits (Forall phi) (for_each (measure_batch A L p np) l a).
Proof.
  intros Hp Hb He Hr. pose proof (Forall_Closed phi) as HC.
  apply (emits_for_each HC). intros s bs. unfold measure_batch, measure_memory.
  emits_run HC ltac:(apply emits_call_run_pipeline; intros w;
                     repeat constructor; apply Hr).
Qed.

Lemma main_setup_spec cli :
  spec (main A L cli)
    (fun r t =>
       exists d v,
         let a0 := base_args cli (scheduler_kind cli)
                     (set_timesteps d v (cli_denoising_steps cli)) in
         prefix_of (flat_map setup_of t) (setup_expected cli a0)
         /\ (is_ok r = true -> flat_map setup_of t = setup_expected cli a0)).
Proof.
  unfold main. apply spec_bind.
  eapply spec_conseq; [apply get_args_setup|].
  intros [a|e] t [Hp Hr].
  - destruct Hr as [Ht (d & v & ->)].
    assert (Hbody :
      @seq_spec scalar time World _ setup_of _
        (bind (print (PArgs (base_args cli (scheduler_kind cli)
                               (set_timesteps d v (cli_denoising_steps cli)))))
           (fun _ =>
              bind (emit (EvSetEnv "ORT_TENSORRT_FP16_ENABLE" "1"))
                (fun _ =>
                   bind (load_models A L
                           (base_args cli (scheduler_kind cli)
                              (set_timesteps d v (cli_denoising_steps cli))))
                     (fun args =>
                        bind (warm_up A L (set_warmup args true))
                          (fun _ =>
                             bind (for_each
                                     (measure_batch A L
                                        (prompt (set_warmup args false))
                                        (negative_prompt
                                           (set_warmup args false)))
                                     batch_sizes (set_warmup args false))
                               (fun _ => ret tt))))))
        (fun _ => True)
        [SPrintArgs (base_args cli (scheduler_kind cli)
                       (set_timesteps d v (cli_denoising_steps cli)));
         SSetEnv "ORT_TENSORRT_FP16_ENABLE" "1";
         SLoad clip_session; SLoad unet_session; SLoad vae_session]).
    { eapply seq_weaken;
        [ eapply seq_bind; [seq_prim | seq_intro];
          eapply seq_bind; [seq_prim | seq_intro];
          eapply seq_bind; [apply load_models_setup | seq_intro];
          eapply seq_bind;
          [ apply seq_silent, warm_up_events; intros; reflexivity
          | seq_intro ];
          eapply seq_bind;
          [ apply seq_silent, measure_loop_events; intros; reflexivity
          | intros; apply seq_ret_true ]
        | reflexivity | auto ]. }
    eapply spec_conseq; [apply Hbody|].
    intros r2 t2 [Hp2 Hr2]. exists d, v. cbv zeta.
    rewrite flat_map_app, Ht. unfold setup_expected.
    split.
    + apply (prefix_of_app_l
               [SScheduler (scheduler_kind cli) (cli_device cli);
                SSetTimesteps (cli_denoising_steps cli); SConfigure] Hp2).
    + destruct r2; [intros _ | discriminate].
      rewrite (proj1 Hr2). reflexivity.
  - exists Int32, (fun _ => zero A). cbv zeta.
    split; [|discriminate].
    destruct Hp as [c Hc]. exists (c ++ skipn 3 (setup_expected cli
      (base_args cli (scheduler_kind cli)
         (set_timesteps Int32 (fun _ => zero A) (cli_denoising_steps cli))))).
    rewrite app_assoc, <- Hc. reflexivity.
Qed.


(** ** The arguments of the runs that [main] starts *)

Lemma get_args_view_kind cli :
  @seq_spec scalar time World _ main_view _ (get_args L cli)
    (fun a => exists d v,
       a = base_args cli (scheduler_kind cli)
             (set_timesteps d v (cli_denoising_steps cli))) [].
Proof.
  unfold get_args. cbv zeta. fold (scheduler_kind cli).
  eapply seq_weaken with
    (R := fun a => exists d v,
            a = base_args cli (scheduler_kind cli)
                  (set_timesteps d v (cli_denoising_steps cli)));
    [ (eapply seq_bind; [seq_prim | intros _ _]);
      (eapply seq_bind; [seq_prim | intros ts (d & v & ->)]);
      (eapply seq_bind; [seq_prim | intros _ _]);
      apply seq_ret_any; unfold base_args; eauto
    | reflexivity | auto ].
Qed.

(** [main_view_spec] with the scheduler class that [get_args] picked. *)
Lemma main_view_kind cli w :
  exists d v,
    let a0 := base_args cli (scheduler_kind cli)
                (set_timesteps d v (cli_denoising_steps cli)) in
    prefix_of (flat_map main_view (trace_of (main A L cli w)))
      (main_expected a0)
    /\ (is_ok (outcome_of (main A L cli w)) = true ->
        flat_map main_view (trace_of (main A L cli w)) = main_expected a0).
Proof.
  revert w. change (spec (main A L cli) (fun r t =>
    exists d v,
      let a0 := base_args cli (scheduler_kind cli)
                  (set_timesteps d v (cli_denoising_steps cli)) in
      prefix_of (flat_map main_view t) (main_expected a0)
      /\ (is_ok r = true -> flat_map main_view t = main_expected a0))).
  unfold main. apply spec_bind.
  eapply spec_conseq; [apply get_args_view_kind|].
  intros [a|e] t [Hp Hr].
  - destruct Hr as [Ht (d & v & ->)].
    eapply spec_conseq; [apply main_body_view|].
    intros r2 t2 [Hp2 Hr2]. exists d, v. cbv zeta.
    rewrite flat_map_app, Ht. simpl. split; [exact Hp2|].
    destruct r2; [intros _; apply Hr2 | discriminate].
  - exists Int32, (fun _ => zero A). cbv zeta.
    destruct Hp as [c Hc]. symmetry in Hc. apply app_eq_nil in Hc.
    destruct Hc as [-> _]. split; [apply prefix_of_nil | discriminate].
Qed.

(** The runs of one [main] all start from the same [get_args] result. *)
Lemma main_runs_from cli w :
  exists d v,
    let a0 := base_args cli (scheduler_kind cli)
                (set_timesteps d v (cli_denoising_steps cli)) in
    forall a inner ok,
      In (EvRunPipeline a inner ok) (trace_of (main A L cli w)) ->
      a = warm_args a0
      \/ exists bs, In bs batch_sizes /\ a = measured_args a0 bs.
Proof.
  destruct (main_view_kind cli w) as (d & v & Hp & _).
  exists d, v. cbv zeta in *. intros a inner ok Hin.
  apply runs_of_main_expected.
  eapply In_prefix_of; [exact Hp|].
  apply in_flat_map. eexists. split; [exact Hin|]. simpl. auto.
Qed.

(** X10. Every run of the pipeline that [main] starts is on the height,
    width, seed, number of images, guidance scale, device, precision, output
    directory and number of denoising steps of the command line and on a
    scheduler of the class picked by [--scheduler], and all runs of one
    [main] share one scheduler with the same timesteps. *)
Theorem runs_keep_command_line (cli : CliArgs scalar) (w : World) :
  (forall a inner ok,
     In (EvRunPipeline a inner ok) (trace_of (main A L cli w)) ->
     height a = cli_height cli /\ width a = cli_width cli
     /\ seed a = cli_seed cli /\ num_images a = cli_num_images cli
     /\ guidance_scale a = cli_guidance_scale cli
     /\ device a = cli_device cli
     /\ denoising_prec a = cli_denoising_prec cli
     /\ output_dir a = cli_output_dir cli
     /\ denoising_steps a = cli_denoising_steps cli
     /\ sched_kind_of (sched a) = scheduler_kind cli)
  /\ (forall a1 inner1 ok1 a2 inner2 ok2,
        In (EvRunPipeline a1 inner1 ok1) (trace_of (main A L cli w)) ->
        In (EvRunPipeline a2 inner2 ok2) (trace_of (main A L cli w)) ->
        sched a1 = sched a2).
Proof.
  destruct (main_runs_from cli w) as (d & v & H). cbv zeta in H.
  split.
  - intros a inner ok Hin.
    destruct (H _ _ _ Hin) as [->|(bs & _ & ->)]; repeat split.
  - intros a1 inner1 ok1 a2 inner2 ok2 H1 H2.
    destruct (H _ _ _ H1) as [->|(bs1 & _ & ->)];
      destruct (H _ _ _ H2) as [->|(bs2 & _ & ->)]; reflexivity.
Qed.

(** X11. [main] tells [measure_memory] that it measures a GPU exactly when
    [--device] is the string ['cuda']: every call has
    [is_gpu = (args.device == 'cuda')], and a [main] that returns has made
    five of them. *)
Theorem measure_memory_on_gpu (cli : CliArgs scalar) (w : World) :
  (forall g, In (EvMeasureBegin g) (trace_of (main A L cli w)) ->
             g = String.eqb (cli_device cli) "cuda")
  /\ (is_ok (outcome_of (main A L cli w)) = true ->
      length (filter (@is_measure_begin scalar time)
                (trace_of (main A L cli w))) = 5%nat).
Proof.
  destruct (main_view_kind cli w) as (d & v & Hp & Heq). cbv zeta in *.
  set (a0 := base_args cli (scheduler_kind cli)
               (set_timesteps d v (cli_denoising_steps cli))) in *.
  split.
  - intros g Hin.
    assert (Hm : In (MBegin g) (main_expected a0)).
    { eapply In_prefix_of; [exact Hp|].
      apply in_flat_map. eexists. split; [exact Hin|]. simpl. auto. }
    unfold main_expected in Hm. rewrite !in_app_iff in Hm.
    destruct Hm as [Hm|[Hm|Hm]].
    + simpl in Hm. repeat destruct Hm as [Hm|Hm]; try discriminate;
        contradiction.
    + apply repeat_spec in Hm. discriminate.
    + apply in_flat_map in Hm. destruct Hm as (bs & _ & Hm). simpl in Hm.
      repeat destruct Hm as [Hm|Hm]; try discriminate; try contradiction.
      injection Hm as <-. reflexivity.
  - intros Hok. specialize (Heq Hok).
    assert (Hc : forall t : list event,
              length (filter (@is_measure_begin scalar time) t)
              = length (filter (fun m : mevent =>
                                  match m with MBegin _ => true | _ => false end)
                          (flat_map main_view t))).
    { induction t as [|e t IH]; [reflexivity|].
      cbn [flat_map filter]. rewrite filter_app, length_app, <- IH.
      destruct e; try destruct c; reflexivity. }
    rewrite Hc, Heq. unfold main_expected.
    rewrite !filter_app, !length_app.
    unfold warm_view. rewrite filter_repeat_false by reflexivity.
    reflexivity.
Qed.

(** ** Prompts and batch size *)

Section Contracts.

(** The same assumptions on the libraries as for the feeds of the UNet
    session: one row of token ids per prompt, and [hidden] features per
    token out of the CLIP session. *)
Variable hidden : Z.
Hypothesis hidden_pos : 0 < hidden.
Hypothesis tokenizer_shape :
  forall p ml tr w t w',
    tokenize L p ml tr w = (Some t, w') ->
    exists l, t_shape t = [prompt_count p; l].
Hypothesis clip_shape :
  forall ids w outs w' n l,
    session_run L clip_session [("input_ids", ids)] w = (Some outs, w') ->
    t_shape ids = [n; l] ->
    exists o rest, outs = o :: rest /\ t_shape o = [n; l; hidden].

Lemma encode_prompts_rows a :
  clip_sess a = Some clip_session ->
  returns_only_if (prompt_count (negative_prompt a) = batch_size a)
    (encode_prompts A L a).
Proof.
  intros Hc. unfold returns_only_if, ends_in, encode_prompts.
  rewrite Hc.
  repeat spec_step; try exact Logic.I.
  match goal with
  | H : tokenize L (prompt a) _ _ _ = _ |- _ =>
      destruct (tokenizer_shape _ _ _ _ H) as [l1 Hids1]
  end.
  match goal with
  | H : tokenize L (negative_prompt a) _ _ _ = _ |- _ =>
      destruct (tokenizer_shape _ _ _ _ H) as [l2 Hids2]
  end.
  repeat match goal with
         | H : session_run L clip_session [(_, astype A (as_np ?t) Int32)] _
               = _, Ht : t_shape ?t = [?n; ?l] |- _ =>
             let o := fresh "o" in
             let rest := fresh "rest" in
             let Ho := fresh "Ho" in
             destruct (clip_shape _ _ H Ht) as (o & rest & -> & Ho);
             clear H
         end.
  repeat match goal with
         | H : item0 (map _ (_ :: _)) = Ok _ |- _ =>
             simpl in H; injection H as <-
         end.
  repeat match goal with
         | H : context [t_shape (to_pt A _ _)] |- _ =>
             rewrite to_pt_shape in H; cbn [as_np t_shape] in H
         end.
  repeat match goal with
         | H : torch_repeat_1k1 _ _ = Ok _ |- _ =>
             eapply torch_repeat_1k1_shape in H;
             [|rewrite to_pt_shape; cbn [as_np t_shape]; eassumption]
         end.
  match goal with
  | H : unpack3 (t_shape ?o) = Ok _, Ho : t_shape ?o = _ |- _ =>
      rewrite Ho in H; simpl in H; injection H as <- <- <-
  end.
  match goal with
  | H : shape_at (t_shape ?o) 1 = Ok _, Ho : t_shape ?o = _ |- _ =>
      rewrite Ho in H; simpl in H; injection H as <-
  end.
  repeat match goal with
         | H : torch_view3 ?x _ _ = Ok _, Hx : t_shape ?x = _ /\ _ |- _ =>
             apply torch_view3_shape in H; destruct Hx as [Hx _];
             rewrite Hx in H
         end.
  match goal with
  | H : torch_cat A [?u; ?v] = Ok _,
    Hu : t_shape ?u = _ /\ _ /\ _, Hv : t_shape ?v = _ /\ _ /\ _ |- _ =>
      apply torch_cat_pair_shape in H;
      destruct H as (na & nb & r & Eu & Ev & Ex);
      destruct Hu as (Su & Pu & Mu); destruct Hv as (Sv & Pv & Mv);
      rewrite Su in Eu; rewrite Sv in Ev;
      injection Ev as <- <-; injection Eu as <- E2 E3
  end.
  subst l2.
  exact (@rows_from_features _ _ _ _ _ _ _ hidden_pos Pv Pu Mu E3).
Qed.

Lemma run_pipeline_rows a :
  clip_sess a = Some clip_session ->
  returns_only_if (prompt_count (negative_prompt a) = batch_size a)
    (run_pipeline A L a).
Proof.
  intros Hc. unfold run_pipeline.
  only_if_find ltac:(apply encode_prompts_rows; exact Hc).
Qed.

(** X12. With a tokenizer that returns one row per prompt and a CLIP
    session that returns [hidden > 0] features per token, a run of
    [run_pipeline] returns only if the number of negative prompts is
    [args.batch_size]: the unconditional embeddings are viewed with
    [batch_size * num_images] rows, and [torch.cat] refuses them next to the
    text embeddings when that changes the number of features per token. *)
Theorem negative_prompts_match_batch (a : Args) (w : World) :
  clip_sess a = Some clip_session ->
  is_ok (outcome_of (run_pipeline A L a w)) = true ->
  prompt_count (negative_prompt a) = batch_size a.
Proof.
  intros Hc Hok. exact (only_if_elim w (@run_pipeline_rows a Hc) Hok).
Qed.

Lemma measure_batch_rows a0 s bs :
  measuring a0 s ->
  returns_only_if
    (prompt_count (prompt_mul (negative_prompt a0) bs) = bs)
    (measure_batch A L (prompt a0) (negative_prompt a0) s bs).
Proof.
  intros Hs. unfold measure_batch, measure_memory.
  change (set_negative_prompt _ _) with (measure_state a0 s bs).
  rewrite (Hs bs).
  only_if_find ltac:(apply only_if_call_run_pipeline;
                     apply (@run_pipeline_rows (measured_args a0 bs));
                     reflexivity).
Qed.

Lemma main_returns_only_if (C : Prop) cli :
  (forall d v,
     let a0 := base_args cli (scheduler_kind cli)
                 (set_timesteps d v (cli_denoising_steps cli)) in
     returns_only_if C (warm_up A L (warm_args a0))
     \/ exists bs, In bs batch_sizes
          /\ forall s, measuring a0 s ->
               returns_only_if C
                 (measure_batch A L (prompt a0) (negative_prompt a0) s bs)) ->
  returns_only_if C (main A L cli).
Proof.
  intros H. unfold main.
  eapply only_if_rest_val;
    [apply (ends_of_seq (get_args_view_kind cli)) | intros a0 (d & v & Ha0)].
  specialize (H d v). cbv zeta in H. rewrite <- Ha0 in H. clear Ha0.
  apply only_if_rest; intros _.
  apply only_if_rest; intros _.
  eapply only_if_rest_val;
    [apply (ends_of_seq (load_models_view _)) | intros args ->].
  destruct H as [Hw|(bs & Hbs & Hm)].
  - apply only_if_first. exact Hw.
  - apply only_if_rest; intros _.
    apply only_if_first.
    apply (@only_if_for_each C _ _ _ (measuring a0) batch_sizes bs Hbs).
    + intros s y Hs. apply (ends_of_seq (measure_batch_view y Hs)).
    + exact Hm.
    + intros bs'. reflexivity.
Qed.

(** X13. Under the same assumptions, [main] returns only when
    [--negative-prompt] is left at its default: a negative prompt given on
    the command line is a [str], [init_negative_prompt * 2] is then one
    string and not two prompts, and the run for batch size 2 raises. *)
Theorem main_needs_default_negative_prompt (cli : CliArgs scalar)
  (w : World) :
  is_ok (outcome_of (main A L cli w)) = true ->
  cli_negative_prompt cli = None.
Proof.
  apply only_if_elim. apply main_returns_only_if.
  intros d v a0. right. exists 2. split; [simpl; auto|].
  intros s Hs.
  apply (@only_if_weaken
           (prompt_count (prompt_mul (negative_prompt a0) 2) = 2));
    [|apply measure_batch_rows, Hs].
  unfold a0. cbn [negative_prompt base_args].
  destruct (cli_negative_prompt cli); [discriminate | reflexivity].
Qed.

(** X14. Under the same assumptions, when there is at least one warm-up
    run, [main] returns only for [--batch-size 1]: the warm-up runs are on
    [args.batch_size] of the command line with the one negative prompt that
    [get_args] left (the lines that would repeat the prompts are commented
    out), and the first of them raises for any other batch size. *)
Theorem main_needs_batch_size_one (cli : CliArgs scalar) (w : World) :
  0 < cli_num_warmup_runs cli ->
  is_ok (outcome_of (main A L cli w)) = true ->
  cli_batch_size cli = 1.
Proof.
  intros Hn. apply only_if_elim. apply main_returns_only_if.
  intros d v a0. left. unfold warm_up.
  apply only_if_rest; intros _.
  eapply only_if_rest_val;
    [eapply ends_exn; [apply ends_tqdm | auto] | intros runs ->].
  apply (@only_if_for_each _ _ _ _ (fun _ => True)
           (range (num_warmup_runs (warm_args a0))) 0).
  - unfold range. apply in_map_iff. exists 0%nat. split; [reflexivity|].
    apply in_seq. unfold a0. cbn [num_warmup_runs warm_args set_warmup loaded
      set_vae_sess set_unet_sess set_clip_sess base_args]. lia.
  - intros ? ? _. eapply ends_weaken; [apply ends_any | auto | auto].
  - intros _ _. apply only_if_call_run_pipeline.
    apply (@only_if_weaken
             (prompt_count (negative_prompt (warm_args a0))
              = batch_size (warm_args a0)));
      [|apply run_pipeline_rows; reflexivity].
    unfold a0. cbn [negative_prompt batch_size warm_args set_warmup loaded
      set_vae_sess set_unet_sess set_clip_sess base_args].
    destruct (cli_negative_prompt cli); cbn [prompt_count length Z.of_nat];
      intros H; symmetry; exact H.
  - exact Logic.I.
Qed.

End Contracts.

(** ** Sizes that [np.zeros] refuses *)

Lemma np_zeros_negative (shape : list Z) (d : dtype) :
  Exists (fun n => n < 0) shape -> np_zeros A shape d = Raise ValueError.
Proof.
  intros H. unfold np_zeros.
  destruct (forallb (fun n => 0 <=? n) shape) eqn:E; [|reflexivity].
  exfalso. rewrite forallb_forall in E. apply Exists_exists in H.
  destruct H as (n & Hin & Hn). apply E in Hin. lia.
Qed.

Lemma negative_latent_size (a0 : Args) (n : Z) :
  height a0 < 0 \/ width a0 < 0 ->
  Exists (fun n => n < 0) [n; 4; height a0 / 8; width a0 / 8].
Proof.
  intros [H|H].
  - do 2 right. left. apply Z.div_lt_upper_bound; lia.
  - do 3 right. left. apply Z.div_lt_upper_bound; lia.
Qed.

Ltac ends_zeros :=
  eapply ends_bind;
  [ eapply ends_exn;
    [ apply ends_lift | intros ? He; vm_compute in He; discriminate He ]
  | intros ? ? ].

Lemma load_models_negative_ends a0 :
  height a0 < 0 \/ width a0 < 0 ->
  ends_in (load_models A L a0) (fun _ => False)
    (fun e => e = ValueError \/ e = LibraryError).
Proof.
  intros Hneg. unfold load_models. cbv zeta.
  ends_step. ends_step. ends_zeros. ends_step. ends_step. ends_step.
  apply ends_bind with (R := fun _ => False); [ | intros ? [] ].
  cbn [height width set_clip_sess].
  rewrite (np_zeros_negative Float32 (@negative_latent_size a0 (2 * 1) Hneg)).
  eapply ends_weaken;
    [ apply ends_lift
    | intros ? Hx; discriminate Hx
    | intros e He; injection He as <-; auto ].
Qed.

Lemma load_models_negative_view a0 :
  height a0 < 0 \/ width a0 < 0 ->
  @seq_spec scalar time World _ main_view _ (load_models A L a0)
    (fun _ => False)
    [MLoad clip_session;
     MDummy clip_session [("input_ids", zeros_tensor [1; 77] Int32)];
     MLoad unet_session].
Proof.
  intros Hneg. unfold load_models. cbv zeta.
  eapply seq_weaken with (R := fun _ => False);
    [ (eapply seq_bind; [seq_prim | seq_intro]);
      (eapply seq_bind; [seq_prim | seq_intro]);
      (eapply seq_bind;
       [seq_prim | intros z Hz; apply np_zeros_ok in Hz; subst z]);
      (eapply seq_bind; [seq_prim | seq_intro]);
      (eapply seq_bind; [seq_prim | seq_intro]);
      (eapply seq_bind; [seq_prim | seq_intro]);
      (eapply seq_bind with (R := fun _ => False) (S2 := []);
       [ | intros ? [] ]);
      cbn [height width set_clip_sess];
      rewrite (np_zeros_negative Float32
                 (@negative_latent_size a0 (2 * 1) Hneg));
      (eapply seq_weaken; [ apply seq_lift | reflexivity | ]);
      intros ? Hy; discriminate Hy
    | reflexivity | auto ].
Qed.

Lemma get_args_ends cli :
  ends_in (get_args L cli)
    (fun a => exists d v,
       a = base_args cli (scheduler_kind cli)
             (set_timesteps d v (cli_denoising_steps cli)))
    library_error.
Proof.
  unfold get_args. cbv zeta. fold (scheduler_kind cli).
  ends_step.
  eapply ends_bind;
    [ eapply ends_exn; [ ends_prim | ends_side ] | intros ts (d & v & ->) ].
  ends_step.
  eapply ends_weaken; [ apply ends_ret | | intros ? [] ].
  intros a ->. unfold base_args. eauto.
Qed.

Lemma main_negative_ends cli :
  cli_height cli < 0 \/ cli_width cli < 0 ->
  ends_in (main A L cli) (fun _ => False)
    (fun e => e = ValueError \/ e = LibraryError).
Proof.
  intros Hneg. unfold main.
  eapply ends_bind;
    [ eapply ends_exn; [ apply get_args_ends | ends_side ]
    | intros a0 (d & v & ->) ].
  ends_step. ends_step.
  apply ends_bind with (R := fun _ => False); [ | intros ? [] ].
  apply load_models_negative_ends. exact Hneg.
Qed.

Lemma main_negative_view cli :
  cli_height cli < 0 \/ cli_width cli < 0 ->
  @seq_spec scalar time World _ main_view _ (main A L cli)
    (fun _ => False)
    [MLoad clip_session;
     MDummy clip_session [("input_ids", zeros_tensor [1; 77] Int32)];
     MLoad unet_session].
Proof.
  intros Hneg. unfold main.
  eapply seq_weaken with (R := fun _ => False);
    [ (eapply seq_bind;
       [ apply get_args_view_kind | intros a0 (d & v & ->) ]);
      (eapply seq_bind; [seq_prim | seq_intro]);
      (eapply seq_bind; [seq_prim | seq_intro]);
      (eapply seq_bind with (R := fun _ => False) (S2 := []);
       [ | intros ? [] ]);
      apply load_models_negative_view; exact Hneg
    | reflexivity | auto ].
Qed.

(** X15. With a negative [--height] or [--width], [main] does not get
    past the dummy inputs of the UNet session: [np.zeros] refuses the
    negative dimension [height // 8] or [width // 8] with [ValueError] (or a
    library call has raised before).  Up to then [main] has at most created
    and run the CLIP session and created the UNet session; the UNet session
    is never run, the VAE session is never created, and the pipeline never
    runs. *)
Theorem negative_size_stops_main (cli : CliArgs scalar) (w : World) :
  cli_height cli < 0 \/ cli_width cli < 0 ->
  (exists e,
     outcome_of (main A L cli w) = Raise e
     /\ (e = ValueError \/ e = LibraryError))
  /\ prefix_of (flat_map main_view (trace_of (main A L cli w)))
       [MLoad clip_session;
        MDummy clip_session [("input_ids", zeros_tensor [1; 77] Int32)];
        MLoad unet_session].
Proof.
  intros Hneg. split.
  - pose proof (@main_negative_ends cli Hneg w) as H. simpl in H.
    destruct (outcome_of (main A L cli w)) as [x|e]; [contradiction|].
    exists e. auto.
  - exact (proj1 (@main_negative_view cli Hneg w)).
Qed.

(** ** The latents through a run *)

Local Abbreviation chained := (@chained scalar time A).
Local Abbreviation after := (@after scalar time).
Local Abbreviation flows := (@flows scalar time A).
Local Abbreviation state_at_noise := (@state_at_noise scalar time World L).
Local Abbreviation neutral := (@neutral scalar time).

Lemma chained_app a te cur i sc (t1 t2 : list event) :
  chained a te cur i sc t1 ->
  (forall c j s, after cur i sc t1 = (c, j, s) -> chained a te c j s t2) ->
  chained a te cur i sc (t1 ++ t2).
Proof.
  revert cur i sc. induction t1 as [|e t1 IH]; intros cur i sc H1 H2.
  - simpl. apply H2. reflexivity.
  - destruct e; cbn [app chained after]
      in *; try (apply IH; assumption).
    + destruct H1 as (Hf1 & Hf2 & H1). repeat split; try assumption.
      apply IH; assumption.
    + destruct H1 as (Hc & Hi & H1). repeat split; try assumption.
      apply IH; assumption.
    + destruct H1 as (Hl & Hi & Ht & H1). repeat split; try assumption.
      apply IH; assumption.
Qed.

Lemma neutral_chained a te cur i sc (t : list event) :
  Forall neutral t ->
  chained a te cur i sc t /\ after cur i sc t = (cur, i, sc).
Proof.
  induction 1 as [|e t He _ IH]; [split; [exact Logic.I | reflexivity]|].
  destruct e; cbn [chained after];
    try exact IH; try contradiction.
  destruct He as [Hu Hv]. destruct IH as [IH1 IH2].
  repeat split; try assumption; intros; contradiction.
Qed.

Lemma chained_neutral_app a te cur i sc (t1 t2 : list event) :
  Forall neutral t1 ->
  chained a te cur i sc t2 -> chained a te cur i sc (t1 ++ t2).
Proof.
  intros H1 H2. destruct (neutral_chained a te cur i sc H1) as [Hc Ha].
  apply chained_app; [exact Hc|].
  intros c j s E. rewrite Ha in E. injection E as <- <- <-. exact H2.
Qed.

Lemma after_app cur i sc (t1 t2 : list event) :
  after cur i sc (t1 ++ t2)
  = let '(c, j, s) := after cur i sc t1 in after c j s t2.
Proof.
  revert cur i sc. induction t1 as [|e t1 IH]; intros cur i sc.
  - simpl. reflexivity.
  - destruct e; cbn [app after]; apply IH.
Qed.

Lemma encode_prompts_neutral a :
  clip_sess a = Some clip_session ->
  emits (Forall neutral) (encode_prompts A L a).
Proof.
  intros Hc. pose proof (Forall_Closed neutral) as HC.
  unfold encode_prompts. rewrite Hc.
  repeat first
    [ apply (emits_bind_attr HC); intros ? Hx; injection Hx as <-
    | apply (emits_bind HC);
      [ emits_prim HC; single; try split; discriminate
      | intros ?; split_pairs ]
    | apply (emits_bind HC);
      [ emits_prim HC; single | intros ?; split_pairs ]
    | emits_prim HC; single ].
Qed.

Lemma denoise_step_chained a te lat i ts :
  unet_sess a = Some unet_session ->
  nth_error (timesteps (sched a)) i = Some ts ->
  spec (denoise_step A L a te lat (i, ts))
    (fun r t =>
       chained a te lat i None t
       /\ match r with
          | Ok lat' => after lat i None t = (lat', S i, None)
          | Raise _ => True
          end).
Proof.
  intros Hu Hts. unfold denoise_step. rewrite Hu.
  repeat spec_step.
  all: cbn [app chained after].
  all: repeat split; try assumption; try reflexivity;
    try (intros; discriminate).
  all: intros _; eexists _, _; repeat split; eauto.
Qed.

Lemma denoise_loop_chained a te :
  unet_sess a = Some unet_session ->
  forall (items : list tensor) (i : nat) (lat : tensor),
    (forall j ts, nth_error items j = Some ts ->
                  nth_error (timesteps (sched a)) (i + j) = Some ts) ->
    spec (for_each (denoise_step A L a te)
            (combine (seq i (length items)) items) lat)
      (fun r t =>
         chained a te lat i None t
         /\ match r with
            | Ok lat' =>
                after lat i None t = (lat', (i + length items)%nat, None)
            | Raise _ => True
            end).
Proof.
  intros Hu. induction items as [|ts items IH]; intros i lat Hnth.
  - simpl. apply spec_ret. split; [exact Logic.I|].
    simpl. rewrite Nat.add_0_r. reflexivity.
  - cbn [length seq combine for_each]. apply spec_bind.
    eapply spec_conseq.
    + apply (@denoise_step_chained a te lat i ts Hu).
      specialize (Hnth 0%nat ts eq_refl). rewrite Nat.add_0_r in Hnth.
      exact Hnth.
    + intros [lat'|e] t [Hc Ha]; [|split; [exact Hc | exact Logic.I]].
      eapply spec_conseq.
      * apply (IH (S i) lat'). intros j ts' Hj.
        specialize (Hnth (S j) ts' Hj).
        rewrite Nat.add_succ_r in Hnth. exact Hnth.
      * intros r2 t2 [Hc2 Ha2]. split.
        -- apply chained_app; [exact Hc|].
           intros c j s E. rewrite Ha in E. injection E as <- <- <-.
           exact Hc2.
        -- destruct r2 as [lat2|e2]; [|exact Logic.I].
           rewrite after_app, Ha, Ha2. cbn [length].
           rewrite Nat.add_succ_r. reflexivity.
Qed.

Ltac flow_leaf :=
  repeat first
    [ exact Logic.I
    | progress cbn [app chained]
    | match goal with
      | |- exists _, _ => eexists
      | |- _ /\ _ => split
      | |- _ = _ -> _ => intros ?; first [ discriminate | reflexivity ]
      | H : Forall neutral ?t |- chained _ _ _ _ _ (?t ++ _) =>
          apply chained_neutral_app; [exact H|]
      | H : Forall neutral ?t |- chained ?a ?te ?cur ?i ?sc ?t =>
          apply (proj1 (neutral_chained a te cur i sc H))
      | H : chained _ _ _ _ _ ?t, Ha : after _ _ _ ?t = _
        |- chained _ _ _ _ _ (?t ++ _) =>
          apply chained_app;
          [ exact H
          | let E := fresh "E" in
            intros ? ? ? E; rewrite Ha in E; injection E as <- <- <- ]
      | H : chained _ _ _ _ _ ?t |- chained _ _ _ _ _ ?t => exact H
      end ].

(** The calls before [torch.randn] are no part of the flow; they only move
    the state of the libraries. *)
Lemma flows_lib_call a sigma c {X} (k : unit -> M X) w :
  flows a sigma (trace_of (k tt (snd (do_call L c w)))) ->
  flows a sigma (trace_of (bind (lib_call L c) k w)).
Proof.
  unfold bind, lib_call, trace_of.
  destruct (do_call L c w) as [[|] w1]; cbn [snd fst].
  - destruct (k tt w1) as [[r w2] t2]. cbn. auto.
  - intros _. exact Logic.I.
Qed.

(** From the noise on, the trace is [chained]. *)
Lemma flows_randn a sigma shape d dev {X} (k : tensor -> M X) w :
  (forall noise,
     exists te,
       chained a te (tensor_scale A sigma noise) 0 None
         (trace_of (k noise (snd (randn L shape d dev w))))) ->
  flows a sigma (trace_of (bind (torch_randn L shape d dev) k w)).
Proof.
  intros H. unfold bind, torch_randn, trace_of.
  destruct (forallb (fun n => 0 <=? n) shape); [|exact Logic.I].
  specialize (H (mkTensor Pt d shape
                   (match fst (randn L shape d dev w) with
                    | Some x => x
                    | None => []
                    end))).
  destruct (randn L shape d dev w) as [[x|] w1]; cbn [snd fst option_map
    of_option] in *; [|exact Logic.I].
  destruct (k (mkTensor Pt d shape x) w1) as [[r w2] t2].
  cbn in *. exact H.
Qed.

(** Reading [scheduler.init_noise_sigma] leaves no entry and no change. *)
Lemma trace_read_init_noise_sigma {X} (k : scalar -> M X) w :
  trace_of (bind (read_init_noise_sigma L) k w)
  = trace_of (k (init_noise_sigma L w) w).
Proof.
  unfold bind, read_init_noise_sigma, trace_of.
  destruct (k (init_noise_sigma L w) w) as [[r w2] t2]. reflexivity.
Qed.

(** X16. In a run of [run_pipeline] on the three sessions of [main], the
    latents start as the noise of [torch.randn] times
    [scheduler.init_noise_sigma], as the scheduler has it right after
    [torch.randn]; iteration [i] of the loop calls
    [scale_model_input] on [torch.cat([latents] * 2)] with index [i], feeds
    the UNet session the scaled input, the [i]-th timestep and the text
    embeddings, which are the same tensor in every iteration, and hands
    [scheduler.step] the latents, [i] and the [i]-th timestep; what [step]
    returns is the latents of the next iteration, and after the last one the
    VAE session is fed the latents times [1. / 0.18215] as a float32 array
    under ['latent']. *)
Theorem latents_flow (a : Args) (w : World) :
  clip_sess a = Some clip_session ->
  unet_sess a = Some unet_session ->
  vae_sess a = Some vae_session ->
  flows a (init_noise_sigma L (state_at_noise a w))
    (trace_of (run_pipeline A L a w)).
Proof.
  intros Hc Hu Hv. unfold run_pipeline, state_at_noise. rewrite Hv.
  cbv zeta.
  apply flows_lib_call. apply flows_lib_call. apply flows_lib_call.
  apply flows_randn. intros noise.
  rewrite trace_read_init_noise_sigma.
  match goal with
  | |- context [init_noise_sigma L ?w4] =>
      generalize (init_noise_sigma L w4); intros sigma;
      generalize w4; intros w'
  end.
  match goal with
  | |- exists te, chained ?a' te ?lat 0%nat None (trace_of (?m ?w0)) =>
      cut (spec m (fun _ t => exists te, chained a' te lat 0%nat None t));
      [ intros Hs; exact (Hs w0) | ]
  end.
  repeat lazymatch goal with
         | |- spec (bind (encode_prompts _ _ _) _) _ =>
             apply spec_bind; eapply spec_conseq;
             [ apply (@encode_prompts_neutral a Hc) | intros [?|?] ? ? ]
         | |- spec (bind (for_each _ (enumerate ?items) ?lat) _) _ =>
             apply spec_bind; eapply spec_conseq;
             [ unfold enumerate;
               apply (@denoise_loop_chained a _ Hu items 0%nat lat);
               intros ? ? Hj; exact Hj
             | intros [?|?] ? [? ?] ]
         | |- spec (if negb ?b then _ else _) _ =>
             destruct b; cbn [negb]; unfold report
         | |- spec _ _ => spec_step
         | |- match ?r with Ok _ => _ | Raise _ => _ end => spec_step
         end.
  all: flow_leaf.
  Unshelve.
  all: first [ exact (zero A) | exact (mkTensor Np Float32 [] []) ].
Qed.

(** ** What the CLIP session is fed *)

Local Abbreviation adjacent := (@adjacent scalar time).
Local Abbreviation clip_fed := (@clip_fed scalar time A).

Section Adjacent.

Variable P : option event -> event -> Prop.
Hypothesis P_weaken : forall p e, P None e -> P p e.

Lemma adjacent_weaken p t : adjacent P None t -> adjacent P p t.
Proof.
  destruct t as [|e t]; simpl; [auto|]. intros [H1 H2]. auto.
Qed.

Lemma adjacent_app p a b :
  adjacent P p a -> adjacent P None b -> adjacent P p (a ++ b).
Proof.
  revert p. induction a as [|e a IH]; intros p Ha Hb; simpl in *.
  - apply adjacent_weaken, Hb.
  - destruct Ha as [H1 H2]. split; [exact H1 | apply IH; assumption].
Qed.

Lemma adjacent_Closed : Closed (adjacent P None).
Proof. split; [exact Logic.I | intros a b; apply adjacent_app]. Qed.

Lemma adjacent_inv p pre e post :
  adjacent P p (pre ++ e :: post) ->
  P (match rev pre with x :: _ => Some x | [] => p end) e.
Proof.
  revert p. induction pre as [|x pre IH]; intros p H; simpl in *.
  - apply H.
  - destruct H as [_ H]. apply IH in H.
    destruct (rev pre) as [|y l] eqn:E; simpl; exact H.
Qed.

End Adjacent.

Lemma clip_fed_weaken p e : clip_fed None e -> clip_fed p e.
Proof.
  destruct e; simpl; auto. intros H Hs. destruct (H Hs).
Qed.

Lemma encode_prompts_clip_fed a :
  clip_sess a = Some clip_session ->
  emits (adjacent clip_fed None) (encode_prompts A L a).
Proof.
  intros Hc. unfold encode_prompts, emits. rewrite Hc.
  repeat spec_step.
  all: cbn [app adjacent clip_fed as_np t_lib].
  all: repeat split; auto.
Qed.

Lemma run_pipeline_clip_fed a :
  clip_sess a = Some clip_session ->
  unet_sess a = Some unet_session ->
  vae_sess a = Some vae_session ->
  emits (adjacent clip_fed None) (run_pipeline A L a).
Proof.
  intros Hc Hu Hv.
  pose proof (@adjacent_Closed clip_fed clip_fed_weaken) as HC.
  unfold run_pipeline. rewrite Hv.
  repeat first
    [ apply (emits_bind_attr HC); intros ? Hx; injection Hx as <-
    | apply (emits_bind HC);
      [ first [ apply (@encode_prompts_clip_fed a Hc)
              | apply (emits_for_each HC); intros ? [? ?];
                unfold denoise_step; rewrite Hu;
                repeat first
                  [ apply (emits_bind_attr HC); intros ? Hx;
                    injection Hx as <-
                  | apply (emits_bind HC);
                    [ emits_prim HC; single; discriminate
                    | intros ?; split_pairs ]
                  | apply (emits_bind HC);
                    [ emits_prim HC; single | intros ?; split_pairs ]
                  | emits_prim HC; single ]
              | emits_prim HC; single; discriminate
              | emits_prim HC; single ]
      | intros ? ] ].
  match goal with
  | |- emits _ (if ?b then _ else _) => destruct b
  end; [|apply (emits_ret HC)].
  unfold report. emits_go HC.
Qed.

(** X17. In a run of [run_pipeline] on the three sessions of [main], every
    run of the CLIP session comes right after a call of the tokenizer that
    returned, and its one input, ['input_ids'], is the NumPy array of token
    ids of that call converted with [astype(np.int32)]. *)
Theorem clip_fed_token_ids (a : Args) (w : World) :
  clip_sess a = Some clip_session ->
  unet_sess a = Some unet_session ->
  vae_sess a = Some vae_session ->
  forall pre feeds r post,
    trace_of (run_pipeline A L a w)
    = pre ++ EvSessRun clip_session feeds r :: post ->
    exists pre' p ml tr ids,
      pre = pre' ++ [EvTokenize p ml tr (Some ids)]
      /\ feeds = [("input_ids", astype A ids Int32)]
      /\ t_lib ids = Np
      /\ t_dtype (astype A ids Int32) = Int32.
Proof.
  intros Hc Hu Hv pre feeds r post E.
  pose proof (@run_pipeline_clip_fed a Hc Hu Hv w) as H. simpl in H.
  rewrite E in H. apply adjacent_inv in H. cbn [clip_fed] in H.
  specialize (H eq_refl).
  destruct (rev pre) as [|x l] eqn:Er; [contradiction|].
  destruct x; try contradiction.
  destruct r0 as [ids|]; [|contradiction].
  destruct H as [-> Hl].
  exists (rev l), p, max_length, truncation, ids.
  repeat split; try assumption.
  rewrite <- (rev_involutive pre), Er. simpl. reflexivity.
Qed.

(** ** More lookups in a trace *)

Lemma find_save_In (t : list event) images dir prefix ok :
  find_save t = Some (images, dir, prefix, ok) ->
  In (EvCall (CSaveImage images dir prefix) ok) t.
Proof.
  induction t as [|e t IH]; simpl; [discriminate|].
  destruct e; try (intros H; right; apply IH, H).
  destruct c; try (intros H; right; apply IH, H).
  intros H. injection H as <- <- <- <-. now left.
Qed.

Lemma split_at_run_eq s (t : list event) pre feeds r post :
  split_at_run s t = Some (pre, feeds, r, post) ->
  t = pre ++ EvSessRun s feeds r :: post.
Proof.
  revert pre. induction t as [|e t IH]; intros pre; simpl; [discriminate|].
  destruct e;
    try (destruct (split_at_run s t) as [[[[pre' f'] r'] post']|];
         [|discriminate];
         intros H; injection H as <- <- <- <-;
         rewrite (IH pre' eq_refl); reflexivity).
  destruct (session_eq_dec s s0) as [<-|_].
  - intros H. injection H as <- <- <- <-. reflexivity.
  - destruct (split_at_run s t) as [[[[pre' f'] r'] post']|]; [|discriminate].
    intros H. injection H as <- <- <- <-.
    rewrite (IH pre' eq_refl). reflexivity.
Qed.

End Proofs.

(** * [run_ort_trt] *)

Section RunOrtTrtFacts.

Variables (value outputs World : Type).
Variable R : OrtTrt.Runtime value outputs World.

Ltac io_cases :=
  unfold OrtTrt.run_ort_trt, OrtTrt.io_bind, OrtTrt.io_call,
    OrtTrt.io_outputs, OrtTrt.unpack, OrtTrt.result_of, OrtTrt.calls_of,
    OrtTrt.runs;
  cbn;
  repeat (match goal with
          | |- context [OrtTrt.new_session R ?s ?w] =>
              destruct (OrtTrt.new_session R s w) as [[|] ?]
          | |- context [OrtTrt.io_binding R ?s ?w] =>
              destruct (OrtTrt.io_binding R s w) as [[|] ?]
          | |- context [OrtTrt.bind_input R ?s ?kw ?w] =>
              destruct (OrtTrt.bind_input R s kw w) as [[|] ?]
          | |- context [OrtTrt.bind_output R ?s ?kw ?w] =>
              destruct (OrtTrt.bind_output R s kw w) as [[|] ?]
          | |- context [OrtTrt.run_with_iobinding R ?s ?w] =>
              destruct (OrtTrt.run_with_iobinding R s w) as [[?|] ?]
          | |- context [OrtTrt.run R ?s ?kw ?w] =>
              destruct (OrtTrt.run R s kw w) as [[?|] ?]
          end; cbn).

(** X18. With [use_io_binding] and [output_args] left at its default
    [None], [run_ort_trt] never returns and never runs the session: once the
    session is created and the input is bound, [**output_args] raises
    [TypeError]; before that only the runtime can have raised. *)
Theorem io_binding_needs_output_args (model_path : string)
  (input_args : OrtTrt.kwargs value) (w : World) :
  let r := OrtTrt.run_ort_trt R model_path input_args None true w in
  let sess := Session model_path
                ["TensorrtExecutionProvider"; "CUDAExecutionProvider"] in
  (OrtTrt.result_of r = inr OrtTrt.TypeError
   /\ OrtTrt.calls_of r
      = [OrtTrt.IoSession _ _ sess true; OrtTrt.IoBinding _ _ sess true;
         OrtTrt.IoBindInput _ sess input_args true]
   \/ OrtTrt.result_of r = inr OrtTrt.RuntimeFailure
      /\ (OrtTrt.calls_of r
          = [OrtTrt.IoSession _ _ sess true; OrtTrt.IoBinding _ _ sess true;
             OrtTrt.IoBindInput _ sess input_args false]
          \/ OrtTrt.calls_of r
             = [OrtTrt.IoSession _ _ sess true;
                OrtTrt.IoBinding _ _ sess false]
          \/ OrtTrt.calls_of r = [OrtTrt.IoSession _ _ sess false]))
  /\ OrtTrt.runs (OrtTrt.calls_of r) = 0%nat.
Proof.
  cbv zeta. io_cases.
  all: split; [|reflexivity].
  all: first [ left; split; reflexivity | right; split; [reflexivity|] ].
  all: first [ left; reflexivity
             | right; left; reflexivity
             | right; right; reflexivity ].
Qed.

(** X19. [run_ort_trt] runs the session at most once, and exactly once
    when it returns: with [sess.run] on [input_args] when [use_io_binding]
    is off, whatever [output_args] is, and with [sess.run_with_iobinding]
    after [bind_input] and [bind_output] when it is on.  The session is
    created from [model_path] with the TensorRT and CUDA providers, in this
    order. *)
Theorem run_ort_trt_runs_once (model_path : string)
  (input_args : OrtTrt.kwargs value)
  (output_args : option (OrtTrt.kwargs value)) (use_io_binding : bool)
  (w : World) :
  let r := OrtTrt.run_ort_trt R model_path input_args output_args
             use_io_binding w in
  let sess := Session model_path providers in
  (OrtTrt.runs (OrtTrt.calls_of r) <= 1)%nat
  /\ (forall o,
        OrtTrt.result_of r = inl o ->
        if use_io_binding then
          exists kw,
            output_args = Some kw
            /\ OrtTrt.calls_of r
               = [OrtTrt.IoSession _ _ sess true;
                  OrtTrt.IoBinding _ _ sess true;
                  OrtTrt.IoBindInput _ sess input_args true;
                  OrtTrt.IoBindOutput _ sess kw true;
                  OrtTrt.IoRunWithBinding _ sess (Some o)]
        else
          OrtTrt.calls_of r
          = [OrtTrt.IoSession _ _ sess true;
             OrtTrt.IoRun sess input_args (Some o)]).
Proof.
  cbv zeta. destruct use_io_binding; destruct output_args as [kw|];
    io_cases.
  all: split; [auto|].
  all: intros res E; try discriminate E.
  all: try (injection E as <-).
  all: try (eexists; split; reflexivity).
  all: reflexivity.
Qed.

End RunOrtTrtFacts.

(** * The theorems at work on the small library *)

(** ** The small library keeps the contract of the feeds section *)

Lemma toy_tokenizer_shape p ml tr w t w' :
  tokenize Toy.library p ml tr w = (Some t, w') ->
  exists l, t_shape t = [prompt_count p; l].
Proof.
  simpl. intros H. injection H as <- _. exists ml. reflexivity.
Qed.

Lemma toy_clip_shape ids w outs w' n l :
  session_run Toy.library clip_session [("input_ids", ids)] w
  = (Some outs, w') ->
  t_shape ids = [n; l] ->
  exists o rest, outs = o :: rest /\ t_shape o = [n; l; 3].
Proof.
  simpl. intros H Hs. injection H as <- _.
  eexists. exists []. split; [reflexivity|].
  simpl. rewrite Hs. reflexivity.
Qed.

Lemma toy_scale_shape x i w y w' :
  scale_model_input Toy.library x i w = (Some y, w') -> t_shape y = t_shape x.
Proof. simpl. intros H. injection H as <- _. reflexivity. Qed.

Lemma toy_step_shape n l i ts w y w' :
  scheduler_step Toy.library n l i ts w = (Some y, w') ->
  t_shape y = t_shape l.
Proof. simpl. intros H. injection H as <- _. reflexivity. Qed.

Lemma toy_main_returns :
  is_ok (outcome_of (main Toy.arith Toy.library Toy.cli 0%nat)) = true.
Proof. vm_compute. reflexivity. Qed.

Lemma toy_pipeline_returns :
  is_ok (outcome_of (run_pipeline Toy.arith Toy.library Toy.measured 0%nat))
  = true.
Proof. vm_compute. reflexivity. Qed.

Lemma is_measured_warmup (a : Args Z) (inner : list (event Z nat)) ok :
  is_measured a inner ok = true -> warmup a = Some false.
Proof.
  unfold is_measured. destruct (warmup a) as [[|]|]; try discriminate.
  reflexivity.
Qed.

(** ** One run of the pipeline *)

Lemma guidance_blend_fed_to_step_witness :
  match
    split_at_step
      (trace_of (run_pipeline Toy.arith Toy.library Toy.measured 0%nat))
  with
  | Some (pre, EvStep noise_pred latents step_index timestep r, post) =>
      trace_of (run_pipeline Toy.arith Toy.library Toy.measured 0%nat)
      = pre ++ EvStep noise_pred latents step_index timestep r :: post
      /\ exists pre' s feeds out outs noise_pred_uncond noise_pred_text d n
                rest,
           pre = pre' ++ [EvSessRun s feeds (Some (out :: outs))]
           /\ unet_sess Toy.measured = Some s
           /\ chunk2 (to_pt Toy.arith out Float16)
              = Ok (noise_pred_uncond, noise_pred_text)
           /\ t_shape out = n :: rest
           /\ t_shape noise_pred_uncond = (n + 1) / 2 :: rest
           /\ t_shape noise_pred_text = n - (n + 1) / 2 :: rest
           /\ t_data noise_pred_uncond ++ t_data noise_pred_text
              = t_data (to_pt Toy.arith out Float16)
           /\ tensor_sub Toy.arith noise_pred_text noise_pred_uncond = Ok d
           /\ tensor_add Toy.arith noise_pred_uncond
                (tensor_scale Toy.arith (guidance_scale Toy.measured) d)
              = Ok noise_pred
  | _ => False
  end.
Proof.
  assert (F : found
                (split_at_step
                   (trace_of
                      (run_pipeline Toy.arith Toy.library Toy.measured 0%nat)))
              = true)
    by (vm_compute; reflexivity).
  destruct (split_at_step _) as [[[pre x] post]|] eqn:E; [|discriminate F].
  destruct (split_at_step_eq _ E) as [Ht Hx].
  destruct x; try discriminate Hx.
  split; [exact Ht|].
  exact (guidance_blend_fed_to_step Toy.arith Toy.library Toy.measured 0%nat
           pre noise_pred latents step_index timestep r post Ht).
Defined.

Lemma pipeline_stage_order_witness :
  (clip_sess Toy.measured = Some clip_session
   /\ unet_sess Toy.measured = Some unet_session
   /\ vae_sess Toy.measured = Some vae_session
   /\ warmup Toy.measured = Some false)
  /\ stages (trace_of (run_pipeline Toy.arith Toy.library Toy.measured 0%nat))
     = pipeline_stages Toy.measured clip_session unet_session vae_session
         false.
Proof.
  split; [repeat split|].
  exact (proj2
           (pipeline_stage_order Toy.arith Toy.library Toy.measured 0%nat
              eq_refl eq_refl eq_refl eq_refl)
           toy_pipeline_returns).
Defined.



Lemma to_np_to_pt_dtype_witness :
  to_np Toy.arith Toy.np32 Float32 = Toy.np32
  /\ to_pt Toy.arith Toy.pt16 Float16 = Toy.pt16.
Proof.
  split.
  - exact (proj1 (proj2 (proj2 (proj1
             (to_np_to_pt_dtype Toy.arith Toy.np32 Float32))))
             eq_refl eq_refl).
  - exact (proj1 (proj2 (proj2 (proj2
             (to_np_to_pt_dtype Toy.arith Toy.pt16 Float16))))
             eq_refl eq_refl).
Defined.

(** ** One run of [main] *)

Lemma unet_runs_once_per_step_witness :
  match
    find_run has_returned (trace_of (main Toy.arith Toy.library Toy.cli 0%nat))
  with
  | Some (a, inner, _) =>
      In (EvRunPipeline a inner true)
        (trace_of (main Toy.arith Toy.library Toy.cli 0%nat))
      /\ steps_of inner = 2%nat
      /\ runs_of unet_session inner = 2%nat
  | None => False
  end.
Proof.
  assert (F : found
                (find_run has_returned
                   (trace_of (main Toy.arith Toy.library Toy.cli 0%nat)))
              = true)
    by (vm_compute; reflexivity).
  destruct (find_run _ _) as [[[a inner] ok]|] eqn:E; [|discriminate F].
  destruct (find_run_In _ _ E) as [Hin Hok].
  unfold has_returned in Hok. subst ok.
  destruct (unet_runs_once_per_step Toy.arith Toy.library Toy.cli 0%nat
              a inner Hin) as (_ & Hd & Hl & Hs & Hr).
  rewrite Hs, Hl, Hr, Hd.
  split; [exact Hin|]. split; reflexivity.
Defined.


Lemma measurement_order_witness :
  flat_map measurement_view
    (trace_of (main Toy.arith Toy.library Toy.cli 0%nat))
  = measurement_expected Toy.cli.
Proof.
  exact (proj2 (measurement_order Toy.arith Toy.library Toy.cli 0%nat)
           toy_main_returns).
Defined.

Lemma warmup_precedes_measurement_witness :
  flat_map warmup_view (trace_of (main Toy.arith Toy.library Toy.cli 0%nat))
  = warmup_expected Toy.arith Toy.cli.
Proof.
  exact (proj2
           (warmup_precedes_measurement Toy.arith Toy.library Toy.cli 0%nat)
           toy_main_returns).
Defined.

Lemma unet_feeds_shapes_witness :
  match
    find_run has_unet_run (trace_of (main Toy.arith Toy.library Toy.cli 0%nat))
  with
  | Some (a, inner, ok) =>
      match find_feeds unet_session inner with
      | Some (feeds, r) =>
          In (EvRunPipeline a inner ok)
            (trace_of (main Toy.arith Toy.library Toy.cli 0%nat))
          /\ In (EvSessRun unet_session feeds r) inner
          /\ unet_feed_ok a feeds
      | None => False
      end
  | None => False
  end.
Proof.
  assert (F : found
                (find_run has_unet_run
                   (trace_of (main Toy.arith Toy.library Toy.cli 0%nat)))
              = true)
    by (vm_compute; reflexivity).
  destruct (find_run _ _) as [[[a inner] ok]|] eqn:E; [|discriminate F].
  destruct (find_run_In _ _ E) as [Hin Hp].
  unfold has_unet_run in Hp.
  destruct (find_feeds unet_session inner) as [[feeds r]|] eqn:E2;
    [|discriminate Hp].
  pose proof (find_feeds_In _ _ E2) as Hf.
  split; [exact Hin|]. split; [exact Hf|].
  exact (unet_feeds_shapes Toy.arith Toy.library (hidden:=3) eq_refl
           toy_tokenizer_shape toy_clip_shape toy_scale_shape toy_step_shape
           Toy.cli 0%nat a inner ok feeds r Hin Hf).
Defined.

Lemma measured_prompts_witness :
  match
    find_run is_measured (trace_of (main Toy.arith Toy.library Toy.cli 0%nat))
  with
  | Some (a, inner, ok) =>
      (In (EvRunPipeline a inner ok)
         (trace_of (main Toy.arith Toy.library Toy.cli 0%nat))
       /\ warmup a = Some false)
      /\ In (batch_size a) [1; 2; 4; 8; 16]
      /\ prompt a = PList (repeat (PStr "a cat") (Z.to_nat (batch_size a)))
      /\ prompt_count (prompt a) = batch_size a
      /\ negative_prompt a = PList (repeat (PStr "") (Z.to_nat (batch_size a)))
  | None => False
  end.
Proof.
  assert (F : found
                (find_run is_measured
                   (trace_of (main Toy.arith Toy.library Toy.cli 0%nat)))
              = true)
    by (vm_compute; reflexivity).
  destruct (find_run _ _) as [[[a inner] ok]|] eqn:E; [|discriminate F].
  destruct (find_run_In _ _ E) as [Hin Hp].
  pose proof (is_measured_warmup _ _ _ Hp) as Hw.
  destruct (measured_prompts Toy.arith Toy.library Toy.cli 0%nat a inner ok
              Hin Hw) as (H1 & H2 & _ & H4 & H5).
  split; [split; assumption|].
  split; [exact H1|]. split; [exact H2|]. split; [exact H4|].
  exact (proj1 (H5 eq_refl)).
Defined.

(** ** More of the script on the small library *)

Lemma saved_image_names_witness :
  match
    find_run has_save (trace_of (main Toy.arith Toy.library Toy.cli 0%nat))
  with
  | Some (a, inner, ok) =>
      match find_save inner with
      | Some (images, dir, prefix, saved) =>
          (In (EvRunPipeline a inner ok)
             (trace_of (main Toy.arith Toy.library Toy.cli 0%nat))
           /\ In (EvCall (CSaveImage images dir prefix) saved) inner)
          /\ warmup a = Some false
          /\ dir = "./output"
          /\ prefix = Build_image_prefix "sd-fp16" ["-a_cat"] "-"
      | None => False
      end
  | None => False
  end.
Proof.
  assert (F : found
                (find_run has_save
                   (trace_of (main Toy.arith Toy.library Toy.cli 0%nat)))
              = true)
    by (vm_compute; reflexivity).
  destruct (find_run _ _) as [[[a inner] ok]|] eqn:E; [|discriminate F].
  destruct (find_run_In _ _ E) as [Hin Hp].
  unfold has_save in Hp.
  destruct (find_save inner) as [[[[images dir] prefix] saved]|] eqn:E2;
    [|discriminate Hp].
  pose proof (find_save_In _ E2) as Hs.
  split; [split; assumption|].
  exact (saved_image_names Toy.arith Toy.library Toy.cli 0%nat a inner ok
           images dir prefix saved Hin Hs).
Defined.

Lemma image_name_prefix_index_error_witness :
  (prompt Toy.short_of_prompts = PList (map PStr ["a cat"])
   /\ Z.of_nat (length ["a cat"]) < batch_size Toy.short_of_prompts)
  /\ image_name_prefix Toy.short_of_prompts = Raise IndexError.
Proof.
  split; [split; reflexivity|].
  apply (image_name_prefix_index_error Toy.short_of_prompts ["a cat"]);
    reflexivity.
Defined.

Lemma negative_prompts_match_batch_witness :
  prompt_count (negative_prompt Toy.measured) = batch_size Toy.measured.
Proof.
  exact (negative_prompts_match_batch Toy.arith Toy.library (hidden:=3)
           eq_refl toy_tokenizer_shape toy_clip_shape Toy.measured 0%nat
           eq_refl toy_pipeline_returns).
Defined.

Lemma main_needs_default_negative_prompt_witness :
  cli_negative_prompt Toy.cli = None.
Proof.
  exact (main_needs_default_negative_prompt Toy.arith Toy.library (hidden:=3)
           eq_refl toy_tokenizer_shape toy_clip_shape Toy.cli 0%nat
           toy_main_returns).
Defined.

Lemma main_needs_batch_size_one_witness :
  0 < cli_num_warmup_runs Toy.cli /\ cli_batch_size Toy.cli = 1.
Proof.
  split; [reflexivity|].
  exact (main_needs_batch_size_one Toy.arith Toy.library (hidden:=3)
           eq_refl toy_tokenizer_shape toy_clip_shape Toy.cli 0%nat
           eq_refl toy_main_returns).
Defined.

Lemma negative_size_stops_main_witness :
  cli_height Toy.cli_negative_height < 0
  /\ (exists e,
        outcome_of (main Toy.arith Toy.library Toy.cli_negative_height 0%nat)
        = Raise e
        /\ (e = ValueError \/ e = LibraryError))
  /\ prefix_of
       (flat_map main_view
          (trace_of
             (main Toy.arith Toy.library Toy.cli_negative_height 0%nat)))
       [MLoad clip_session;
        MDummy clip_session
          [("input_ids", zeros_tensor Toy.arith [1; 77] Int32)];
        MLoad unet_session].
Proof.
  split; [reflexivity|].
  exact (negative_size_stops_main Toy.arith Toy.library
           Toy.cli_negative_height 0%nat (or_introl eq_refl)).
Defined.

Lemma latents_flow_witness :
  flows Toy.arith Toy.measured
    (init_noise_sigma Toy.library
       (state_at_noise Toy.library Toy.measured 0%nat))
    (trace_of (run_pipeline Toy.arith Toy.library Toy.measured 0%nat)).
Proof.
  exact (latents_flow Toy.arith Toy.library Toy.measured 0%nat
           eq_refl eq_refl eq_refl).
Defined.

Lemma clip_fed_token_ids_witness :
  match
    split_at_run clip_session
      (trace_of (run_pipeline Toy.arith Toy.library Toy.measured 0%nat))
  with
  | Some (pre, feeds, r, post) =>
      trace_of (run_pipeline Toy.arith Toy.library Toy.measured 0%nat)
      = pre ++ EvSessRun clip_session feeds r :: post
      /\ exists pre' p ml tr ids,
           pre = pre' ++ [EvTokenize p ml tr (Some ids)]
           /\ feeds = [("input_ids", astype Toy.arith ids Int32)]
           /\ t_lib ids = Np
           /\ t_dtype (astype Toy.arith ids Int32) = Int32
  | None => False
  end.
Proof.
  assert (F : found
                (split_at_run clip_session
                   (trace_of
                      (run_pipeline Toy.arith Toy.library Toy.measured
                         0%nat)))
              = true)
    by (vm_compute; reflexivity).
  destruct (split_at_run _ _) as [[[[pre feeds] r] post]|] eqn:E;
    [|discriminate F].
  pose proof (split_at_run_eq _ _ E) as Ht.
  split; [exact Ht|].
  exact (clip_fed_token_ids Toy.arith Toy.library Toy.measured 0%nat
           eq_refl eq_refl eq_refl pre feeds r post Ht).
Defined.
